(** * Data table viewer: detection, normalisation and repair

    A shallow embedding of the parsing core shared by
    [src/production_data_viewer.tsx] and [src/data-table-viewer.html]
    (the two [parseData] functions, the [columns] memo and the table body
    that renders a row over the columns), of the repair call
    ([correctDataWithGemini], [handleAICorrection]) and of the table,
    export and upload handlers of the production viewer.

    Texts are modelled as [string]s of 8-bit characters, the UTF-8 form of
    the text.  The JavaScript built-ins used by the source ([trim],
    [split], [JSON.parse], regular expression [replace] and [match],
    [Object.keys], [Set], Number to text) are written out as functions
    over that representation; characters above 127 are opaque bytes (no
    Unicode white space, no case folding).  An object is an association
    list of its own properties in insertion order; a read [row[k]] that
    finds no own property goes on to [Object.prototype], whose members
    are listed. *)

From Stdlib Require Import String Ascii List Bool Arith ZArith Lia.
From Stdlib Require Import DecimalString Permutation Sorted.
Import ListNotations.
Open Scope string_scope.
Open Scope list_scope.
Open Scope nat_scope.

Set Warnings "-register-all".

(** ** Characters and strings of the host language *)

Module JS.

Definition code (c : ascii) : nat := nat_of_ascii c.

(** WhiteSpace and LineTerminator code points below 128: TAB, LF, VT, FF,
    CR and SP. *)
Definition is_space (c : ascii) : bool :=
  let n := code c in
  (n =? 9) || (n =? 10) || (n =? 11) || (n =? 12) || (n =? 13) || (n =? 32).

Definition is_digit (c : ascii) : bool :=
  let n := code c in (48 <=? n) && (n <=? 57).

Definition is_upper (c : ascii) : bool :=
  let n := code c in (65 <=? n) && (n <=? 90).

Definition is_lower (c : ascii) : bool :=
  let n := code c in (97 <=? n) && (n <=? 122).

(** The class [\w]: letters, digits and underscore. *)
Definition is_word (c : ascii) : bool :=
  is_upper c || is_lower c || is_digit c || (code c =? 95).

Definition to_lower (c : ascii) : ascii :=
  if is_upper c then ascii_of_nat (code c + 32) else c.

Definition is_empty (s : string) : bool :=
  match s with EmptyString => true | String _ _ => false end.

(** A string is truthy when it is not empty. *)
Definition truthy_string (s : string) : bool := negb (is_empty s).

Fixpoint trimStart (s : string) : string :=
  match s with
  | EmptyString => EmptyString
  | String c r => if is_space c then trimStart r else s
  end.

Fixpoint trimEnd (s : string) : string :=
  match s with
  | EmptyString => EmptyString
  | String c r =>
      let r' := trimEnd r in
      if is_space c && is_empty r' then EmptyString else String c r'
  end.

(** [String.prototype.trim]. *)
Definition trim (s : string) : string := trimEnd (trimStart s).

(** [s.split(sep)] for a separator of one character: the pieces between
    the occurrences of [sep], so one more piece than occurrences. *)
Fixpoint split (sep : ascii) (s : string) : list string :=
  match s with
  | EmptyString => [EmptyString]
  | String c r =>
      if Ascii.eqb c sep then EmptyString :: split sep r
      else match split sep r with
           | p :: ps => String c p :: ps
           | [] => [String c EmptyString]
           end
  end.

(** [(s.match(new RegExp('\\' + sep, 'g')) || []).length]: the escaped
    separator matches itself, so this counts its occurrences. *)
Fixpoint count_matches (sep : ascii) (s : string) : nat :=
  match s with
  | EmptyString => 0
  | String c r => (if Ascii.eqb c sep then 1 else 0) + count_matches sep r
  end.

(** [p] is a prefix of [s] up to the case of ASCII letters (the [i] flag);
    the result is what follows the prefix. *)
Fixpoint strip_prefix_ci (p s : string) : option string :=
  match p, s with
  | EmptyString, _ => Some s
  | String a p', String b s' =>
      if Ascii.eqb (to_lower a) (to_lower b) then strip_prefix_ci p' s'
      else None
  | String _ _, EmptyString => None
  end.

Fixpoint strip_prefix (p s : string) : option string :=
  match p, s with
  | EmptyString, _ => Some s
  | String a p', String b s' =>
      if Ascii.eqb a b then strip_prefix p' s' else None
  | String _ _, EmptyString => None
  end.

Fixpoint drop (n : nat) (s : string) : string :=
  match n, s with
  | O, _ => s
  | S k, String _ r => drop k r
  | S _, EmptyString => EmptyString
  end.

Fixpoint take (n : nat) (s : string) : string :=
  match n, s with
  | S k, String c r => String c (take k r)
  | _, _ => EmptyString
  end.

Definition string_of_nat (n : nat) : string :=
  NilEmpty.string_of_uint (Nat.to_uint n).

Definition string_of_Z (z : Z) : string :=
  NilZero.string_of_int (Z.to_int z).

End JS.

(** ** Numbers

    [JSON.parse] reads a number literal as the double nearest to it, and a
    number is printed with the fewest digits that read back as the same
    double.  Both are computed here on exact integers. *)

Module Double.

Local Open Scope Z_scope.

(** The magnitude of a double: zero, [f * 2^q] with [0 < f < 2^53] and
    [-1074 <= q <= 971], or infinity. *)
Inductive magnitude : Type :=
| Zero
| Finite (f q : Z)
| Infinity.

Record double : Type := { negative : bool; size : magnitude }.

(** The part of a literal that is being read. *)
Inductive part : Type := Integer | Fraction | Exponent.

(** The digits of a literal as one integer, and the power of ten that
    scales it. *)
Fixpoint read (p : part) (digits places : Z) (minus : bool) (e : Z) (s : string)
  : Z * Z :=
  match s with
  | EmptyString => (digits, (if minus then - e else e) - places)
  | String c r =>
      let d := Z.of_nat (JS.code c - 48) in
      if JS.is_digit c then
        match p with
        | Integer => read Integer (10 * digits + d) places minus e r
        | Fraction => read Fraction (10 * digits + d) (places + 1) minus e r
        | Exponent => read Exponent digits places minus (10 * e + d) r
        end
      else if Ascii.eqb c "." then read Fraction digits places minus e r
      else if Ascii.eqb c "e" || Ascii.eqb c "E" then read Exponent digits places minus e r
      else if Ascii.eqb c "-" then read p digits places true e r
      else read p digits places minus e r
  end.

(** The nearest integer to [n / d], the even one of two that are as
    near. *)
Definition round_half_even (n d : Z) : Z :=
  let q := n / d in
  let r := n mod d in
  if 2 * r <? d then q
  else if d <? 2 * r then q + 1
  else if Z.even q then q else q + 1.

(** [n / d] divided by [2^e]. *)
Definition scale2 (n d e : Z) : Z * Z :=
  if 0 <=? e then (n, d * 2 ^ e) else (n * 2 ^ (- e), d).

(** The [e] with [2^e <= n / d < 2^(e+1)]. *)
Definition ilog2 (n d : Z) : Z :=
  let e := Z.log2 n - Z.log2 d in
  let (n', d') := scale2 n d e in
  if n' <? d' then e - 1 else e.

(** The double nearest to the positive rational [n / d]. *)
Definition nearest (n d : Z) : magnitude :=
  let q := Z.max (ilog2 n d - 52) (-1074) in
  let (n', d') := scale2 n d q in
  let f := round_half_even n' d' in
  if f =? 0 then Zero
  else
    let (f', q') := if f =? 2 ^ 53 then (2 ^ 52, q + 1) else (f, q) in
    if 971 <? q' then Infinity else Finite f' q'.

(** The Number value of a JSON number literal. *)
Definition of_lexeme (lexeme : string) : double :=
  match lexeme with
  | String c r =>
      let neg := Ascii.eqb c "-" in
      let (digits, scale) := read Integer 0 0 false 0 (if neg then r else lexeme) in
      {| negative := neg;
         size := if digits =? 0 then Zero
                 else if 0 <=? scale then nearest (digits * 10 ^ scale) 1
                 else nearest digits (10 ^ (- scale)) |}
  | EmptyString => {| negative := false; size := Zero |}
  end.

Definition is_zero (x : double) : bool :=
  match size x with Zero => true | _ => false end.

(** The number of decimal digits of a positive integer. *)
Definition digits_of (z : Z) : Z := Z.of_nat (String.length (JS.string_of_Z z)).

(** The [n] with [10^(n-1) <= x / d < 10^n]. *)
Definition decade (x d : Z) : Z :=
  if d <=? x then digits_of (x / d)
  else
    let m := digits_of (d / x) in
    if x * 10 ^ (m - 1) =? d then 2 - m else 1 - m.

(** The decimal [s * 10^p] of [k] digits or more that reads back as the
    double [f * 2^q], with the fewest digits and, among those, the nearest
    to it; 17 digits always suffice.  A decimal reads back as the double
    when it lies between the midpoints to the neighbouring doubles, the
    midpoints included when [f] is even. *)
Fixpoint shortest (tries : nat) (k : Z) (f q : Z) : Z * Z :=
  let sh := if 2 <=? q then 0 else 2 - q in
  let d := 2 ^ sh in
  let x := f * 2 ^ (q + sh) in
  let up := 2 ^ (q + sh - 1) in
  let down := if (f =? 2 ^ 52) && (-1074 <? q) then 2 ^ (q + sh - 2) else up in
  let n := decade x d in
  let p := n - k in
  let t := if 0 <=? p then 1 else 10 ^ (- p) in
  let w := if 0 <=? p then 10 ^ p * d else d in
  let xs := x * t in
  let lo := (x - down) * t in
  let hi := (x + up) * t in
  let inside y :=
    if Z.even f then (lo <=? y) && (y <=? hi) else (lo <? y) && (y <? hi) in
  let s := xs / w in
  let a := s * w in
  let b := a + w in
  let below := (s, p) in
  let above := (s + 1, p) in
  match tries with
  | O => below
  | S tries' =>
      match inside a, inside b with
      | true, true =>
          if xs - a <? b - xs then below
          else if b - xs <? xs - a then above
          else if Z.even s then below else above
      | true, false => below
      | false, true => above
      | false, false => shortest tries' (k + 1) f q
      end
  end.

Fixpoint strip_zeros (s : string) : string :=
  match s with
  | EmptyString => EmptyString
  | String c r =>
      match strip_zeros r with
      | EmptyString => if Ascii.eqb c "0" then EmptyString else String c EmptyString
      | r' => String c r'
      end
  end.

Fixpoint zeros (n : nat) : string :=
  match n with O => EmptyString | S k => String "0" (zeros k) end.

(** Number::toString on the digits of a positive finite value and the
    place [n] of its decimal point: plain up to 21 digits before the point
    and 6 zeros after it, with an exponent otherwise. *)
Definition layout (digits : string) (n : Z) : string :=
  let k := Z.of_nat (String.length digits) in
  if (k <=? n) && (n <=? 21) then
    (digits ++ zeros (Z.to_nat (n - k)))%string
  else if (0 <? n) && (n <=? 21) then
    (JS.take (Z.to_nat n) digits ++ "." ++ JS.drop (Z.to_nat n) digits)%string
  else if (-6 <? n) && (n <=? 0) then
    ("0." ++ zeros (Z.to_nat (- n)) ++ digits)%string
  else
    let e := n - 1 in
    let sign := if 0 <=? e then "+" else "-" in
    let mantissa :=
      if k =? 1 then digits
      else (JS.take 1 digits ++ "." ++ JS.drop 1 digits)%string in
    (mantissa ++ "e" ++ sign ++ JS.string_of_Z (Z.abs e))%string.

(** Number::toString. *)
Definition toString (x : double) : string :=
  match size x with
  | Zero => "0"
  | Infinity => if negative x then "-Infinity" else "Infinity"
  | Finite f q =>
      let (s, p) := shortest 17 1 f q in
      let all := JS.string_of_Z s in
      let digits := strip_zeros all in
      let n := p + Z.of_nat (String.length all) in
      ((if negative x then "-" else "") ++ layout digits n)%string
  end.

End Double.

(** ** Values *)

(** A number read by [JSON.parse].  An integer literal of magnitude at most
    2^53 is its exact value; any other literal (fraction, exponent, larger
    magnitude) is kept as its lexeme and stands for the double nearest to
    it. *)
Inductive number : Type :=
| NInt (z : Z)
| NFloat (lexeme : string).

Inductive value : Type :=
| JNull
| JBool (b : bool)
| JNum (n : number)
| JStr (s : string)
| JArr (items : list value)
| JObj (props : list (string * value)).

(** A data property is defined on an object ([JSON.parse] does so for
    every name): an existing property keeps its place, a new one goes
    last. *)
Fixpoint obj_set (k : string) (v : value) (o : list (string * value))
  : list (string * value) :=
  match o with
  | [] => [(k, v)]
  | (k', v') :: r =>
      if String.eqb k' k then (k', v) :: r else (k', v') :: obj_set k v r
  end.

Fixpoint obj_get (k : string) (o : list (string * value)) : option value :=
  match o with
  | [] => None
  | (k', v') :: r => if String.eqb k' k then Some v' else obj_get k r
  end.

Fixpoint digits_value (acc : N) (s : string) : option N :=
  match s with
  | EmptyString => Some acc
  | String c r =>
      if JS.is_digit c
      then digits_value (10 * acc + N.of_nat (JS.code c - 48))%N r
      else None
  end.

(** An array index is a canonical numeric string below 2^32 - 1. *)
Definition array_index (k : string) : option N :=
  match k with
  | EmptyString => None
  | String c r =>
      if Ascii.eqb c "0" && negb (JS.is_empty r) then None
      else if Nat.ltb 10 (String.length k) then None
      else match digits_value 0%N k with
           | Some n => if (n <? 4294967295)%N then Some n else None
           | None => None
           end
  end.

Fixpoint nth_char (n : nat) (s : string) : option ascii :=
  match s, n with
  | EmptyString, _ => None
  | String c _, O => Some c
  | String _ r, S k => nth_char k r
  end.

(** The functions that every object inherits from [Object.prototype]. *)
Definition object_methods : list string :=
  ["constructor"; "hasOwnProperty"; "isPrototypeOf"; "propertyIsEnumerable";
   "toLocaleString"; "toString"; "valueOf";
   "__defineGetter__"; "__defineSetter__"; "__lookupGetter__"; "__lookupSetter__"].

(** The accessor that [Object.prototype] has beside them. *)
Definition proto : string := "__proto__".

(** What a read [row[k]] finds. *)
Inductive member : Type :=
| Undefined
| Own (v : value)            (* a property of the value itself *)
| Inherited (name : string)  (* a function of [Object.prototype] *)
| Prototype                  (* [Object.prototype], through [__proto__] *)
| Unknown.                   (* the read throws (on null), or goes on to the
                                prototype of an array, a string, a number or
                                a boolean, which the model does not list *)

(** After the own properties of an object, its prototype. *)
Definition inherited (k : string) : member :=
  if String.eqb k proto then Prototype
  else if existsb (String.eqb k) object_methods then Inherited k
  else Undefined.

(** After the elements of an array or the characters of a string: no
    prototype has a property named by an index, any other name may be one
    of a method. *)
Definition beyond (k : string) : member :=
  match array_index k with Some _ => Undefined | None => Unknown end.

(** [row[k]]. *)
Definition get (row : value) (k : string) : member :=
  match row with
  | JObj o =>
      match obj_get k o with
      | Some v => Own v
      | None => inherited k
      end
  | JArr l =>
      match array_index k with
      | Some i =>
          if (i <? N.of_nat (length l))%N
          then match nth_error l (N.to_nat i) with
               | Some v => Own v
               | None => Undefined
               end
          else Undefined
      | None =>
          if String.eqb k "length"
          then Own (JNum (NInt (Z.of_nat (length l)))) else Unknown
      end
  | JStr s =>
      match array_index k with
      | Some i =>
          if (i <? N.of_nat (String.length s))%N
          then match nth_char (N.to_nat i) s with
               | Some c => Own (JStr (String c EmptyString))
               | None => Undefined
               end
          else Undefined
      | None =>
          if String.eqb k "length"
          then Own (JNum (NInt (Z.of_nat (String.length s)))) else Unknown
      end
  | JBool _ | JNum _ => beyond k
  | JNull => Unknown
  end.

(** The row has a property of that name of its own. *)
Definition has_own (row : value) (k : string) : bool :=
  match get row k with Own _ => true | _ => false end.

(** ToBoolean. *)
Definition truthy (v : value) : bool :=
  match v with
  | JNull => false
  | JBool b => b
  | JNum (NInt z) => negb (Z.eqb z 0)
  | JNum (NFloat lexeme) => negb (Double.is_zero (Double.of_lexeme lexeme))
  | JStr s => JS.truthy_string s
  | JArr _ | JObj _ => true
  end.

Fixpoint join_with (sep : string) (l : list (option string)) : option string :=
  match l with
  | [] => Some EmptyString
  | [x] => x
  | x :: r =>
      match x, join_with sep r with
      | Some a, Some b => Some (a ++ sep ++ b)%string
      | _, _ => None
      end
  end.

(** [v.toString()] for the values [JSON.parse] builds.  An array joins the
    texts of its elements with a comma, null elements printing as nothing.
    An object prints as [[object Object]] through the method it inherits;
    when it has a property named [toString] of its own, which is no
    function, the call raises a TypeError: that is [None]. *)
Fixpoint toString (v : value) : option string :=
  match v with
  | JNull => Some "null"
  | JBool true => Some "true"
  | JBool false => Some "false"
  | JNum (NInt z) => Some (JS.string_of_Z z)
  | JNum (NFloat lexeme) => Some (Double.toString (Double.of_lexeme lexeme))
  | JStr s => Some s
  | JArr l =>
      join_with ","
        (map (fun x => match x with JNull => Some EmptyString | _ => toString x end) l)
  | JObj o =>
      match obj_get "toString" o with
      | Some _ => None
      | None => Some "[object Object]"
      end
  end.

Fixpoint insert_index (x : N * string) (l : list (N * string)) : list (N * string) :=
  match l with
  | [] => [x]
  | y :: r => if (fst x <=? fst y)%N then x :: l else y :: insert_index x r
  end.

Definition index_keys (ks : list string) : list (N * string) :=
  fold_right
    (fun k acc => match array_index k with
                  | Some i => insert_index (i, k) acc
                  | None => acc
                  end) [] ks.

Definition is_index (k : string) : bool :=
  match array_index k with Some _ => true | None => false end.

(** Own property names in the order of the language: array indices
    ascending, then the other names in insertion order. *)
Definition ordered_keys (ks : list string) : list string :=
  map snd (index_keys ks) ++ filter (fun k => negb (is_index k)) ks.

(** [Object.keys(item)]; [None] is the TypeError raised on null. *)
Definition Object_keys (item : value) : option (list string) :=
  match item with
  | JNull => None
  | JBool _ | JNum _ => Some []
  | JStr s => Some (map JS.string_of_nat (seq 0 (String.length s)))
  | JArr l => Some (map JS.string_of_nat (seq 0 (length l)))
  | JObj o => Some (ordered_keys (map fst o))
  end.

(** ** [JSON.parse]

    A lexer that walks the text once (a counter skips the characters a
    token has already taken) and a pushdown recogniser over the tokens.
    Both recurse on their input, so [JSON_parse] is total: [None] is the
    SyntaxError. *)

Module Json.

Inductive token : Type :=
| TLBrace | TRBrace | TLBracket | TRBracket | TComma | TColon
| TString (s : string)
| TNumber (n : number)
| TTrue | TFalse | TNull.

Definition byte (n : N) : ascii := ascii_of_N n.

(** UTF-8 for a code point; a lone surrogate is written like any other
    three-byte code point. *)
Definition utf8 (cp : N) : string :=
  (if cp <? 128 then String (byte cp) EmptyString
   else if cp <? 2048 then
     String (byte (192 + cp / 64)) (String (byte (128 + cp mod 64)) EmptyString)
   else if cp <? 65536 then
     String (byte (224 + cp / 4096))
       (String (byte (128 + (cp / 64) mod 64))
          (String (byte (128 + cp mod 64)) EmptyString))
   else
     String (byte (240 + cp / 262144))
       (String (byte (128 + (cp / 4096) mod 64))
          (String (byte (128 + (cp / 64) mod 64))
             (String (byte (128 + cp mod 64)) EmptyString))))%N.

Definition is_high (u : N) : bool := ((55296 <=? u) && (u <=? 56319))%N.
Definition is_low (u : N) : bool := ((56320 <=? u) && (u <=? 57343))%N.

Definition flush (pending : option N) : string :=
  match pending with Some h => utf8 h | None => EmptyString end.

Definition hex_digit (c : ascii) : option N :=
  let n := JS.code c in
  if JS.is_digit c then Some (N.of_nat (n - 48))
  else if (97 <=? n) && (n <=? 102) then Some (N.of_nat (n - 87))
  else if (65 <=? n) && (n <=? 70) then Some (N.of_nat (n - 55))
  else None.

Inductive sstate : Type :=
| SPlain
| SEsc
| SHex (more : nat) (acc : N).

Definition simple_escape (c : ascii) : option ascii :=
  let n := JS.code c in
  if n =? 34 then Some c            (* quotation mark *)
  else if n =? 92 then Some c       (* reverse solidus *)
  else if n =? 47 then Some c       (* solidus *)
  else if n =? 98 then Some (ascii_of_nat 8)
  else if n =? 102 then Some (ascii_of_nat 12)
  else if n =? 110 then Some (ascii_of_nat 10)
  else if n =? 114 then Some (ascii_of_nat 13)
  else if n =? 116 then Some (ascii_of_nat 9)
  else None.

Definition emit (pre : string) (r : option (string * nat)) : option (string * nat) :=
  match r with
  | Some (t, n) => Some ((pre ++ t)%string, S n)
  | None => None
  end.

(** The characters after an opening quotation mark: the decoded string and
    how many characters it took, closing mark included.  [pending] is a high
    surrogate read from a [\u] escape and not yet written. *)
Fixpoint scan_string (st : sstate) (pending : option N) (s : string)
  : option (string * nat) :=
  match s with
  | EmptyString => None
  | String c r =>
      match st with
      | SPlain =>
          if JS.code c =? 34 then Some (flush pending, 1)
          else if JS.code c =? 92 then emit EmptyString (scan_string SEsc pending r)
          else if JS.code c <? 32 then None
          else emit (flush pending ++ String c EmptyString)%string
                    (scan_string SPlain None r)
      | SEsc =>
          if JS.code c =? 117 then emit EmptyString (scan_string (SHex 3 0%N) pending r)
          else match simple_escape c with
               | Some d => emit (flush pending ++ String d EmptyString)%string
                                (scan_string SPlain None r)
               | None => None
               end
      | SHex more acc =>
          match hex_digit c with
          | None => None
          | Some d =>
              let u := (16 * acc + d)%N in
              match more with
              | S k => emit EmptyString (scan_string (SHex k u) pending r)
              | O =>
                  match pending with
                  | Some h =>
                      if is_low u
                      then emit (utf8 (65536 + (h - 55296) * 1024 + (u - 56320))%N)
                                (scan_string SPlain None r)
                      else if is_high u
                      then emit (utf8 h) (scan_string SPlain (Some u) r)
                      else emit (utf8 h ++ utf8 u)%string (scan_string SPlain None r)
                  | None =>
                      if is_high u
                      then emit EmptyString (scan_string SPlain (Some u) r)
                      else emit (utf8 u) (scan_string SPlain None r)
                  end
              end
          end
      end
  end.

Fixpoint digits_len (s : string) : nat :=
  match s with
  | String c r => if JS.is_digit c then S (digits_len r) else 0
  | EmptyString => 0
  end.

Definition starts_with (c : ascii) (s : string) : bool :=
  match s with String d _ => Ascii.eqb c d | EmptyString => false end.

(** Length of the integer part [0 | [1-9][0-9]*]. *)
Definition int_len (s : string) : option nat :=
  match s with
  | String c r =>
      if Ascii.eqb c "0" then Some 1
      else if JS.is_digit c then Some (S (digits_len r))
      else None
  | EmptyString => None
  end.

(** Length of the optional fraction [.[0-9]+]; a point without a digit is
    an error. *)
Definition frac_len (s : string) : option nat :=
  match s with
  | String c r =>
      if Ascii.eqb c "."
      then match digits_len r with O => None | S d => Some (S (S d)) end
      else Some 0
  | EmptyString => Some 0
  end.

(** Length of the optional exponent [[eE][+-]?[0-9]+]. *)
Definition exp_len (s : string) : option nat :=
  match s with
  | String c r =>
      if Ascii.eqb c "e" || Ascii.eqb c "E"
      then
        let sign := if starts_with "+" r || starts_with "-" r then 1 else 0 in
        match digits_len (JS.drop sign r) with
        | O => None
        | S d => Some (S (sign + S d))
        end
      else Some 0
  | EmptyString => Some 0
  end.

Definition two53 : N := 9007199254740992.

(** A number token at the head of [s]: its value and its length. *)
Definition scan_number (s : string) : option (number * nat) :=
  let neg := starts_with "-" s in
  let sign := if neg then 1 else 0 in
  let s1 := JS.drop sign s in
  match int_len s1 with
  | None => None
  | Some i =>
      match frac_len (JS.drop i s1) with
      | None => None
      | Some f =>
          match exp_len (JS.drop (i + f) s1) with
          | None => None
          | Some e =>
              let n := sign + i + f + e in
              let lexeme := JS.take n s in
              let num :=
                match f + e, digits_value 0%N (JS.take i s1) with
                | O, Some m =>
                    if (m <=? two53)%N
                    then NInt (if neg then Z.opp (Z.of_N m) else Z.of_N m)
                    else NFloat lexeme
                | _, _ => NFloat lexeme
                end in
              Some (num, n)
          end
      end
  end.

(** JSON white space: SP, TAB, LF and CR. *)
Definition is_ws (c : ascii) : bool :=
  let n := JS.code c in (n =? 32) || (n =? 9) || (n =? 10) || (n =? 13).

Definition cons_token (t : token) (r : option (list token)) : option (list token) :=
  option_map (cons t) r.

Fixpoint lex (skip : nat) (s : string) : option (list token) :=
  match s with
  | EmptyString => Some []
  | String c r =>
      match skip with
      | S k => lex k r
      | O =>
          let n := JS.code c in
          if is_ws c then lex 0 r
          else if n =? 123 then cons_token TLBrace (lex 0 r)
          else if n =? 125 then cons_token TRBrace (lex 0 r)
          else if n =? 91 then cons_token TLBracket (lex 0 r)
          else if n =? 93 then cons_token TRBracket (lex 0 r)
          else if n =? 44 then cons_token TComma (lex 0 r)
          else if n =? 58 then cons_token TColon (lex 0 r)
          else if n =? 34 then
            match scan_string SPlain None r with
            | Some (str, len) => cons_token (TString str) (lex len r)
            | None => None
            end
          else if (n =? 45) || JS.is_digit c then
            match scan_number s with
            | Some (num, len) => cons_token (TNumber num) (lex (len - 1) r)
            | None => None
            end
          else match JS.strip_prefix "true" s, JS.strip_prefix "false" s,
                     JS.strip_prefix "null" s with
               | Some _, _, _ => cons_token TTrue (lex 3 r)
               | _, Some _, _ => cons_token TFalse (lex 4 r)
               | _, _, Some _ => cons_token TNull (lex 3 r)
               | _, _, _ => None
               end
      end
  end.

(** A container under construction: an array with its elements so far
    (latest first), or an object with its properties and the name that
    awaits its value. *)
Inductive frame : Type :=
| FArr (acc : list value)
| FObj (props : list (string * value)) (key : string).

Inductive mode : Type :=
| MValue        (* a value must follow *)
| MValueOrEnd   (* just after an opening bracket *)
| MKeyOrEnd     (* just after an opening brace *)
| MKey          (* after a comma inside an object *)
| MColon        (* after a property name *)
| MAfter        (* after a value inside a container *)
| MDone (v : value).

Definition pstate : Type := (list frame * mode)%type.

(** A value is complete: it is the result, the next element of the
    enclosing array, or the value of the pending property. *)
Definition finish (v : value) (st : list frame) : pstate :=
  match st with
  | [] => ([], MDone v)
  | FArr acc :: st' => (FArr (v :: acc) :: st', MAfter)
  | FObj props k :: st' => (FObj (obj_set k v props) k :: st', MAfter)
  end.

Definition start_value (t : token) (st : list frame) : option pstate :=
  match t with
  | TString s => Some (finish (JStr s) st)
  | TNumber n => Some (finish (JNum n) st)
  | TTrue => Some (finish (JBool true) st)
  | TFalse => Some (finish (JBool false) st)
  | TNull => Some (finish JNull st)
  | TLBracket => Some (FArr [] :: st, MValueOrEnd)
  | TLBrace => Some (FObj [] EmptyString :: st, MKeyOrEnd)
  | _ => None
  end.

Definition step (p : pstate) (t : token) : option pstate :=
  let (st, m) := p in
  match m, t, st with
  | MValue, _, _ => start_value t st
  | MValueOrEnd, TRBracket, FArr acc :: st' => Some (finish (JArr (rev acc)) st')
  | MValueOrEnd, _, _ => start_value t st
  | MKeyOrEnd, TRBrace, FObj props _ :: st' => Some (finish (JObj props) st')
  | MKeyOrEnd, TString k, FObj props _ :: st' => Some (FObj props k :: st', MColon)
  | MKey, TString k, FObj props _ :: st' => Some (FObj props k :: st', MColon)
  | MColon, TColon, _ => Some (st, MValue)
  | MAfter, TComma, FArr _ :: _ => Some (st, MValue)
  | MAfter, TComma, FObj _ _ :: _ => Some (st, MKey)
  | MAfter, TRBracket, FArr acc :: st' => Some (finish (JArr (rev acc)) st')
  | MAfter, TRBrace, FObj props _ :: st' => Some (finish (JObj props) st')
  | _, _, _ => None
  end.

Fixpoint run (p : pstate) (toks : list token) : option pstate :=
  match toks with
  | [] => Some p
  | t :: r => match step p t with Some p' => run p' r | None => None end
  end.

Definition JSON_parse (text : string) : option value :=
  match lex 0 text with
  | None => None
  | Some toks =>
      match run ([], MValue) toks with
      | Some (_, MDone v) => Some v
      | _ => None
      end
  end.

End Json.

(** ** Code shared by the two viewers *)

Definition nl : ascii := ascii_of_nat 10.

(** The candidates of [const delimiters = [',', '\t', '|', ';']]. *)
Inductive delimiter : Type := Comma | Tab | Pipe | Semicolon.

Definition delimiters : list delimiter := [Comma; Tab; Pipe; Semicolon].

Definition char_of (d : delimiter) : ascii :=
  match d with
  | Comma => ascii_of_nat 44
  | Tab => ascii_of_nat 9
  | Pipe => ascii_of_nat 124
  | Semicolon => ascii_of_nat 59
  end.

Definition typeMap (d : delimiter) : string :=
  match d with
  | Comma => "CSV"
  | Tab => "TSV"
  | Pipe => "Pipe-separated"
  | Semicolon => "Semicolon-separated"
  end.

(** The number of matches of the delimiter in a line. *)
Definition count (d : delimiter) (line : string) : nat :=
  JS.count_matches (char_of d) line.

(** One turn of the [forEach] over the candidates: a strictly larger count
    replaces the best so far. *)
Definition better (line : string) (acc : delimiter * nat) (d : delimiter)
  : delimiter * nat :=
  let (bestDelimiter, maxCount) := acc in
  if maxCount <? count d line then (d, count d line)
  else (bestDelimiter, maxCount).

(** [bestDelimiter] and [maxCount] after the loop, from [','] and [0]. *)
Definition sniff (line : string) : delimiter * nat :=
  fold_left (better line) delimiters (Comma, 0).

Definition is_quote (c : ascii) : bool :=
  (JS.code c =? 34) || (JS.code c =? 39).

(** [s.replace(/^["']|["']$/g, '')], read left to right: a quote character
    is removed when it stands at the start of the text (first alternative)
    or at its end (second alternative); every other character stays. *)
Fixpoint dequote_from (at_start : bool) (s : string) : string :=
  match s with
  | EmptyString => EmptyString
  | String c r =>
      if is_quote c && (at_start || JS.is_empty r) then dequote_from false r
      else String c (dequote_from false r)
  end.

Definition dequote (s : string) : string := dequote_from true s.

(** [h => h.trim().replace(/^["']|["']$/g, '')]. *)
Definition clean (field : string) : string := dequote (JS.trim field).

Definition fields (d : delimiter) (line : string) : list string :=
  map clean (JS.split (char_of d) line).

(** [values[index] || '']. *)
Definition or_empty (v : option string) : string :=
  match v with
  | Some s => if JS.truthy_string s then s else EmptyString
  | None => EmptyString
  end.

(** [obj[header] = text] on an object made by [{}].  The name [__proto__]
    reaches the accessor that the object inherits, and its setter ignores
    a text: no property is set.  Any other name sets a property of the
    object itself. *)
Definition assign (header : string) (text : string) (obj : list (string * value))
  : list (string * value) :=
  if String.eqb header proto then obj else obj_set header (JStr text) obj.

(** [headers.forEach((header, index) => { obj[header] = values[index] || '' })]
    from position [index] on. *)
Fixpoint fill (headers : list string) (index : nat) (values : list string)
              (obj : list (string * value)) : list (string * value) :=
  match headers with
  | [] => obj
  | header :: rest =>
      fill rest (S index) values
           (assign header (or_empty (nth_error values index)) obj)
  end.

(** The callback of [lines.slice(...).map(line => ...)]. *)
Definition row_of (headers : list string) (d : delimiter) (line : string) : value :=
  let values := fields d line in
  JObj (fill headers 0 values []).

(** [text.split('\n').filter(line => line.trim())]. *)
Definition nonblank_lines (text : string) : list string :=
  filter (fun line => JS.truthy_string (JS.trim line)) (JS.split nl text).

Definition array_of (jsonData : value) : list value :=
  match jsonData with
  | JArr l => l
  | _ => [jsonData]
  end.

Record parsed : Type := { data : list value; type : string }.

(** What a call of [parseData] does: return null, return an object, or
    throw an Error with a message. *)
Inductive outcome : Type :=
| Null
| Parsed (r : parsed)
| Thrown (message : string).

(** ** [src/production_data_viewer.tsx] *)

Module Production.

Definition MAX_ROWS_DISPLAY : nat := 1000.

(** The characters up to and including the first [</script>], in any
    case. *)
Fixpoint close_len (s : string) : option nat :=
  match s with
  | EmptyString => None
  | String _ r =>
      match JS.strip_prefix_ci "</script>" s with
      | Some _ => Some 9
      | None => option_map S (close_len r)
      end
  end.

(** The length of the match, at the head of [s], of the pattern of
    [sanitizeInput]: [<script], a word boundary, a run without [<], then
    any number of groups made of a [<] that does not open [</script>] and a
    run without [<], then [</script>]; letters match in any case.  After the
    word boundary the pattern can only walk from one [<] to the next: the
    lookahead stops the groups at a closing tag and only the closing tag can
    follow them, so the match ends with the first closing tag, if there is
    one. *)
Definition script_len (s : string) : option nat :=
  match JS.strip_prefix_ci "<script" s with
  | Some (String c r) =>
      if JS.is_word c then None
      else option_map (fun n => 7 + n) (close_len (String c r))
  | _ => None
  end.

(** The global replace: at each position a match is dropped and the scan
    resumes after it. *)
Fixpoint strip_scripts (skip : nat) (s : string) : string :=
  match s with
  | EmptyString => EmptyString
  | String c r =>
      match skip with
      | S k => strip_scripts k r
      | O =>
          match script_len s with
          | Some n => strip_scripts (n - 1) r
          | None => String c (strip_scripts 0 r)
          end
      end
  end.

Definition sanitizeInput (input : string) : string := strip_scripts 0 input.

Definition unrecognized : string :=
  "Unrecognized format. Please use JSON, CSV, TSV, or other delimited data.".

Definition headers_of (d : delimiter) (line : string) : list string :=
  filter JS.truthy_string (fields d line).

Definition parseData (data : string) : outcome :=
  if negb (JS.truthy_string (JS.trim data)) then Null
  else
    let sanitizedData := sanitizeInput (JS.trim data) in
    match Json.JSON_parse sanitizedData with
    | Some jsonData =>
        Parsed {| data := firstn MAX_ROWS_DISPLAY (array_of jsonData);
                  type := "JSON" |}
    | None =>
        let lines := nonblank_lines sanitizedData in
        if 1 <? length lines then
          let (bestDelimiter, maxCount) := sniff (nth 0 lines EmptyString) in
          if 0 <? maxCount then
            let headers := headers_of bestDelimiter (nth 0 lines EmptyString) in
            if 1 <? length headers then
              let rows := map (row_of headers bestDelimiter)
                              (firstn MAX_ROWS_DISPLAY (skipn 1 lines)) in
              if 0 <? length rows
              then Parsed {| data := rows; type := typeMap bestDelimiter |}
              else Thrown unrecognized
            else Thrown unrecognized
          else Thrown unrecognized
        else Thrown unrecognized
    end.

End Production.

(** ** [src/data-table-viewer.html] *)

Module Html.

Definition unrecognized : string :=
  "Unrecognized format. Please use JSON, CSV, or other delimited data.".

Definition parseData (data : string) : outcome :=
  if negb (JS.truthy_string (JS.trim data)) then Null
  else
    match Json.JSON_parse data with
    | Some jsonData => Parsed {| data := array_of jsonData; type := "JSON" |}
    | None =>
        let lines := nonblank_lines (JS.trim data) in
        if 1 <? length lines then
          let (bestDelimiter, maxCount) := sniff (nth 0 lines EmptyString) in
          if 0 <? maxCount then
            let headers := fields bestDelimiter (nth 0 lines EmptyString) in
            let rows := map (row_of headers bestDelimiter) (skipn 1 lines) in
            if (0 <? length rows) && (1 <? length headers)
            then Parsed {| data := rows; type := typeMap bestDelimiter |}
            else Thrown unrecognized
          else Thrown unrecognized
        else Thrown unrecognized
    end.

End Html.

(** ** The table: columns and cells (both viewers) *)

(** [allKeys.add(key)] on a Set kept in insertion order. *)
Definition set_add (acc : list string) (key : string) : list string :=
  if existsb (String.eqb key) acc then acc else acc ++ [key].

(** [parsedData.forEach(item => Object.keys(item).forEach(key => allKeys.add(key)))]. *)
Fixpoint add_keys (allKeys : list string) (parsedData : list value)
  : option (list string) :=
  match parsedData with
  | [] => Some allKeys
  | item :: rest =>
      match Object_keys item with
      | Some ks => add_keys (fold_left set_add ks allKeys) rest
      | None => None
      end
  end.

(** The [columns] memo; [None] when [Object.keys] throws. *)
Definition columns (parsedData : list value) : option (list string) :=
  match parsedData with
  | [] => Some []
  | _ => add_keys [] parsedData
  end.

(** [(row[column] || '').toString()], the text of a table cell.  [None]
    when the expression gives no text that the model knows: the read or the
    call of [toString] throws, or what is read is a built-in function,
    whose text is the host's. *)
Definition cell (row : value) (column : string) : option string :=
  match get row column with
  | Undefined => Some EmptyString
  | Own v => if truthy v then toString v else Some EmptyString
  | Prototype => Some "[object Object]"
  | Inherited _ => None
  | Unknown => None
  end.

(** A row as the table shows it: one cell per column, under its name. *)
Definition record : Type := list (string * option string).

Definition render (cols : list string) (row : value) : record :=
  map (fun column => (column, cell row column)) cols.

(** What the viewer shows for a parse result: the columns and one record
    per row; [None] when computing the columns throws. *)
Definition table (r : parsed) : option (list string * list record) :=
  match columns (data r) with
  | Some cols => Some (cols, map (render cols) (data r))
  | None => None
  end.

(** ** The repair call of the production viewer

    Time is counted in milliseconds from the start of the call.  The
    service is described by what the call observes of it: when the [fetch]
    promise settles and with what, when the body read by [response.json()]
    settles and with what.  The texts of errors raised by the platform are
    part of that description. *)

Module Repair.

(** The delay of [setTimeout(() => controller.abort(), 30000)]. *)
Definition DEADLINE : N := 30000.

Definition validateApiKey (key : string) : bool :=
  JS.truthy_string key
  && (20 <? String.length (JS.trim key))
  && match JS.strip_prefix "AIza" key with Some _ => true | None => false end.

(** A promise settles after a delay, or never. *)
Inductive settle (A : Type) : Type :=
| After (delay : N) (a : A)
| Pending.
Arguments After {A} delay a.
Arguments Pending {A}.

(** What the code finds when it reads the answer out of a result. *)
Inductive answer : Type :=
| NoCandidates                    (* [result.candidates] missing, falsy or empty *)
| FirstText (text : string)       (* [result.candidates[0].content.parts[0].text] *)
| Unreadable (message : string).  (* reading that text raises this TypeError *)

(** A JSON body: the [error.message] it carries, if any, and its answer. *)
Record body : Type := { error_message : option string; candidates : answer }.

(** [response.json()] resolves with a body or rejects. *)
Inductive read : Type :=
| Resolves (b : body)
| Rejects (message : string).

Record response : Type := { ok : bool; status : nat; json : settle read }.

(** [fetch] resolves with a response once its head has arrived, or rejects
    on a network failure; the delay is the one of an undisturbed request. *)
Inductive fetched : Type :=
| Response (r : response)
| NetworkError (message : string).

Record service : Type := { fetch : settle fetched }.

(** What is thrown inside the [try] block. *)
Inductive raised : Type :=
| AbortError
| OtherError (message : string).

(** How a call of [correctDataWithGemini] ends. *)
Inductive completion : Type :=
| Returns (at_time : N) (text : string)
| Throws (at_time : N) (message : string)
| Unsettled.

Definition timed_out : string := "Request timed out. Please try again.".

(** The [catch] clause. *)
Definition rethrow (e : raised) : string :=
  match e with
  | AbortError => timed_out
  | OtherError m => ("AI correction failed: " ++ m)%string
  end.

Fixpoint drop_word (s : string) : string :=
  match s with
  | String c r => if JS.is_word c then drop_word r else s
  | EmptyString => EmptyString
  end.

(** The first replace: an opening fence at the start, the word after it
    and one line feed. *)
Definition strip_open (s : string) : string :=
  match JS.strip_prefix "```" s with
  | Some r =>
      match drop_word r with
      | String c r' => if Ascii.eqb c nl then r' else String c r'
      | EmptyString => EmptyString
      end
  | None => s
  end.

(** The second replace: a closing fence at the end, with the line feed
    before it. *)
Fixpoint strip_close (s : string) : string :=
  match s with
  | EmptyString => EmptyString
  | String c r =>
      if String.eqb s (String nl "```") || String.eqb s "```" then EmptyString
      else String c (strip_close r)
  end.

Definition clean_answer (text : string) : string :=
  JS.trim (strip_close (strip_open (JS.trim text))).

(** The statements after [clearTimeout(timeoutId)]. *)
Definition after_response (t : N) (r : response) : completion :=
  match json r with
  | Pending => Unsettled
  | After d body_read =>
      if negb (ok r) then
        let message :=
          match body_read with
          | Resolves {| error_message := Some m |} =>
              if JS.truthy_string m then m
              else ("API Error: " ++ JS.string_of_nat (status r))%string
          | _ => ("API Error: " ++ JS.string_of_nat (status r))%string
          end in
        Throws (t + d)%N (rethrow (OtherError message))
      else
        match body_read with
        | Rejects m => Throws (t + d)%N (rethrow (OtherError m))
        | Resolves b =>
            match candidates b with
            | NoCandidates =>
                Throws (t + d)%N (rethrow (OtherError "No response from Gemini API"))
            | Unreadable m => Throws (t + d)%N (rethrow (OtherError m))
            | FirstText text => Returns (t + d)%N (clean_answer text)
            end
        end
  end.

(** The timer runs while [fetch] is awaited and is cleared as soon as
    [fetch] has resolved.  A request still unsettled when the timer fires is
    aborted and [fetch] rejects with an AbortError; a request that would
    settle at the very instant of the deadline counts as unsettled. *)
Definition correctDataWithGemini (keyValid : bool) (net : service) : completion :=
  if negb keyValid then Throws 0%N "Please enter a valid Gemini API key first"
  else
    match fetch net with
    | Pending => Throws DEADLINE (rethrow AbortError)
    | After t outcome =>
        if (t <? DEADLINE)%N then
          match outcome with
          | NetworkError m => Throws t (rethrow (OtherError m))
          | Response r => after_response t r
          end
        else Throws DEADLINE (rethrow AbortError)
    end.

(** The state of the component that the repair touches. *)
Record viewer : Type := {
  inputData : string;
  parsedData : option (list value);
  error : string;
  dataType : string;
  isProcessing : bool;
  apiKey : string
}.

Definition isApiKeyValid (s : viewer) : bool := validateApiKey (apiKey s).

Definition setIsProcessing (b : bool) (s : viewer) : viewer :=
  {| inputData := inputData s; parsedData := parsedData s; error := error s;
     dataType := dataType s; isProcessing := b; apiKey := apiKey s |}.

Definition setInputData (text : string) (s : viewer) : viewer :=
  {| inputData := text; parsedData := parsedData s; error := error s;
     dataType := dataType s; isProcessing := isProcessing s;
     apiKey := apiKey s |}.

Definition setError (message : string) (s : viewer) : viewer :=
  {| inputData := inputData s; parsedData := parsedData s; error := message;
     dataType := dataType s; isProcessing := isProcessing s;
     apiKey := apiKey s |}.

Definition setParsed (r : parsed) (s : viewer) : viewer :=
  {| inputData := inputData s; parsedData := Some (data r); error := error s;
     dataType := type r; isProcessing := isProcessing s; apiKey := apiKey s |}.

(** The handler has finished at some time, or it waits for ever. *)
Inductive run : Type :=
| Finished (at_time : N) (s : viewer)
| Waiting (s : viewer).

Definition handleAICorrection (net : service) (s : viewer) : run :=
  if negb (JS.truthy_string (JS.trim (inputData s))) then Finished 0%N s
  else
    let busy := setIsProcessing true s in
    match correctDataWithGemini (isApiKeyValid s) net with
    | Unsettled => Waiting busy
    | Throws t message => Finished t (setIsProcessing false (setError message busy))
    | Returns t corrected =>
        let s1 := setInputData corrected busy in
        match Production.parseData corrected with
        | Parsed r =>
            Finished t (setIsProcessing false (setError EmptyString (setParsed r s1)))
        | Null => Finished t (setIsProcessing false s1)
        | Thrown message => Finished t (setIsProcessing false (setError message s1))
        end
    end.

(** The error panel offers the repair button. *)
Definition repair_offered (s : viewer) : bool :=
  JS.truthy_string (error s) && JS.truthy_string (JS.trim (inputData s)).

(** [disabled={isProcessing || !isApiKeyValid}]. *)
Definition repair_disabled (s : viewer) : bool :=
  isProcessing s || negb (isApiKeyValid s).

End Repair.

(** * Vocabulary of the properties and example inputs *)

Definition dq : string := String (ascii_of_nat 34) EmptyString.
Definition lf : string := String nl EmptyString.

(** The text [[{"a":1},{"b":2}]]. *)
Definition two_objects : string :=
  ("[{" ++ dq ++ "a" ++ dq ++ ":1},{" ++ dq ++ "b" ++ dq ++ ":2}]")%string.

(** What the production [parseData] sees once the blank test is passed. *)
Definition sanitized (data : string) : string :=
  Production.sanitizeInput (JS.trim data).

(** The place of a candidate in [delimiters]. *)
Fixpoint position (d : delimiter) (l : list delimiter) : nat :=
  match l with
  | [] => 0
  | d' :: r =>
      match d, d' with
      | Comma, Comma | Tab, Tab | Pipe, Pipe | Semicolon, Semicolon => 0
      | _, _ => S (position d r)
      end
  end.

Definition rank (d : delimiter) : nat := position d delimiters.

(** [best] with [maxCount] is the highest count, the earliest candidate
    that reaches it. *)
Definition highest_earliest (line : string) (best : delimiter) (maxCount : nat) : Prop :=
  maxCount = count best line /\
  (forall d, count d line <= maxCount) /\
  (forall d, rank d < rank best -> count d line < maxCount).

(** Names for the local variables of the production [parseData] on a
    text: [lines], [lines[0]], [bestDelimiter], [maxCount], [headers]. *)
Definition plines (text : string) : list string := nonblank_lines (sanitized text).
Definition pline (text : string) : string := nth 0 (plines text) EmptyString.
Definition pbest (text : string) : delimiter := fst (sniff (pline text)).
Definition pcount (text : string) : nat := snd (sniff (pline text)).
Definition pheaders (text : string) : list string :=
  Production.headers_of (pbest text) (pline text).

(** The same for the standalone page. *)
Definition hlines (text : string) : list string := nonblank_lines (JS.trim text).
Definition hline (text : string) : string := nth 0 (hlines text) EmptyString.
Definition hbest (text : string) : delimiter := fst (sniff (hline text)).
Definition hcount (text : string) : nat := snd (sniff (hline text)).
Definition hheaders (text : string) : list string :=
  fields (hbest text) (hline text).

(** The position of the last header equal to [k]. *)
Fixpoint last_index (k : string) (headers : list string) : option nat :=
  match headers with
  | [] => None
  | h :: r =>
      match last_index k r with
      | Some j => Some (S j)
      | None => if String.eqb h k then Some 0 else None
      end
  end.

(** The headers that set a property: all but [__proto__]. *)
Definition own_names (headers : list string) : list string :=
  filter (fun h => negb (String.eqb h proto)) headers.

Definition short_line_text : string := ("a,b,c" ++ lf ++ "1" ++ lf ++ "1,2,3,4")%string.

(** C8 as the specification words it: in the record of a line, a header
    at or past the number of fields of the line holds the empty string. *)
Definition short_lines_are_padded : Prop :=
  forall headers d line i h,
    nth_error headers i = Some h ->
    length (fields d line) <= i ->
    get (row_of headers d line) h = Own (JStr EmptyString).

(** A header line whose second name is [__proto__], and a line of one
    field. *)
Definition proto_header_text : string := ("a,__proto__" ++ lf ++ "1")%string.

(** A JSON array on two lines followed by an empty script element. *)
Definition script_after_json : string := ("[1" ++ lf ++ "]<script></script>")%string.

(** C4 as the specification words it, for the production viewer: a text
    that is not valid JSON, with two non-blank lines or more and no
    candidate in the first of them, is rejected as unrecognized. *)
Definition no_delimiter_always_unrecognized : Prop :=
  forall text,
    Json.JSON_parse (JS.trim text) = None ->
    2 <= length (nonblank_lines (JS.trim text)) ->
    snd (sniff (nth 0 (nonblank_lines (JS.trim text)) EmptyString)) = 0 ->
    Production.parseData text = Thrown Production.unrecognized.

(** The text [[{"a":1},{"constructor":2}]] and its rows. *)
Definition inherited_text : string :=
  ("[{" ++ dq ++ "a" ++ dq ++ ":1},{" ++ dq ++ "constructor" ++ dq ++ ":2}]")%string.

Definition inherited_result : parsed :=
  {| data := [JObj [("a", JNum (NInt 1))]; JObj [("constructor", JNum (NInt 2))]];
     type := "JSON" |}.

(** A text of JSON white space only. *)
Fixpoint json_space (s : string) : bool :=
  match s with
  | EmptyString => true
  | String c r => Json.is_ws c && json_space r
  end.

(** A text of white space only, as [trim] sees it. *)
Fixpoint all_space (s : string) : bool :=
  match s with
  | EmptyString => true
  | String c r => JS.is_space c && all_space r
  end.

(** The characters that a number token is made of. *)
Definition number_char (c : ascii) : bool :=
  JS.is_digit c || Ascii.eqb c "." || Ascii.eqb c "e" || Ascii.eqb c "E"
  || Ascii.eqb c "+" || Ascii.eqb c "-".

(** What [trim] removes from the text is JSON white space: the text is its
    trimming between two runs of spaces, tabs, line feeds and carriage
    returns. *)
Definition trims_json_space (text : string) : Prop :=
  exists before after,
    text = (before ++ JS.trim text ++ after)%string /\
    json_space before = true /\ json_space after = true.

(** Two semicolons against one comma and one pipe. *)
Definition semicolon_text : string := ("a;b,c;d|e" ++ lf ++ "1;2,3;4")%string.

(** C3 as the specification words it, for the production viewer: any text
    of one non-blank line, or whose header line gives fewer than 2 header
    names, is rejected as unrecognized. *)
Definition degenerate_always_unrecognized : Prop :=
  forall text,
    length (plines text) = 1 \/ length (pheaders text) < 2 ->
    Production.parseData text = Thrown Production.unrecognized.

(** The text [[1]] after a vertical tab. *)
Definition tabbed_json : string := String (ascii_of_nat 11) "[1]".

Definition one_line_text : string := "not valid anything".
Definition one_header_text : string := ("a," ++ lf ++ "b,c")%string.

(** Without a leading quote character, if there is one. *)
Definition strip_first (s : string) : string :=
  match s with
  | String c r => if is_quote c then r else s
  | EmptyString => EmptyString
  end.

(** Without a trailing quote character, if there is one. *)
Fixpoint strip_last (s : string) : string :=
  match s with
  | EmptyString => EmptyString
  | String c r =>
      if JS.is_empty r then (if is_quote c then EmptyString else s)
      else String c (strip_last r)
  end.

(** The header names in closed form: split, trim, drop a quote character
    at each end. *)
Definition names (d : delimiter) (line : string) : list string :=
  map (fun field => strip_last (strip_first (JS.trim field)))
      (JS.split (char_of d) line).

Fixpoint last_char (s : string) : option ascii :=
  match s with
  | EmptyString => None
  | String c r => match last_char r with Some d => Some d | None => Some c end
  end.

Fixpoint but_last (s : string) : string :=
  match s with
  | EmptyString => EmptyString
  | String c r => if JS.is_empty r then EmptyString else String c (but_last r)
  end.

(** The de-quoting as the specification words it: a layer of quotes is
    removed only when the same quote character stands at both ends. *)
Definition strip_matching_quotes (s : string) : string :=
  match s with
  | String c r =>
      match last_char r with
      | Some d => if is_quote c && Ascii.eqb c d then but_last r else s
      | None => s
      end
  | EmptyString => EmptyString
  end.

Definition spec_names (d : delimiter) (line : string) : list string :=
  filter JS.truthy_string
         (map (fun field => strip_matching_quotes (JS.trim field))
              (JS.split (char_of d) line)).

(** C5 as the specification words it: the header names of the production
    viewer are the non-empty fields with matching surrounding quotes
    removed. *)
Definition headers_strip_matching_quotes : Prop :=
  forall d line, Production.headers_of d line = spec_names d line.

(** A header line whose first field opens a quote that is never closed,
    and a data line. *)
Definition open_quote_text : string := (dq ++ "a,b" ++ lf ++ "1,2")%string.

(** Quoted names, an unmatched quote, and an empty name. *)
Definition quoted_header_text : string :=
  ("'name', " ++ dq ++ "age,,city'" ++ lf ++ "John,30,x,Oslo")%string.

(** The same without the empty name. *)
Definition quoted_names_text : string :=
  ("'name', " ++ dq ++ "age,city'" ++ lf ++ "John,30,Oslo")%string.

Fixpoint repeat_string (s : string) (n : nat) : string :=
  match n with
  | O => EmptyString
  | S k => (s ++ repeat_string s k)%string
  end.

(** A JSON array of 1001 numbers, and a header line with 1001 data lines. *)
Definition long_json : string := ("[" ++ repeat_string "7," 1000 ++ "8]")%string.

Definition two_objects_result : parsed :=
  {| data := [JObj [("a", JNum (NInt 1))]; JObj [("b", JNum (NInt 2))]];
     type := "JSON" |}.

Definition empty_array_result : parsed := {| data := []; type := "JSON" |}.

(** The same detected format and the same rows, or a failure on both
    sides (the two messages differ by a word), or nothing on both sides. *)
Definition same_outcome (a b : outcome) : Prop :=
  match a, b with
  | Null, Null => True
  | Parsed x, Parsed y => type x = type y /\ data x = data y
  | Thrown _, Thrown _ => True
  | _, _ => False
  end.

(** C10 as it is worded. *)
Definition viewers_agree : Prop :=
  forall text, same_outcome (Production.parseData text) (Html.parseData text).

(** The delimited example of the specification. *)
Definition names_ages : string :=
  ("name,age" ++ lf ++ "John,30" ++ lf ++ "Jane,25")%string.

(** The same text after a vertical tab, which [trim] removes and which is
    no JSON white space. *)
Definition tabbed_csv : string := String (ascii_of_nat 11) names_ages.

(** The head of the response arrives after one second and the body never
    completes. *)
Definition stalled_body : Repair.service :=
  {| Repair.fetch :=
       Repair.After 1000
         (Repair.Response {| Repair.ok := true; Repair.status := 200;
                             Repair.json := Repair.Pending |}) |}.

(** The head arrives after one second and the body a minute later. *)
Definition slow_body : Repair.service :=
  {| Repair.fetch :=
       Repair.After 1000
         (Repair.Response
            {| Repair.ok := true; Repair.status := 200;
               Repair.json :=
                 Repair.After 60000
                   (Repair.Resolves
                      {| Repair.error_message := None;
                         Repair.candidates := Repair.FirstText "a,b" |}) |}) |}.

(** The viewer after a failed parse of a one-line text. *)
Definition failed_parse : Repair.viewer :=
  {| Repair.inputData := one_line_text; Repair.parsedData := None;
     Repair.error := Production.unrecognized; Repair.dataType := EmptyString;
     Repair.isProcessing := false;
     Repair.apiKey := "AIza-example-key-0000000000" |}.

(** * More of the viewers *)

(** ** The table component of the production viewer *)

Module DataTable.

(** ['asc'] and ['desc']. *)
Inductive direction : Type := Asc | Desc.

(** The values of the rows-per-page menu. *)
Inductive page_size : Type := Rows25 | Rows50 | Rows100 | Rows500.

Definition size_of (r : page_size) : nat :=
  match r with Rows25 => 25 | Rows50 => 50 | Rows100 => 100 | Rows500 => 500 end.

Record state : Type := {
  currentPage : nat;
  rowsPerPage : page_size;
  sortColumn : string;
  sortDirection : direction
}.

(** [useState(1)], [useState(50)], [useState('')], [useState('asc')]. *)
Definition initial : state :=
  {| currentPage := 1; rowsPerPage := Rows50; sortColumn := EmptyString;
     sortDirection := Asc |}.

Fixpoint toLowerCase (s : string) : string :=
  match s with
  | EmptyString => EmptyString
  | String c r => String (JS.to_lower c) (toLowerCase r)
  end.

(** [(a[sortColumn] || '').toString().toLowerCase()]. *)
Definition sort_key (column : string) (row : value) : option string :=
  option_map toLowerCase (cell row column).

(** The comparator given to [sort]: its sign. *)
Definition comparator (dir : direction) (aVal bVal : string) : Z :=
  if String.ltb aVal bVal then (match dir with Asc => -1 | Desc => 1 end)%Z
  else if String.ltb bVal aVal then (match dir with Asc => 1 | Desc => -1 end)%Z
  else 0%Z.

(** [sort] is stable and the comparator is consistent, so the result is the
    one of any stable sort; here by insertion, from the right, an element
    going before the first one it does not have to follow. *)
Fixpoint insert (dir : direction) (x : string * value) (l : list (string * value))
  : list (string * value) :=
  match l with
  | [] => [x]
  | y :: r =>
      if (comparator dir (fst x) (fst y) <=? 0)%Z then x :: l
      else y :: insert dir x r
  end.

Definition sort (dir : direction) (l : list (string * value)) : list (string * value) :=
  fold_right (insert dir) [] l.

(** Each row with its key; [None] when a cell under the column has no text
    (see [cell]). *)
Fixpoint keyed (column : string) (data : list value) : option (list (string * value)) :=
  match data with
  | [] => Some []
  | row :: rest =>
      match sort_key column row, keyed column rest with
      | Some k, Some l => Some ((k, row) :: l)
      | _, _ => None
      end
  end.

(** The [sortedData] memo. *)
Definition sortedData (s : state) (data : list value) : option (list value) :=
  if JS.is_empty (sortColumn s) then Some data
  else option_map (fun l => map snd (sort (sortDirection s) l))
                  (keyed (sortColumn s) data).

(** The [paginatedData] memo: [slice(startIndex, startIndex + rowsPerPage)]
    with [startIndex = (currentPage - 1) * rowsPerPage]; on a page 0 the
    slice would run from a negative index to 0 and be empty. *)
Definition paginatedData (s : state) (sorted : list value) : list value :=
  match currentPage s with
  | O => []
  | S p => firstn (size_of (rowsPerPage s)) (skipn (p * size_of (rowsPerPage s)) sorted)
  end.

(** [Math.ceil(sortedData.length / rowsPerPage)]. *)
Definition totalPages (s : state) (sorted : list value) : nat :=
  (length sorted + size_of (rowsPerPage s) - 1) / size_of (rowsPerPage s).

Definition handleSort (column : string) (s : state) : state :=
  if String.eqb (sortColumn s) column then
    {| currentPage := 1; rowsPerPage := rowsPerPage s; sortColumn := sortColumn s;
       sortDirection := match sortDirection s with Asc => Desc | Desc => Asc end |}
  else
    {| currentPage := 1; rowsPerPage := rowsPerPage s; sortColumn := column;
       sortDirection := Asc |}.

(** The change handler of the rows-per-page menu. *)
Definition changeRows (r : page_size) (s : state) : state :=
  {| currentPage := 1; rowsPerPage := r; sortColumn := sortColumn s;
     sortDirection := sortDirection s |}.

Definition setCurrentPage (p : nat) (s : state) : state :=
  {| currentPage := p; rowsPerPage := rowsPerPage s; sortColumn := sortColumn s;
     sortDirection := sortDirection s |}.

(** The Previous and Next buttons. *)
Definition previous (s : state) : state :=
  setCurrentPage (Nat.max 1 (currentPage s - 1)) s.

Definition next (sorted : list value) (s : state) : state :=
  setCurrentPage (Nat.min (totalPages s sorted) (currentPage s + 1)) s.

(** The page controls are rendered when there is more than one page. *)
Definition controls_shown (s : state) (sorted : list value) : bool :=
  1 <? totalPages s sorted.

(** The notice of truncation under the title. *)
Definition notice_shown (sorted : list value) : bool :=
  Production.MAX_ROWS_DISPLAY <? length sorted.

End DataTable.

(** ** Export *)

Module Csv.

(** The replace of [exportCSV]: every quotation mark is written twice. *)
Fixpoint double_quotes (s : string) : string :=
  match s with
  | EmptyString => EmptyString
  | String c r =>
      if JS.code c =? 34 then String c (String c (double_quotes r))
      else String c (double_quotes r)
  end.

Definition quote : string := String (ascii_of_nat 34) EmptyString.

(** The text of one field, between quotation marks. *)
Definition csv_field (v : string) : string :=
  (quote ++ double_quotes v ++ quote)%string.

(** [l.join(sep)]. *)
Fixpoint join (sep : string) (l : list string) : string :=
  match l with
  | [] => EmptyString
  | [x] => x
  | x :: r => (x ++ sep ++ join sep r)%string
  end.

Fixpoint all_some {A : Type} (l : list (option A)) : option (list A) :=
  match l with
  | [] => Some []
  | Some a :: r => option_map (cons a) (all_some r)
  | None :: _ => None
  end.

(** The cell texts of a row over the columns. *)
Definition cells (cols : list string) (row : value) : option (list string) :=
  all_some (map (cell row) cols).

Definition csv_line (cols : list string) (row : value) : option string :=
  option_map (fun vs => join "," (map csv_field vs)) (cells cols row).

(** What [exportCSV] hands to the download. *)
Inductive download : Type :=
| Nothing                  (* no row: the function returns at once *)
| File (csv : string)
| Uninterpreted.           (* a cell has no text (see [cell]) *)

Definition exportCSV (cols : list string) (parsedData : list value) : download :=
  match parsedData with
  | [] => Nothing
  | _ =>
      match all_some (map (csv_line cols) parsedData) with
      | Some lines => File (join (String nl EmptyString) (join "," cols :: lines))
      | None => Uninterpreted
      end
  end.

End Csv.

(** ** Editing, loading and repairing in the production viewer *)

Module Page.

(** The kinds of toast that the viewer shows. *)
Inductive toast_type : Type := success | failure | info.

(** [{ message, type }] of [showToast]; the [id] taken from the clock is
    left out, and so is the closing of the toast after five seconds. *)
Record toast_message : Type := { message : string; kind : toast_type }.

(** The state of [Repair.viewer] with the file name shown beside the
    title and the toast. *)
Record page : Type := {
  view : Repair.viewer;
  fileName : string;
  toast : option toast_message
}.

Definition MAX_FILE_SIZE : N := 10 * 1024 * 1024.

Definition showToast (text : string) (k : toast_type) (p : page) : page :=
  {| view := view p; fileName := fileName p;
     toast := Some {| message := text; kind := k |} |}.

Definition setView (s : Repair.viewer) (p : page) : page :=
  {| view := s; fileName := fileName p; toast := toast p |}.

Definition setFileName (name : string) (p : page) : page :=
  {| view := view p; fileName := name; toast := toast p |}.

Definition clearParsed (s : Repair.viewer) : Repair.viewer :=
  {| Repair.inputData := Repair.inputData s; Repair.parsedData := None;
     Repair.error := Repair.error s; Repair.dataType := EmptyString;
     Repair.isProcessing := Repair.isProcessing s;
     Repair.apiKey := Repair.apiKey s |}.

(** [handleDataChange] on the viewer fields. *)
Definition edit (value : string) (s : Repair.viewer) : Repair.viewer :=
  let s1 := Repair.setError EmptyString (Repair.setInputData value s) in
  if negb (JS.truthy_string (JS.trim value)) then clearParsed s1
  else
    match Production.parseData value with
    | Parsed r => Repair.setParsed r s1
    | Null => s1
    | Thrown message => clearParsed (Repair.setError message s1)
    end.

Definition parsed_message (r : parsed) : string :=
  ("Successfully parsed " ++ JS.string_of_nat (length (data r)) ++ " rows as "
     ++ type r)%string.

(** [handleDataChange]: the file name is cleared, and a text that parses
    is announced by a toast. *)
Definition handleDataChange (value : string) (p : page) : page :=
  let p1 := setFileName EmptyString (setView (edit value (view p)) p) in
  if negb (JS.truthy_string (JS.trim value)) then p1
  else
    match Production.parseData value with
    | Parsed r => showToast (parsed_message r) success p1
    | _ => p1
    end.

Definition loaded_message (filename : string) : string :=
  ("File " ++ dq ++ filename ++ dq ++ " loaded successfully")%string.

Definition handleFileLoad (content filename : string) (p : page) : page :=
  showToast (loaded_message filename) success
            (handleDataChange content (setFileName filename p)).

(** A file as the upload sees it: its size in bytes, its name and the text
    the reader gives. *)
Record file : Type := { size : N; name : string; content : string }.

(** [handleFileUpload] on a chosen file: a file above the limit is refused
    with an alert, any other is read and loaded. *)
Definition handleFileUpload (f : file) (p : page) : page :=
  if (MAX_FILE_SIZE <? size f)%N then p
  else handleFileLoad (content f) (name f) p.

(** The click on the repair button, on a text that is not blank: the flag
    is set and the call starts. *)
Definition busy (p : page) : page :=
  setView (Repair.setIsProcessing true (view p)) p.

(** What [handleAICorrection] does once the call has settled.  The setters
    act on the state of that moment, [now], which is the state left by the
    click unless the text was edited while the call was under way. *)
Definition resume (c : Repair.completion) (now : page) : option page :=
  match c with
  | Repair.Unsettled => None
  | Repair.Throws _ text =>
      Some (showToast text failure
              (setView (Repair.setIsProcessing false
                          (Repair.setError text (view now))) now))
  | Repair.Returns _ corrected =>
      let s1 := Repair.setInputData corrected (view now) in
      match Production.parseData corrected with
      | Parsed r =>
          Some (showToast "AI successfully corrected your data!" success
                  (setView (Repair.setIsProcessing false
                              (Repair.setError EmptyString (Repair.setParsed r s1)))
                           now))
      | Null => Some (setView (Repair.setIsProcessing false s1) now)
      | Thrown text =>
          Some (showToast text failure
                  (setView (Repair.setIsProcessing false (Repair.setError text s1))
                           now))
      end
  end.

(** The call that a click starts, with the key of that moment. *)
Definition call (net : Repair.service) (p : page) : Repair.completion :=
  Repair.correctDataWithGemini (Repair.isApiKeyValid (view p)) net.

(** [handleAICorrection] run to its end while the page is left alone;
    [None] when the call never settles. *)
Definition repair (net : Repair.service) (p : page) : option page :=
  if negb (JS.truthy_string (JS.trim (Repair.inputData (view p)))) then Some p
  else resume (call net p) (busy p).

End Page.

(** ** The repair call of the standalone page *)

Module HtmlRepair.

(** The call of the page: the key only has to be non-blank, no timer is
    set, and the [catch] clause wraps every error alike. *)
Definition correctDataWithGemini (apiKey : string) (net : Repair.service)
  : Repair.completion :=
  if negb (JS.truthy_string (JS.trim apiKey))
  then Repair.Throws 0%N "Please enter your Gemini API key first"
  else
    match Repair.fetch net with
    | Repair.Pending => Repair.Unsettled
    | Repair.After t outcome =>
        match outcome with
        | Repair.NetworkError m =>
            Repair.Throws t ("AI correction failed: " ++ m)%string
        | Repair.Response r => Repair.after_response t r
        end
    end.

End HtmlRepair.

(** ** Vocabulary of the further properties *)

(** The order that a direction asks of two sort keys. *)
Definition in_order (dir : DataTable.direction) (a b : string) : Prop :=
  match dir with
  | DataTable.Asc => String.leb a b = true
  | DataTable.Desc => String.leb b a = true
  end.

(** Two rows whose keys under a column are in order. *)
Definition rows_in_order (column : string) (dir : DataTable.direction)
           (a b : value) : Prop :=
  exists ka kb, DataTable.sort_key column a = Some ka /\
                DataTable.sort_key column b = Some kb /\
                in_order dir ka kb.

(** The state with another current page. *)
Definition at_page (p : nat) (s : DataTable.state) : DataTable.state :=
  DataTable.setCurrentPage p s.

(** The current page is one of the pages, or page 1 when there is none. *)
Definition page_in_range (s : DataTable.state) (sorted : list value) : Prop :=
  1 <= DataTable.currentPage s /\
  DataTable.currentPage s <= Nat.max 1 (DataTable.totalPages s sorted).

Definition by_name : DataTable.state :=
  {| DataTable.currentPage := 1; DataTable.rowsPerPage := DataTable.Rows50;
     DataTable.sortColumn := "b"; DataTable.sortDirection := DataTable.Desc |}.

(** The sort can run: no column is chosen, or every cell under the chosen
    column has a text to compare. *)
Definition sortable (s : DataTable.state) (data : list value) : Prop :=
  DataTable.sortColumn s = EmptyString \/
  forall row, In row data -> cell row (DataTable.sortColumn s) <> None.

(** Three prices, and the state that sorts them upwards. *)
Definition prices : list value :=
  [JObj [("p", JNum (NFloat "1.5"))]; JObj [("p", JNum (NFloat "0.50"))];
   JObj [("p", JNum (NFloat "1e1"))]].

Definition by_price : DataTable.state :=
  {| DataTable.currentPage := 1; DataTable.rowsPerPage := DataTable.Rows50;
     DataTable.sortColumn := "p"; DataTable.sortDirection := DataTable.Asc |}.

(** The third page of fifty rows. *)
Definition third_page : DataTable.state :=
  {| DataTable.currentPage := 3; DataTable.rowsPerPage := DataTable.Rows50;
     DataTable.sortColumn := EmptyString; DataTable.sortDirection := DataTable.Asc |}.

(** The less-than sign, and a text without any. *)
Definition lt_sign : ascii := ascii_of_nat 60.

Definition no_lt (s : string) : Prop := JS.count_matches lt_sign s = 0.

(** The fence character, a text of word characters, and a fence line. *)
Definition backtick : ascii := ascii_of_nat 96.

Fixpoint all_word (s : string) : bool :=
  match s with
  | EmptyString => true
  | String c r => JS.is_word c && all_word r
  end.

Definition fence : string := "```".

Definition scripted_text : string :=
  ("a,b<script src='x'>alert(1)</script>" ++ lf ++ "1,2")%string.



(** The state before anything is typed. *)
Definition blank_page : Page.page :=
  {| Page.view :=
       {| Repair.inputData := EmptyString; Repair.parsedData := None;
          Repair.error := EmptyString; Repair.dataType := EmptyString;
          Repair.isProcessing := false; Repair.apiKey := EmptyString |};
     Page.fileName := EmptyString;
     Page.toast := None |}.


(** A service that never answers, and one that answers with a fenced
    table after two seconds in all. *)
Definition silent : Repair.service := {| Repair.fetch := Repair.Pending |}.

Definition helpful : Repair.service :=
  {| Repair.fetch :=
       Repair.After 1500
         (Repair.Response
            {| Repair.ok := true; Repair.status := 200;
               Repair.json :=
                 Repair.After 500
                   (Repair.Resolves
                      {| Repair.error_message := None;
                         Repair.candidates :=
                           Repair.FirstText
                             (fence ++ "csv" ++ String nl
                                ("name,age" ++ lf ++ "John,30" ++ String nl fence)) |}) |}) |}.

Definition small_file : Page.file :=
  {| Page.size := 23; Page.name := "people.csv"; Page.content := names_ages |}.

(** A text in which a character does not occur. *)
Definition lacks (c : ascii) (s : string) : Prop := JS.count_matches c s = 0.

Definition dquote : ascii := ascii_of_nat 34.
Definition squote : ascii := ascii_of_nat 39.

(** A column name that survives export and reading back: not empty, not
    [__proto__], its own trimming, and without delimiter, line feed, quote
    or less-than characters. *)
Definition plain_name (s : string) : Prop :=
  s <> EmptyString /\ s <> proto /\ JS.trim s = s /\
  lacks (char_of Comma) s /\ lacks (char_of Tab) s /\ lacks (char_of Pipe) s /\
  lacks (char_of Semicolon) s /\ lacks nl s /\ lacks dquote s /\ lacks squote s /\
  lacks lt_sign s.

(** A cell text that survives: without comma, line feed, quotation mark or
    less-than sign. *)
Definition plain_cell (s : string) : Prop :=
  lacks (char_of Comma) s /\ lacks nl s /\ lacks dquote s /\ lacks lt_sign s.

(** Rows whose cells under the columns are all plain. *)
Definition plain_rows (cols : list string) (data : list value) : Prop :=
  Forall (fun row => exists vs, Csv.cells cols row = Some vs /\ Forall plain_cell vs) data.

(** A text that ends with a given character. *)
Definition ends_with (q : ascii) (s : string) : Prop :=
  exists a, s = (a ++ String q EmptyString)%string.

(** A text that begins with a character that is not white space. *)
Definition begins_solid (s : string) : Prop :=
  exists c r, s = String c r /\ JS.is_space c = false.

(** A token list whose last token is a string. *)
Definition ends_in_string (toks : list Json.token) : Prop :=
  exists pre s, toks = pre ++ [Json.TString s].

(** A state of the recogniser after at least one token: inside a container,
    or done. *)
Definition started (p : Json.pstate) : Prop :=
  fst p <> [] \/ exists v, p = ([], Json.MDone v).

(** The line that the export writes for the cell texts of a row. *)
Definition exported_line (vs : list string) : string :=
  Csv.join "," (map Csv.csv_field vs).

(** A small table with a decimal number and a missing cell. *)
Definition people_columns : list string := ["name"; "age"].

Definition people : list value :=
  [JObj [("name", JStr "John"); ("age", JNum (NFloat "30.5"))];
   JObj [("name", JStr "Jane")]].

(** The message thrown before any request when the key is not valid. *)
Definition key_missing : string := "Please enter a valid Gemini API key first".

(** The row's sort key under a column is a given text. *)
Definition same_key (column k : string) (row : value) : bool :=
  match DataTable.sort_key column row with
  | Some k' => String.eqb k' k
  | None => false
  end.

(** * Properties *)

(** Settle a test [a <? b] of the goal from the arithmetic at hand. *)
Ltac ltb_holds a b :=
  let E := fresh "E" in
  assert ((a <? b) = true) as E by (apply Nat.ltb_lt; lia); rewrite E; clear E.

Ltac ltb_fails a b :=
  let E := fresh "E" in
  assert ((a <? b) = false) as E by (apply Nat.ltb_ge; lia); rewrite E; clear E.

(** ** The text that reaches the detector *)

Lemma parse_empty : Json.JSON_parse EmptyString = None.
Proof. reflexivity. Qed.

Lemma sanitize_empty : Production.sanitizeInput EmptyString = EmptyString.
Proof. reflexivity. Qed.

Lemma is_empty_true (s : string) : JS.is_empty s = true -> s = EmptyString.
Proof. destruct s; simpl; congruence. Qed.

Lemma nonblank_lines_empty : nonblank_lines EmptyString = [].
Proof. reflexivity. Qed.

Lemma production_blank (data : string) :
  JS.truthy_string (JS.trim data) = false ->
  sanitized data = EmptyString.
Proof.
  unfold JS.truthy_string, sanitized. intros H.
  apply negb_false_iff, is_empty_true in H. rewrite H. reflexivity.
Qed.

Lemma production_json (data : string) (jsonData : value) :
  Json.JSON_parse (sanitized data) = Some jsonData ->
  Production.parseData data =
    Parsed {| data := firstn Production.MAX_ROWS_DISPLAY (array_of jsonData);
              type := "JSON" |}.
Proof.
  intros H. unfold Production.parseData.
  destruct (JS.truthy_string (JS.trim data)) eqn:E; simpl.
  - fold (sanitized data). rewrite H. reflexivity.
  - rewrite (production_blank data E), parse_empty in H. discriminate.
Qed.

Lemma production_lines_nonblank (data : string) :
  nonblank_lines (sanitized data) <> [] ->
  JS.truthy_string (JS.trim data) = true.
Proof.
  intros H. destruct (JS.truthy_string (JS.trim data)) eqn:E; [reflexivity|].
  rewrite (production_blank data E) in H. exfalso. apply H. reflexivity.
Qed.

Lemma html_lines_nonblank (data : string) :
  nonblank_lines (JS.trim data) <> [] ->
  JS.truthy_string (JS.trim data) = true.
Proof.
  intros H. destruct (JS.truthy_string (JS.trim data)) eqn:E; [reflexivity|].
  unfold JS.truthy_string in E. apply negb_false_iff, is_empty_true in E.
  rewrite E in H. exfalso. apply H. reflexivity.
Qed.

(** ** Delimiter sniffing *)

Lemma sniff_highest_earliest (line : string) :
  highest_earliest line (fst (sniff line)) (snd (sniff line)).
Proof.
  unfold highest_earliest, sniff, delimiters. simpl fold_left. unfold better.
  repeat match goal with
         | |- context [?a <? ?b] => destruct (Nat.ltb_spec a b)
         end; simpl fst; simpl snd;
    (split; [ lia | split; intros d; destruct d; unfold rank; simpl; lia ]).
Qed.

(** ** The delimited path of the two [parseData] *)

Lemma rows_nonempty (f : string -> value) (cap : nat) (lines : list string) :
  0 < cap -> 2 <= length lines ->
  (0 <? length (map f (firstn cap (skipn 1 lines)))) = true.
Proof.
  intros Hc Hl. apply Nat.ltb_lt.
  rewrite length_map, length_firstn, length_skipn. lia.
Qed.

Lemma production_delimited (text : string) :
  Json.JSON_parse (sanitized text) = None ->
  JS.truthy_string (JS.trim text) = true ->
  Production.parseData text =
    if (1 <? length (plines text)) && (0 <? pcount text)
       && (1 <? length (pheaders text))
    then Parsed {| data := map (row_of (pheaders text) (pbest text))
                               (firstn Production.MAX_ROWS_DISPLAY
                                       (skipn 1 (plines text)));
                   type := typeMap (pbest text) |}
    else Thrown Production.unrecognized.
Proof.
  intros Hj Hb. unfold Production.parseData. rewrite Hb. simpl negb. cbv iota.
  fold (sanitized text). rewrite Hj.
  unfold pheaders, pbest, pcount, pline. fold (plines text).
  destruct (1 <? length (plines text)) eqn:E1; [|reflexivity].
  destruct (sniff (nth 0 (plines text) EmptyString)) as [b n].
  simpl fst. simpl snd.
  destruct (0 <? n) eqn:E2; [|reflexivity].
  destruct (1 <? length (Production.headers_of b (nth 0 (plines text) EmptyString))) eqn:E3;
    [|reflexivity].
  simpl andb. cbv iota.
  rewrite rows_nonempty; [reflexivity | unfold Production.MAX_ROWS_DISPLAY; lia |].
  apply Nat.ltb_lt in E1. lia.
Qed.

Lemma skipn_nonempty (lines : list string) :
  2 <= length lines -> (0 <? length (skipn 1 lines)) = true.
Proof. intros H. apply Nat.ltb_lt. rewrite length_skipn. lia. Qed.

Lemma html_delimited (text : string) :
  Json.JSON_parse text = None ->
  JS.truthy_string (JS.trim text) = true ->
  Html.parseData text =
    if (1 <? length (hlines text)) && (0 <? hcount text)
       && (1 <? length (hheaders text))
    then Parsed {| data := map (row_of (hheaders text) (hbest text))
                               (skipn 1 (hlines text));
                   type := typeMap (hbest text) |}
    else Thrown Html.unrecognized.
Proof.
  intros Hj Hb. unfold Html.parseData. rewrite Hb. simpl negb. cbv iota.
  rewrite Hj.
  unfold hheaders, hbest, hcount, hline. fold (hlines text).
  destruct (1 <? length (hlines text)) eqn:E1; [|reflexivity].
  destruct (sniff (nth 0 (hlines text) EmptyString)) as [b n].
  simpl fst. simpl snd.
  destruct (0 <? n) eqn:E2; [|reflexivity].
  simpl andb. rewrite (length_map (row_of _ _)).
  pose proof (skipn_nonempty (hlines text)) as Hs. simpl skipn in Hs.
  rewrite Hs by (apply Nat.ltb_lt in E1; lia).
  reflexivity.
Qed.


Lemma two_lines_nonblank (lines : list string) : 2 <= length lines -> lines <> [].
Proof. intros H E. rewrite E in H. simpl in H. lia. Qed.


Lemma split_length (sep : ascii) (s : string) :
  length (JS.split sep s) = S (JS.count_matches sep s).
Proof.
  induction s as [|c r IH]; simpl; [reflexivity|].
  destruct (Ascii.eqb c sep); simpl.
  - rewrite IH. reflexivity.
  - destruct (JS.split sep r); simpl in *; [discriminate | exact IH].
Qed.


Lemma sniff_count (line : string) : snd (sniff line) = count (fst (sniff line)) line.
Proof. apply (sniff_highest_earliest line). Qed.


(** The header fields of the standalone page are one more than the
    delimiters counted. *)
Lemma hheaders_length (text : string) : length (hheaders text) = S (hcount text).
Proof.
  unfold hheaders, fields, hcount, hbest. rewrite length_map, split_length.
  rewrite sniff_count. reflexivity.
Qed.

(** ** Objects, keys and the rows of a delimited text *)

Lemma existsb_eqb_In (k : string) (l : list string) :
  existsb (String.eqb k) l = true <-> In k l.
Proof.
  rewrite existsb_exists. split.
  - intros [x [Hx He]]. apply String.eqb_eq in He. subst. exact Hx.
  - intros H. exists k. split; [exact H | apply String.eqb_refl].
Qed.

Lemma obj_get_set_eq (k : string) (v : value) (o : list (string * value)) :
  obj_get k (obj_set k v o) = Some v.
Proof.
  induction o as [|[k' v'] r IH]; simpl.
  - rewrite String.eqb_refl. reflexivity.
  - destruct (String.eqb k' k) eqn:E; simpl; rewrite E; [reflexivity | exact IH].
Qed.

Lemma obj_get_set_ne (k k' : string) (v : value) (o : list (string * value)) :
  k' <> k -> obj_get k (obj_set k' v o) = obj_get k o.
Proof.
  intros Hne. induction o as [|[k0 v0] r IH]; simpl.
  - destruct (String.eqb k' k) eqn:E; [apply String.eqb_eq in E; contradiction | reflexivity].
  - destruct (String.eqb k0 k') eqn:E; simpl.
    + apply String.eqb_eq in E. subst k0.
      destruct (String.eqb k' k) eqn:E'; [apply String.eqb_eq in E'; contradiction | reflexivity].
    + rewrite IH. reflexivity.
Qed.

Lemma keys_obj_set (k : string) (v : value) (o : list (string * value)) :
  map fst (obj_set k v o) = set_add (map fst o) k.
Proof.
  unfold set_add. induction o as [|[k' v'] r IH]; simpl; [reflexivity|].
  rewrite (String.eqb_sym k k').
  destruct (String.eqb k' k) eqn:E; simpl; [reflexivity|].
  rewrite IH. destruct (existsb (String.eqb k) (map fst r)); reflexivity.
Qed.

Lemma obj_get_assign_eq (k : string) (text : string) (o : list (string * value)) :
  k <> proto -> obj_get k (assign k text o) = Some (JStr text).
Proof.
  intros Hk. unfold assign.
  destruct (String.eqb k proto) eqn:E; [apply String.eqb_eq in E; contradiction|].
  apply obj_get_set_eq.
Qed.

Lemma obj_get_assign_ne (k k' : string) (text : string) (o : list (string * value)) :
  k' <> k -> obj_get k (assign k' text o) = obj_get k o.
Proof.
  intros Hne. unfold assign. destruct (String.eqb k' proto); [reflexivity|].
  apply obj_get_set_ne, Hne.
Qed.

(** The property names of a row depend on the headers alone: they are the
    headers other than [__proto__]. *)
Lemma keys_fill (headers : list string) (index : nat) (values : list string)
                (o : list (string * value)) :
  map fst (fill headers index values o)
  = fold_left set_add (own_names headers) (map fst o).
Proof.
  revert index o. induction headers as [|h r IH]; intros index o; simpl; [reflexivity|].
  rewrite IH. unfold assign. fold proto.
  destruct (String.eqb h proto); simpl; [reflexivity|].
  rewrite keys_obj_set. reflexivity.
Qed.

Lemma set_add_In (acc : list string) (key k : string) :
  In k (set_add acc key) <-> In k acc \/ k = key.
Proof.
  unfold set_add. destruct (existsb (String.eqb key) acc) eqn:E.
  - apply existsb_eqb_In in E. split; [tauto | intros [H|H]; subst; assumption].
  - rewrite in_app_iff. simpl. split; intros [H|H]; auto.
    + destruct H as [H|[]]; auto.
Qed.

Lemma fold_set_add_In (l acc : list string) (k : string) :
  In k (fold_left set_add l acc) <-> In k acc \/ In k l.
Proof.
  revert acc. induction l as [|h r IH]; intros acc; simpl; [tauto|].
  rewrite IH, set_add_In. intuition.
Qed.

Lemma set_add_NoDup (acc : list string) (key : string) :
  NoDup acc -> NoDup (set_add acc key).
Proof.
  intros H. unfold set_add. destruct (existsb (String.eqb key) acc) eqn:E; [exact H|].
  assert (~ In key acc) as Hn.
  { intros Hin. apply existsb_eqb_In in Hin. congruence. }
  apply NoDup_app; [exact H | constructor; [intros [] | constructor] |].
  intros a Ha [Hb|[]]. subst. contradiction.
Qed.

Lemma fold_set_add_NoDup (l acc : list string) :
  NoDup acc -> NoDup (fold_left set_add l acc).
Proof.
  revert acc. induction l as [|h r IH]; intros acc H; simpl; [exact H|].
  apply IH, set_add_NoDup, H.
Qed.

(** Adding names that are all new appends them. *)
Lemma fold_set_add_fresh (l acc : list string) :
  NoDup (acc ++ l) -> fold_left set_add l acc = acc ++ l.
Proof.
  revert acc. induction l as [|h r IH]; intros acc H; simpl.
  - rewrite app_nil_r. reflexivity.
  - assert (existsb (String.eqb h) acc = false) as E.
    { destruct (existsb (String.eqb h) acc) eqn:E; [|reflexivity].
      apply existsb_eqb_In in E. apply NoDup_remove_2 in H.
      exfalso. apply H. apply in_or_app. left. exact E. }
    unfold set_add at 2. rewrite E.
    rewrite IH; rewrite <- app_assoc; simpl; [reflexivity | exact H].
Qed.

(** Adding names that are all present changes nothing. *)
Lemma fold_set_add_known (l acc : list string) :
  (forall k, In k l -> In k acc) -> fold_left set_add l acc = acc.
Proof.
  revert acc. induction l as [|h r IH]; intros acc H; simpl; [reflexivity|].
  assert (set_add acc h = acc) as E.
  { unfold set_add. destruct (existsb (String.eqb h) acc) eqn:E; [reflexivity|].
    assert (In h acc) as Hin by (apply H; left; reflexivity).
    apply existsb_eqb_In in Hin. congruence. }
  rewrite E. apply IH. intros k Hk. apply H. right. exact Hk.
Qed.

Lemma insert_index_perm (x : N * string) (l : list (N * string)) :
  Permutation (insert_index x l) (x :: l).
Proof.
  induction l as [|y r IH]; simpl; [apply Permutation_refl|].
  destruct (fst x <=? fst y)%N; [apply Permutation_refl|].
  apply Permutation_trans with (y :: x :: r);
    [apply perm_skip, IH | apply perm_swap].
Qed.

Lemma index_keys_perm (ks : list string) :
  Permutation (map snd (index_keys ks)) (filter is_index ks).
Proof.
  induction ks as [|k r IH]; simpl; [apply Permutation_refl|].
  unfold is_index at 1. destruct (array_index k) as [i|] eqn:E; [|exact IH].
  apply Permutation_trans with (map snd ((i, k) :: index_keys r)).
  - apply Permutation_map, insert_index_perm.
  - simpl. apply perm_skip, IH.
Qed.

Lemma filter_split_perm (p : string -> bool) (l : list string) :
  Permutation (filter p l ++ filter (fun k => negb (p k)) l) l.
Proof.
  induction l as [|k r IH]; simpl; [apply Permutation_refl|].
  destruct (p k); simpl.
  - apply perm_skip, IH.
  - apply Permutation_sym, Permutation_cons_app, Permutation_sym, IH.
Qed.

(** The order of the language rearranges the names and loses none. *)
Lemma ordered_keys_perm (ks : list string) : Permutation (ordered_keys ks) ks.
Proof.
  unfold ordered_keys.
  apply Permutation_trans with (filter is_index ks ++ filter (fun k => negb (is_index k)) ks).
  - apply Permutation_app_tail, index_keys_perm.
  - apply filter_split_perm.
Qed.

Lemma ordered_keys_In (ks : list string) (k : string) :
  In k (ordered_keys ks) <-> In k ks.
Proof.
  split; apply Permutation_in;
    [apply ordered_keys_perm | apply Permutation_sym, ordered_keys_perm].
Qed.

Lemma ordered_keys_NoDup (ks : list string) : NoDup ks -> NoDup (ordered_keys ks).
Proof.
  apply Permutation_NoDup, Permutation_sym, ordered_keys_perm.
Qed.

(** A property of a row holds what the last header of that name took. *)
Lemma get_fill (headers : list string) (index : nat) (values : list string)
               (o : list (string * value)) (k : string) :
  k <> proto ->
  obj_get k (fill headers index values o) =
    match last_index k headers with
    | Some j => Some (JStr (or_empty (nth_error values (index + j))))
    | None => obj_get k o
    end.
Proof.
  intros Hk. revert index o.
  induction headers as [|h r IH]; intros index o; simpl; [reflexivity|].
  rewrite IH. destruct (last_index k r) as [j|].
  - f_equal. f_equal. f_equal. f_equal. lia.
  - destruct (String.eqb h k) eqn:E.
    + apply String.eqb_eq in E. subst h. rewrite (obj_get_assign_eq k _ o Hk).
      rewrite Nat.add_0_r. reflexivity.
    + apply obj_get_assign_ne. intros ->. rewrite String.eqb_refl in E. discriminate.
Qed.

(** No header sets a property named [__proto__]. *)
Lemma get_fill_proto (headers : list string) (index : nat) (values : list string)
                     (o : list (string * value)) :
  obj_get proto (fill headers index values o) = obj_get proto o.
Proof.
  revert index o. induction headers as [|h r IH]; intros index o; simpl; [reflexivity|].
  rewrite IH. unfold assign. destruct (String.eqb h proto) eqn:E; [reflexivity|].
  apply obj_get_set_ne. intros ->. rewrite String.eqb_refl in E. discriminate.
Qed.

Lemma last_index_ge (headers : list string) (i : nat) (h : string) :
  nth_error headers i = Some h ->
  exists j, last_index h headers = Some j /\ i <= j.
Proof.
  revert i. induction headers as [|h0 r IH]; intros [|i] H; simpl in *; try discriminate.
  - injection H as ->. destruct (last_index h r) as [j|].
    + exists (S j). split; [reflexivity | lia].
    + rewrite String.eqb_refl. exists 0. split; [reflexivity | lia].
  - destruct (IH i H) as [j [Hj Hle]]. rewrite Hj.
    exists (S j). split; [reflexivity | lia].
Qed.

Lemma last_index_unique (headers : list string) (i : nat) (h : string) :
  nth_error headers i = Some h ->
  (forall j, i < j -> nth_error headers j <> Some h) ->
  last_index h headers = Some i.
Proof.
  revert i. induction headers as [|h0 r IH]; intros [|i] H Hl; simpl in *; try discriminate.
  - injection H as ->.
    destruct (last_index h r) as [j|] eqn:E.
    + exfalso. clear IH.
      assert (exists j', nth_error r j' = Some h) as [j' Hj'].
      { clear Hl. revert j E. induction r as [|a r' IHr]; intros j E; simpl in E; [discriminate|].
        destruct (last_index h r') as [j0|] eqn:E0.
        - destruct (IHr j0 eq_refl) as [j' Hj']. exists (S j'). exact Hj'.
        - destruct (String.eqb a h) eqn:Ea; [|discriminate].
          apply String.eqb_eq in Ea. subst. exists 0. reflexivity. }
      apply (Hl (S j')); [lia | exact Hj'].
    + rewrite String.eqb_refl. reflexivity.
  - rewrite (IH i H); [reflexivity|].
    intros j Hj. apply (Hl (S j)). lia.
Qed.

Lemma last_index_None (headers : list string) (k : string) :
  last_index k headers = None <-> ~ In k headers.
Proof.
  induction headers as [|h r IH]; simpl; [tauto|].
  destruct (last_index k r) as [j|].
  - split; [discriminate|]. intros Hn. exfalso. apply Hn. right.
    destruct (in_dec string_dec k r) as [Hin|Hnin]; [exact Hin|].
    apply IH in Hnin. discriminate.
  - destruct (String.eqb h k) eqn:E.
    + apply String.eqb_eq in E. split; [discriminate | intros Hn; exfalso; apply Hn; left; exact E].
    + split; [|reflexivity]. intros _ [Heq|Hin].
      * subst. rewrite String.eqb_refl in E. discriminate.
      * apply IH in Hin; [exact Hin | reflexivity].
Qed.

Lemma production_null (text : string) :
  JS.truthy_string (JS.trim text) = false -> Production.parseData text = Null.
Proof. intros H. unfold Production.parseData. rewrite H. reflexivity. Qed.

Lemma html_null (text : string) :
  JS.truthy_string (JS.trim text) = false -> Html.parseData text = Null.
Proof. intros H. unfold Html.parseData. rewrite H. reflexivity. Qed.

(** A result of the delimited path of the production viewer. *)
Lemma production_rows (text : string) (r : parsed) :
  Json.JSON_parse (sanitized text) = None ->
  Production.parseData text = Parsed r ->
  2 <= length (plines text) /\ 0 < pcount text /\ 2 <= length (pheaders text) /\
  r = {| data := map (row_of (pheaders text) (pbest text))
                     (firstn Production.MAX_ROWS_DISPLAY (skipn 1 (plines text)));
         type := typeMap (pbest text) |}.
Proof.
  intros Hj Hp. destruct (JS.truthy_string (JS.trim text)) eqn:Hb.
  - rewrite (production_delimited text Hj Hb) in Hp.
    destruct (1 <? length (plines text)) eqn:E1; [|discriminate].
    destruct (0 <? pcount text) eqn:E2; [|discriminate].
    destruct (1 <? length (pheaders text)) eqn:E3; [|discriminate].
    simpl in Hp. injection Hp as <-.
    apply Nat.ltb_lt in E1, E2, E3. repeat split; lia.
  - rewrite (production_null text Hb) in Hp. discriminate.
Qed.

(** A result of the delimited path of the standalone page. *)
Lemma html_rows (text : string) (r : parsed) :
  Json.JSON_parse text = None ->
  Html.parseData text = Parsed r ->
  2 <= length (hlines text) /\ 0 < hcount text /\ 2 <= length (hheaders text) /\
  r = {| data := map (row_of (hheaders text) (hbest text)) (skipn 1 (hlines text));
         type := typeMap (hbest text) |}.
Proof.
  intros Hj Hp. destruct (JS.truthy_string (JS.trim text)) eqn:Hb.
  - rewrite (html_delimited text Hj Hb) in Hp.
    destruct (1 <? length (hlines text)) eqn:E1; [|discriminate].
    destruct (0 <? hcount text) eqn:E2; [|discriminate].
    destruct (1 <? length (hheaders text)) eqn:E3; [|discriminate].
    simpl in Hp. injection Hp as <-.
    apply Nat.ltb_lt in E1, E2, E3. repeat split; lia.
  - rewrite (html_null text Hb) in Hp. discriminate.
Qed.

Lemma has_own_object (o : list (string * value)) (k : string) :
  has_own (JObj o) k = true <-> obj_get k o <> None.
Proof.
  unfold has_own, get. destruct (obj_get k o) as [v|].
  - split; [discriminate | reflexivity].
  - unfold inherited. destruct (String.eqb k proto); [split; [discriminate | congruence]|].
    destruct (existsb (String.eqb k) object_methods); split; (discriminate || congruence).
Qed.

(** The properties of a row are the headers other than [__proto__]. *)
Lemma row_keys (headers : list string) (d : delimiter) (line : string) (k : string) :
  has_own (row_of headers d line) k = true <-> In k headers /\ k <> proto.
Proof.
  unfold row_of. rewrite has_own_object.
  destruct (String.eqb k proto) eqn:Ek.
  - apply String.eqb_eq in Ek. subst k. rewrite get_fill_proto. simpl.
    split; [intros H; exfalso; apply H; reflexivity | intros [_ H]; exfalso; apply H; reflexivity].
  - assert (k <> proto) as Hk by (intros ->; rewrite String.eqb_refl in Ek; discriminate).
    rewrite (get_fill _ _ _ _ _ Hk). simpl obj_get.
    destruct (last_index k headers) as [j|] eqn:E.
    + split; [|discriminate]. intros _. split; [|exact Hk].
      destruct (in_dec string_dec k headers) as [Hin|Hn]; [exact Hin|].
      apply last_index_None in Hn. congruence.
    + apply last_index_None in E.
      split; [intros H; exfalso; apply H; reflexivity | intros [H _]; contradiction].
Qed.

Lemma row_padding (headers : list string) (d : delimiter) (line : string)
                  (i : nat) (h : string) :
  nth_error headers i = Some h ->
  h <> proto ->
  length (fields d line) <= i ->
  get (row_of headers d line) h = Own (JStr EmptyString).
Proof.
  intros Hn Hp Hl. unfold row_of, get. rewrite (get_fill _ _ _ _ _ Hp).
  destruct (last_index_ge headers i h Hn) as [j [Hj Hle]]. rewrite Hj. simpl.
  assert (nth_error (fields d line) j = None) as E by (apply nth_error_None; lia).
  rewrite E. reflexivity.
Qed.

Lemma row_positional (headers : list string) (d : delimiter) (line : string)
                     (i : nat) (h : string) :
  nth_error headers i = Some h ->
  h <> proto ->
  (forall j, i < j -> nth_error headers j <> Some h) ->
  get (row_of headers d line) h = Own (JStr (or_empty (nth_error (fields d line) i))).
Proof.
  intros Hn Hp Hl. unfold row_of, get. rewrite (get_fill _ _ _ _ _ Hp).
  rewrite (last_index_unique headers i h Hn Hl). reflexivity.
Qed.

(** [values[index] || ''] is the field itself, or nothing past the end. *)
Lemma or_empty_nth (values : list string) (i : nat) :
  or_empty (nth_error values i) = nth i values EmptyString.
Proof.
  revert i. induction values as [|v r IH]; intros [|i]; simpl; try reflexivity.
  - destruct v; reflexivity.
  - apply IH.
Qed.

(** C8, the code at the header line [a,__proto__] followed by the line
    [1]: both viewers build the row [{a: "1"}].  The second header is past
    the fields of the line, and the claim asks for the empty string under
    it; the assignment to [__proto__] sets no property, the read of that
    name finds [Object.prototype], and the table has the single column
    [a]. *)
Theorem C8_proto_header_is_not_padded :
  Production.parseData proto_header_text =
    Parsed {| data := [JObj [("a", JStr "1")]]; type := "CSV" |} /\
  Html.parseData proto_header_text =
    Parsed {| data := [JObj [("a", JStr "1")]]; type := "CSV" |} /\
  pheaders proto_header_text = ["a"; "__proto__"] /\
  fields Comma "1" = ["1"] /\
  get (row_of ["a"; "__proto__"] Comma "1") "__proto__" = Prototype /\
  columns [JObj [("a", JStr "1")]] = Some ["a"] /\
  ~ short_lines_are_padded.
Proof.
  repeat split.
  intros H. specialize (H ["a"; "__proto__"] Comma "1" 1 "__proto__" eq_refl).
  simpl in H. specialize (H (le_n 1)). discriminate H.
Qed.

(** X25: short lines are padded and long lines are cut, apart from the
    header [__proto__].  On a text that is not valid JSON (after
    sanitizing, in the production viewer), with two non-blank lines or
    more, a delimiter in the first and, in the production viewer, two
    non-empty header names or more, both viewers return one record per data
    line, built by [row_of].  Such a record has as its properties the
    header names other than [__proto__] and no other (fields beyond the
    headers are dropped); a header other than [__proto__] at or past the
    number of fields of the line holds the empty string, and a header other
    than [__proto__] (the last of its name) holds the field at its own
    position. *)
Theorem X25_lines_padded_and_cut :
  (forall text,
      Json.JSON_parse (sanitized text) = None ->
      2 <= length (plines text) ->
      0 < pcount text ->
      2 <= length (pheaders text) ->
      exists r,
        Production.parseData text = Parsed r /\
        data r = map (row_of (pheaders text) (pbest text))
                     (firstn Production.MAX_ROWS_DISPLAY (skipn 1 (plines text)))) /\
  (forall text,
      Json.JSON_parse text = None ->
      2 <= length (hlines text) ->
      0 < hcount text ->
      exists r,
        Html.parseData text = Parsed r /\
        data r = map (row_of (hheaders text) (hbest text)) (skipn 1 (hlines text))) /\
  (forall headers d line,
      let values := fields d line in
      let row := row_of headers d line in
      (forall k, has_own row k = true <-> In k headers /\ k <> proto) /\
      (forall i h, nth_error headers i = Some h -> h <> proto ->
                   length values <= i ->
                   get row h = Own (JStr EmptyString)) /\
      (forall i h, nth_error headers i = Some h -> h <> proto ->
                   (forall j, i < j -> nth_error headers j <> Some h) ->
                   get row h = Own (JStr (nth i values EmptyString)))).
Proof.
  split; [|split].
  - intros text Hj Hl Hc Hh.
    pose proof (production_lines_nonblank text (two_lines_nonblank _ Hl)) as Hb.
    rewrite (production_delimited text Hj Hb).
    ltb_holds 1 (length (plines text)). ltb_holds 0 (pcount text).
    ltb_holds 1 (length (pheaders text)). simpl andb.
    eexists. split; reflexivity.
  - intros text Hj Hl Hc.
    pose proof (html_lines_nonblank text (two_lines_nonblank _ Hl)) as Hb.
    rewrite (html_delimited text Hj Hb).
    pose proof (hheaders_length text) as Hlen.
    ltb_holds 1 (length (hlines text)). ltb_holds 0 (hcount text).
    ltb_holds 1 (length (hheaders text)). simpl andb.
    eexists. split; reflexivity.
  - intros headers d line values row. split; [|split].
    + intros k. apply row_keys.
    + intros i h Hn Hp Hl. apply (row_padding headers d line i h Hn Hp Hl).
    + intros i h Hn Hp Hl. subst row values.
      rewrite (row_positional headers d line i h Hn Hp Hl), or_empty_nth. reflexivity.
Qed.

Lemma X25_witness :
  (exists r, Production.parseData short_line_text = Parsed r /\
             data r = [row_of ["a"; "b"; "c"] Comma "1";
                       row_of ["a"; "b"; "c"] Comma "1,2,3,4"]) /\
  (exists r, Html.parseData short_line_text = Parsed r /\
             data r = [row_of ["a"; "b"; "c"] Comma "1";
                       row_of ["a"; "b"; "c"] Comma "1,2,3,4"]) /\
  get (row_of ["a"; "b"; "c"] Comma "1") "c" = Own (JStr EmptyString) /\
  get (row_of ["a"; "b"; "c"] Comma "1,2,3,4") "c" = Own (JStr "3").
Proof.
  pose proof X25_lines_padded_and_cut as (Hp & Hh & Hrow).
  split; [|split; [|split]].
  - apply (Hp short_line_text); [reflexivity | | |]; vm_compute; lia.
  - apply (Hh short_line_text); [reflexivity | |]; vm_compute; lia.
  - destruct (Hrow ["a"; "b"; "c"] Comma "1") as (_ & Hpad & _).
    apply (Hpad 2 "c"); [reflexivity | discriminate | simpl; lia].
  - destruct (Hrow ["a"; "b"; "c"] Comma "1,2,3,4") as (_ & _ & Hpos).
    apply (Hpos 2 "c"); [reflexivity | discriminate |].
    intros [|[|[|[|j]]]] Hj; try lia; simpl; intros E; discriminate E.
Defined.

(** ** Detection *)

Lemma production_no_delimiter (text : string) :
  Json.JSON_parse (sanitized text) = None ->
  JS.truthy_string (JS.trim text) = true ->
  pcount text = 0 ->
  Production.parseData text = Thrown Production.unrecognized.
Proof.
  intros Hj Hb Hc. rewrite (production_delimited text Hj Hb), Hc.
  rewrite andb_false_r. reflexivity.
Qed.

Lemma html_no_delimiter (text : string) :
  Json.JSON_parse text = None ->
  JS.truthy_string (JS.trim text) = true ->
  hcount text = 0 ->
  Html.parseData text = Thrown Html.unrecognized.
Proof.
  intros Hj Hb Hc. rewrite (html_delimited text Hj Hb), Hc.
  rewrite andb_false_r. reflexivity.
Qed.

(** C4, counterexample: the text made of the lines [[1] and
    []<script></script>] is not valid JSON, has two non-blank lines and no
    candidate in the first of them; the production viewer removes the
    script element, reads what is left as JSON and returns it, where the
    specification asks for the Unrecognized error.  The standalone page
    does throw it. *)
Lemma C4_counterexample_script_after_json :
  Json.JSON_parse (JS.trim script_after_json) = None /\
  nonblank_lines (JS.trim script_after_json) = ["[1"; "]<script></script>"] /\
  sniff "[1" = (Comma, 0) /\
  sanitized script_after_json = ("[1" ++ lf ++ "]")%string /\
  Production.parseData script_after_json =
    Parsed {| data := [JNum (NInt 1)]; type := "JSON" |} /\
  Html.parseData script_after_json = Thrown Html.unrecognized /\
  ~ no_delimiter_always_unrecognized.
Proof.
  repeat split.
  intros H. specialize (H script_after_json eq_refl).
  assert (2 <= length (nonblank_lines (JS.trim script_after_json))) as Hl
      by (vm_compute; lia).
  specialize (H Hl eq_refl). discriminate H.
Qed.

(** C4, amended: on a text that is not valid JSON and has at least two
    non-blank lines (both said of the trimmed text once its script elements
    are removed, in the production viewer; not valid JSON as given and two
    non-blank lines in its trimming, in the standalone page), both viewers
    count every candidate in the first non-blank line, keep the candidate
    of highest count, the earliest listed among equals, and throw the
    Unrecognized error when that count is 0.  Otherwise they return the
    rows split at the kept candidate under its format label, unless, in
    the production viewer, fewer than 2 non-empty header names are found,
    which is the Unrecognized error again. *)
Theorem C4_delimiter_by_count :
  (forall text,
      Json.JSON_parse (sanitized text) = None ->
      2 <= length (plines text) ->
      highest_earliest (pline text) (pbest text) (pcount text) /\
      (pcount text = 0 ->
       Production.parseData text = Thrown Production.unrecognized) /\
      (0 < pcount text -> length (pheaders text) < 2 ->
       Production.parseData text = Thrown Production.unrecognized) /\
      (0 < pcount text -> 2 <= length (pheaders text) ->
       exists r, Production.parseData text = Parsed r /\
                 type r = typeMap (pbest text) /\
                 data r = map (row_of (pheaders text) (pbest text))
                              (firstn Production.MAX_ROWS_DISPLAY
                                      (skipn 1 (plines text))))) /\
  (forall text,
      Json.JSON_parse text = None ->
      2 <= length (hlines text) ->
      highest_earliest (hline text) (hbest text) (hcount text) /\
      (hcount text = 0 -> Html.parseData text = Thrown Html.unrecognized) /\
      (0 < hcount text ->
       exists r, Html.parseData text = Parsed r /\
                 type r = typeMap (hbest text) /\
                 data r = map (row_of (hheaders text) (hbest text))
                              (skipn 1 (hlines text)))).
Proof.
  split; intros text Hj Hl; (split; [apply sniff_highest_earliest | split]).
  - apply production_no_delimiter; [exact Hj|].
    apply production_lines_nonblank, two_lines_nonblank, Hl.
  - pose proof (production_lines_nonblank text (two_lines_nonblank _ Hl)) as Hb.
    rewrite (production_delimited text Hj Hb). split.
    + intros Hc Hh. ltb_fails 1 (length (pheaders text)).
      rewrite andb_false_r. reflexivity.
    + intros Hc Hh. ltb_holds 1 (length (plines text)). ltb_holds 0 (pcount text).
      ltb_holds 1 (length (pheaders text)). simpl andb.
      eexists. repeat split.
  - apply html_no_delimiter; [exact Hj|].
    apply html_lines_nonblank, two_lines_nonblank, Hl.
  - intros Hc.
    pose proof (html_lines_nonblank text (two_lines_nonblank _ Hl)) as Hb.
    rewrite (html_delimited text Hj Hb).
    pose proof (hheaders_length text) as Hlen.
    ltb_holds 1 (length (hlines text)). ltb_holds 0 (hcount text).
    ltb_holds 1 (length (hheaders text)). simpl andb.
    eexists. repeat split.
Qed.

Lemma C4_witness :
  highest_earliest (pline semicolon_text) Semicolon 2 /\
  (exists r, Production.parseData semicolon_text = Parsed r /\
             type r = "Semicolon-separated" /\
             data r = [row_of ["a"; "b,c"; "d|e"] Semicolon "1;2,3;4"]) /\
  highest_earliest (hline semicolon_text) Semicolon 2 /\
  (exists r, Html.parseData semicolon_text = Parsed r /\
             type r = "Semicolon-separated" /\
             data r = [row_of ["a"; "b,c"; "d|e"] Semicolon "1;2,3;4"]).
Proof.
  pose proof C4_delimiter_by_count as [Hp Hh].
  destruct (Hp semicolon_text) as (H1 & _ & _ & H2); [reflexivity | simpl; lia|].
  destruct (Hh semicolon_text) as (H3 & _ & H4); [reflexivity | simpl; lia|].
  split; [exact H1 | split; [|split; [exact H3|]]].
  - apply H2; vm_compute; lia.
  - apply H4; vm_compute; lia.
Defined.

Lemma production_degenerate (text : string) :
  Json.JSON_parse (sanitized text) = None ->
  plines text <> [] ->
  length (plines text) = 1 \/ length (pheaders text) < 2 ->
  Production.parseData text = Thrown Production.unrecognized.
Proof.
  intros Hj Hn Hd.
  rewrite (production_delimited text Hj (production_lines_nonblank text Hn)).
  destruct Hd as [H1|H2].
  - rewrite H1. reflexivity.
  - ltb_fails 1 (length (pheaders text)). rewrite andb_false_r. reflexivity.
Qed.

Lemma html_degenerate (text : string) :
  Json.JSON_parse text = None ->
  hlines text <> [] ->
  length (hlines text) = 1 \/ length (hheaders text) < 2 ->
  Html.parseData text = Thrown Html.unrecognized.
Proof.
  intros Hj Hn Hd.
  rewrite (html_delimited text Hj (html_lines_nonblank text Hn)).
  destruct Hd as [H1|H2].
  - rewrite H1. reflexivity.
  - ltb_fails 1 (length (hheaders text)). rewrite andb_false_r. reflexivity.
Qed.

(** C3, counterexample: the one-line text [[{"a":1},{"b":2}]] is valid JSON
    and both viewers return it as JSON. *)
Lemma C3_counterexample_json_line :
  length (plines two_objects) = 1 /\
  Production.parseData two_objects =
    Parsed {| data := [JObj [("a", JNum (NInt 1))]; JObj [("b", JNum (NInt 2))]];
              type := "JSON" |} /\
  Html.parseData two_objects =
    Parsed {| data := [JObj [("a", JNum (NInt 1))]; JObj [("b", JNum (NInt 2))]];
              type := "JSON" |} /\
  ~ degenerate_always_unrecognized.
Proof.
  repeat split.
  intros H. specialize (H two_objects (or_introl eq_refl)). discriminate H.
Qed.

Lemma blank_space (c : ascii) (r : string) :
  JS.trim (String c r) = EmptyString -> JS.is_space c = true /\ JS.trim r = EmptyString.
Proof.
  unfold JS.trim. simpl JS.trimStart. destruct (JS.is_space c) eqn:E.
  - intros H. split; [reflexivity | exact H].
  - simpl. rewrite E. simpl. discriminate.
Qed.

(** A blank text is not JSON: the lexer stops at a vertical tab or a form
    feed, and finds no token otherwise. *)
Lemma lex_blank (s : string) :
  JS.trim s = EmptyString -> Json.lex 0 s = None \/ Json.lex 0 s = Some [].
Proof.
  induction s as [|c r IH]; intros H; [right; reflexivity|].
  apply blank_space in H. destruct H as [Hc Hr]. specialize (IH Hr).
  destruct (Json.is_ws c) eqn:Ew.
  - cbn [Json.lex]. rewrite Ew. exact IH.
  - left. destruct c as [[] [] [] [] [] [] [] []]; try discriminate Hc;
      try discriminate Ew; reflexivity.
Qed.

Lemma parse_blank (text : string) :
  JS.trim text = EmptyString -> Json.JSON_parse text = None.
Proof.
  intros H. unfold Json.JSON_parse.
  destruct (lex_blank text H) as [-> | ->]; reflexivity.
Qed.

(** A text that [JSON.parse] accepts is not blank. *)
Lemma json_not_blank (text : string) (j : value) :
  Json.JSON_parse text = Some j -> JS.truthy_string (JS.trim text) = true.
Proof.
  intros H. destruct (JS.trim text) eqn:E; [|reflexivity].
  rewrite (parse_blank text E) in H. discriminate H.
Qed.

(** C3, amended: take a text that is not valid JSON and has a non-blank
    line (both said of the trimmed text once its script elements are
    removed, in the production viewer); with a single non-blank line, or
    with a header line of fewer than 2 header names (non-empty names in the
    production viewer, fields in the standalone page), [parseData] throws
    the Unrecognized error.  A text that is valid JSON (once trimmed and
    without its script elements, in the production viewer; as given, in
    the standalone page) is returned as JSON, whatever its lines. *)
Theorem C3_degenerate_unrecognized :
  (forall text,
      Json.JSON_parse (sanitized text) = None ->
      plines text <> [] ->
      length (plines text) = 1 \/ length (pheaders text) < 2 ->
      Production.parseData text = Thrown Production.unrecognized) /\
  (forall text,
      Json.JSON_parse text = None ->
      hlines text <> [] ->
      length (hlines text) = 1 \/ length (hheaders text) < 2 ->
      Html.parseData text = Thrown Html.unrecognized) /\
  (forall text jsonData,
      Json.JSON_parse (sanitized text) = Some jsonData ->
      Production.parseData text =
        Parsed {| data := firstn Production.MAX_ROWS_DISPLAY (array_of jsonData);
                  type := "JSON" |}) /\
  (forall text jsonData,
      Json.JSON_parse text = Some jsonData ->
      Html.parseData text = Parsed {| data := array_of jsonData; type := "JSON" |}).
Proof.
  split; [exact production_degenerate | split; [exact html_degenerate | split]].
  - exact production_json.
  - intros text j H. unfold Html.parseData.
    rewrite (json_not_blank text j H), H. reflexivity.
Qed.

Lemma C3_witness :
  Production.parseData one_line_text = Thrown Production.unrecognized /\
  Production.parseData one_header_text = Thrown Production.unrecognized /\
  Html.parseData one_line_text = Thrown Html.unrecognized /\
  Production.parseData two_objects = Parsed two_objects_result /\
  Html.parseData two_objects = Parsed two_objects_result.
Proof.
  pose proof C3_degenerate_unrecognized as (Hp & Hh & Hpj & Hhj).
  split; [|split; [|split; [|split]]].
  - apply (Hp one_line_text); [reflexivity | discriminate | left; reflexivity].
  - apply (Hp one_header_text); [reflexivity | discriminate | right; simpl; lia].
  - apply (Hh one_line_text); [reflexivity | discriminate | left; reflexivity].
  - apply (Hpj two_objects (JArr (data two_objects_result))). reflexivity.
  - apply (Hhj two_objects (JArr (data two_objects_result))). reflexivity.
Defined.

(** ** Header names *)

Lemma dequote_from_false (s : string) : dequote_from false s = strip_last s.
Proof.
  induction s as [|c r IH]; simpl; [reflexivity|].
  destruct (JS.is_empty r) eqn:E.
  - apply is_empty_true in E. subst r. simpl.
    rewrite andb_true_r. destruct (is_quote c); reflexivity.
  - rewrite andb_false_r, IH. reflexivity.
Qed.

(** The replace removes a quote character at each end, each on its own. *)
Lemma dequote_ends (s : string) : dequote s = strip_last (strip_first s).
Proof.
  unfold dequote. destruct s as [|c r]; simpl; [reflexivity|].
  rewrite andb_true_r. destruct (is_quote c) eqn:E.
  - apply dequote_from_false.
  - rewrite dequote_from_false. simpl. rewrite E.
    destruct (JS.is_empty r) eqn:Er; [|reflexivity].
    apply is_empty_true in Er. subst r. reflexivity.
Qed.

Lemma is_empty_app_one (s : string) (c : ascii) :
  JS.is_empty (s ++ String c EmptyString) = false.
Proof. destruct s; reflexivity. Qed.

(** A name between two quote characters loses exactly that layer. *)
Lemma dequote_surrounded (q1 q2 : ascii) (inner : string) :
  is_quote q1 = true -> is_quote q2 = true ->
  dequote (String q1 (inner ++ String q2 EmptyString)) = inner.
Proof.
  intros H1 H2. unfold dequote. simpl. rewrite H1. simpl.
  induction inner as [|c r IH]; simpl.
  - rewrite H2. reflexivity.
  - rewrite is_empty_app_one, andb_false_r, IH. reflexivity.
Qed.

Lemma fields_names (d : delimiter) (line : string) : fields d line = names d line.
Proof.
  unfold fields, names, clean. apply map_ext. intros f. apply dequote_ends.
Qed.

(** C5, counterexample: the lone quote character before [a] is removed, so
    the column is named [a] alone, where the specification keeps the quote
    character in the name. *)
Lemma C5_counterexample_unmatched_quote :
  Production.headers_of Comma (dq ++ "a,b") = ["a"; "b"] /\
  spec_names Comma (dq ++ "a,b") = [(dq ++ "a")%string; "b"] /\
  Production.parseData open_quote_text =
    Parsed {| data := [JObj [("a", JStr "1"); ("b", JStr "2")]]; type := "CSV" |} /\
  Html.parseData open_quote_text =
    Parsed {| data := [JObj [("a", JStr "1"); ("b", JStr "2")]]; type := "CSV" |} /\
  ~ headers_strip_matching_quotes.
Proof.
  repeat split.
  intros H. specialize (H Comma (dq ++ "a,b")%string). discriminate H.
Qed.

Lemma rows_keys (headers : list string) (d : delimiter) (lines : list string)
                (row : value) :
  In row (map (row_of headers d) lines) ->
  forall k, has_own row k = true <-> In k headers /\ k <> proto.
Proof.
  intros Hin k. apply in_map_iff in Hin. destruct Hin as [line [<- _]].
  apply row_keys.
Qed.


Lemma rows_names (headers : list string) (d : delimiter) (lines : list string)
                 (row : value) :
  In row (map (row_of headers d) lines) ->
  forall k, k <> proto -> (has_own row k = true <-> In k headers).
Proof.
  intros Hin k Hk. rewrite (rows_keys headers d lines row Hin k).
  split; [intros [H _]; exact H | intros H; split; assumption].
Qed.

Lemma map_nonempty {A B : Type} (f : A -> B) (l : list A) :
  0 < length l -> map f l <> [].
Proof. destruct l; simpl; [lia | discriminate]. Qed.

(** C5, amended: on a delimited text (not valid JSON, two non-blank lines
    or more and a delimiter in the first, all said of the trimmed text
    without its script elements in the production viewer) both viewers
    split the header line by the winning delimiter, trim each field and
    remove one quote character (single or double) at its start and one at
    its end, whether or not the two match.  The production viewer then
    drops the empty names, throws the Unrecognized error when fewer than 2
    names remain, and otherwise returns records in which a name other than
    [__proto__] is a property exactly when it is one of the remaining
    names; the standalone page, on a header line without empty names,
    returns records in which a name other than [__proto__] is a property
    exactly when it is one of the names. *)
Theorem C5_header_names :
  (forall text,
      Json.JSON_parse (sanitized text) = None ->
      2 <= length (plines text) ->
      0 < pcount text ->
      let headers := filter JS.truthy_string (names (pbest text) (pline text)) in
      (length headers < 2 ->
       Production.parseData text = Thrown Production.unrecognized) /\
      (2 <= length headers ->
       exists r, Production.parseData text = Parsed r /\
                 type r = typeMap (pbest text) /\
                 data r <> [] /\
                 forall row, In row (data r) ->
                   forall k, k <> proto -> (has_own row k = true <-> In k headers))) /\
  (forall text,
      Json.JSON_parse text = None ->
      2 <= length (hlines text) ->
      0 < hcount text ->
      let headers := names (hbest text) (hline text) in
      Forall (fun h => h <> EmptyString) headers ->
      exists r, Html.parseData text = Parsed r /\
                type r = typeMap (hbest text) /\
                data r <> [] /\
                forall row, In row (data r) ->
                  forall k, k <> proto -> (has_own row k = true <-> In k headers)).
Proof.
  split.
  - intros text Hj Hl Hc headers.
    assert (pheaders text = headers) as Eh.
    { unfold pheaders, Production.headers_of. rewrite fields_names. reflexivity. }
    pose proof (production_lines_nonblank text (two_lines_nonblank _ Hl)) as Hb.
    rewrite (production_delimited text Hj Hb), Eh.
    ltb_holds 0 (pcount text). ltb_holds 1 (length (plines text)).
    simpl andb. split.
    + intros Hlt. ltb_fails 1 (length headers). reflexivity.
    + intros Hge. ltb_holds 1 (length headers). eexists. split; [reflexivity|]. cbn [data type].
      split; [reflexivity | split].
      * apply map_nonempty. rewrite length_firstn, length_skipn.
        unfold Production.MAX_ROWS_DISPLAY. lia.
      * intros row Hin. exact (rows_names _ _ _ _ Hin).
  - intros text Hj Hl Hc headers _.
    assert (hheaders text = headers) as Eh.
    { unfold hheaders. rewrite fields_names. reflexivity. }
    pose proof (html_lines_nonblank text (two_lines_nonblank _ Hl)) as Hb.
    rewrite (html_delimited text Hj Hb).
    pose proof (hheaders_length text) as Hlen.
    ltb_holds 1 (length (hheaders text)). ltb_holds 1 (length (hlines text)).
    ltb_holds 0 (hcount text). rewrite Eh. simpl andb.
    eexists. split; [reflexivity|]. cbn [data type].
    split; [reflexivity | split].
    + apply map_nonempty. rewrite length_skipn. lia.
    + intros row Hin. exact (rows_names _ _ _ _ Hin).
Qed.

Lemma C5_witness :
  (exists r, Production.parseData quoted_header_text = Parsed r /\
             type r = "CSV" /\
             data r <> [] /\
             forall row, In row (data r) ->
               forall k, k <> proto ->
                         (has_own row k = true <-> In k ["name"; "age"; "city"])) /\
  (exists r, Html.parseData quoted_names_text = Parsed r /\
             type r = "CSV" /\
             data r <> [] /\
             forall row, In row (data r) ->
               forall k, k <> proto ->
                         (has_own row k = true <-> In k ["name"; "age"; "city"])) /\
  Production.parseData one_header_text = Thrown Production.unrecognized.
Proof.
  pose proof C5_header_names as [Hp Hh].
  split; [|split].
  - destruct (Hp quoted_header_text) as [_ H]; [reflexivity | vm_compute; lia | vm_compute; lia |].
    apply H. vm_compute. lia.
  - apply (Hh quoted_names_text); [reflexivity | vm_compute; lia | vm_compute; lia |].
    repeat constructor; discriminate.
  - destruct (Hp one_header_text) as [H _]; [reflexivity | vm_compute; lia | vm_compute; lia |].
    apply H. vm_compute. lia.
Defined.

(** ** The row cap *)



(** ** Columns and records *)

Lemma row_object_keys (headers : list string) (d : delimiter) (line : string) :
  Object_keys (row_of headers d line) =
    Some (ordered_keys (fold_left set_add (own_names headers) [])).
Proof. unfold row_of, Object_keys. rewrite keys_fill. reflexivity. Qed.

Lemma add_keys_same (ks : list string) (rows : list value) :
  (forall row, In row rows -> Object_keys row = Some ks) ->
  add_keys ks rows = Some ks.
Proof.
  induction rows as [|row rest IH]; intros H; simpl; [reflexivity|].
  rewrite (H row (or_introl eq_refl)).
  rewrite fold_set_add_known by auto.
  apply IH. intros row' Hin. apply H. right. exact Hin.
Qed.

(** Rows with the same duplicate-free names: the columns are those names. *)
Lemma columns_same (ks : list string) (rows : list value) :
  NoDup ks -> rows <> [] ->
  (forall row, In row rows -> Object_keys row = Some ks) ->
  columns rows = Some ks.
Proof.
  intros Hnd Hne H. destruct rows as [|row rest]; [contradiction|].
  unfold columns. simpl add_keys. rewrite (H row (or_introl eq_refl)).
  rewrite (fold_set_add_fresh ks []) by exact Hnd. simpl app.
  apply add_keys_same. intros row' Hin. apply H. right. exact Hin.
Qed.

(** The columns of a delimited result are the property names of each of
    its rows: the header names other than [__proto__], each once. *)
Lemma columns_rows (headers : list string) (d : delimiter) (lines : list string) :
  lines <> [] ->
  columns (map (row_of headers d) lines) =
    Some (ordered_keys (fold_left set_add (own_names headers) [])).
Proof.
  intros Hne. apply columns_same.
  - apply ordered_keys_NoDup, fold_set_add_NoDup. constructor.
  - destruct lines; [contradiction | discriminate].
  - intros row Hin. apply in_map_iff in Hin. destruct Hin as [line [<- _]].
    apply row_object_keys.
Qed.

Lemma render_keys (cols : list string) (row : value) :
  map fst (render cols row) = cols.
Proof. unfold render. rewrite map_map. simpl. apply map_id. Qed.

Lemma production_json_type (text : string) (r : parsed) :
  Production.parseData text = Parsed r -> type r <> "JSON" ->
  Json.JSON_parse (sanitized text) = None.
Proof.
  intros Hp Ht. destruct (Json.JSON_parse (sanitized text)) as [j|] eqn:E; [|reflexivity].
  rewrite (production_json text j E) in Hp. injection Hp as <-.
  exfalso. apply Ht. reflexivity.
Qed.

Lemma html_json (text : string) (jsonData : value) :
  Json.JSON_parse text = Some jsonData ->
  JS.truthy_string (JS.trim text) = true ->
  Html.parseData text = Parsed {| data := array_of jsonData; type := "JSON" |}.
Proof.
  intros H Hb. unfold Html.parseData. rewrite Hb, H. reflexivity.
Qed.

Lemma html_json_type (text : string) (r : parsed) :
  Html.parseData text = Parsed r -> type r <> "JSON" ->
  Json.JSON_parse text = None.
Proof.
  intros Hp Ht. destruct (Json.JSON_parse text) as [j|] eqn:E; [|reflexivity].
  destruct (JS.truthy_string (JS.trim text)) eqn:Hb.
  - rewrite (html_json text j E Hb) in Hp. injection Hp as <-.
    exfalso. apply Ht. reflexivity.
  - rewrite (html_null text Hb) in Hp. discriminate.
Qed.

Lemma own_names_In (headers : list string) (k : string) :
  In k (own_names headers) <-> In k headers /\ k <> proto.
Proof.
  unfold own_names. rewrite filter_In. split; intros [H1 H2]; (split; [exact H1|]).
  - intros ->. rewrite String.eqb_refl in H2. discriminate.
  - destruct (String.eqb k proto) eqn:E; [|reflexivity].
    apply String.eqb_eq in E. contradiction.
Qed.

Lemma row_cell_string (headers : list string) (d : delimiter) (line : string)
      (k : string) :
  In k headers -> k <> proto ->
  exists s, get (row_of headers d line) k = Own (JStr s).
Proof.
  intros Hin Hk. unfold row_of, get. rewrite (get_fill _ _ _ _ _ Hk).
  destruct (last_index k headers) as [j|] eqn:E; [eexists; reflexivity|].
  apply last_index_None in E. contradiction.
Qed.

(** The rows of a delimited result all carry the columns as their own
    property names, in the same order, each with a string. *)
Lemma delimited_rows_columns (headers : list string) (d : delimiter)
      (lines : list string) (cols : list string) :
  lines <> [] ->
  columns (map (row_of headers d) lines) = Some cols ->
  forall row, In row (map (row_of headers d) lines) ->
    Object_keys row = Some cols /\
    forall column, In column cols -> exists s, get row column = Own (JStr s).
Proof.
  intros Hne Hc row Hin. rewrite (columns_rows headers d lines Hne) in Hc.
  injection Hc as <-. apply in_map_iff in Hin. destruct Hin as [line [<- _]].
  split; [apply row_object_keys|].
  intros column Hcol.
  apply ordered_keys_In, fold_set_add_In in Hcol. destruct Hcol as [[]|H].
  apply own_names_In in H. destruct H as [H Hk]. apply row_cell_string; assumption.
Qed.

Lemma data_lines_nonempty (lines : list string) (cap : nat) :
  2 <= length lines -> 0 < cap -> firstn cap (skipn 1 lines) <> [].
Proof.
  intros Hl Hc. destruct lines as [|a [|b l]]; simpl in Hl; try lia.
  destruct cap; [lia | discriminate].
Qed.

(** C1, the code at the text [[{"a":1},{"constructor":2}]]: both viewers
    return its two elements as rows and the columns are [a] and
    [constructor].  The first element has no [constructor] key, and the
    claim asks for an empty string in that cell; the read
    [row["constructor"]] finds the function that every object inherits, which
    is not falsy, so the fallback to the empty string is not taken and the
    cell shows the text of that function (the [None] of [cell]).  The cell
    [a] of the second element, which no object inherits, is empty. *)
Theorem C1_inherited_member_is_shown :
  Production.parseData inherited_text = Parsed inherited_result /\
  Html.parseData inherited_text = Parsed inherited_result /\
  columns (data inherited_result) = Some ["a"; "constructor"] /\
  Object_keys (JObj [("a", JNum (NInt 1))]) = Some ["a"] /\
  get (JObj [("a", JNum (NInt 1))]) "constructor" = Inherited "constructor" /\
  cell (JObj [("a", JNum (NInt 1))]) "constructor" = None /\
  table inherited_result =
    Some (["a"; "constructor"],
          [[("a", Some "1"); ("constructor", None)];
           [("a", Some EmptyString); ("constructor", Some "2")]]).
Proof. repeat split. Qed.

(** C2: the text [[{"a":1},{"b":2}]] parses as JSON in both viewers, one
    row per element; the columns are [a] then [b], and the records show
    [1] and the empty string, then the empty string and [2]. *)
Theorem C2_two_objects_example :
  Production.parseData two_objects = Parsed two_objects_result /\
  Html.parseData two_objects = Parsed two_objects_result /\
  type two_objects_result = "JSON" /\
  table two_objects_result =
    Some (["a"; "b"],
          [[("a", Some "1"); ("b", Some EmptyString)];
           [("a", Some EmptyString); ("b", Some "2")]]).
Proof. repeat split. Qed.

(** ** Zero rows *)

(** C7, the code at the text [[]]: both viewers return a JSON result with
    no row, where the claim asks for a failure; the table then has no
    column and no record.  The delimited path does test [rows.length > 0]
    before it returns. *)
Theorem C7_empty_array_is_returned :
  Json.JSON_parse "[]" = Some (JArr []) /\
  Production.parseData "[]" = Parsed empty_array_result /\
  Html.parseData "[]" = Parsed empty_array_result /\
  table empty_array_result = Some ([], []).
Proof. repeat split. Qed.

(** Only the JSON path returns no row: a delimited result has at least
    one. *)
Lemma delimited_result_nonempty (text : string) (r : parsed) :
  Production.parseData text = Parsed r \/ Html.parseData text = Parsed r ->
  type r <> "JSON" -> data r <> [].
Proof.
  intros [Hp|Hp] Hty.
  - pose proof (production_json_type text r Hp Hty) as Hj.
    destruct (production_rows text r Hj Hp) as (Hl & _ & _ & ->). cbn [data].
    intros E. apply map_eq_nil in E. revert E.
    apply data_lines_nonempty; [exact Hl | unfold Production.MAX_ROWS_DISPLAY; lia].
  - pose proof (html_json_type text r Hp Hty) as Hj.
    destruct (html_rows text r Hj Hp) as (Hl & _ & _ & ->). cbn [data].
    intros E. apply map_eq_nil in E. revert E.
    rewrite <- (firstn_all (skipn 1 (hlines text))).
    apply data_lines_nonempty; [exact Hl | rewrite length_skipn; lia].
Qed.

(** ** The two viewers side by side *)

(** C10, counterexample: with the header line [a,] the production viewer
    drops the empty name and rejects the text, the standalone page keeps it
    and returns a row.  The two also part on a JSON text after a vertical
    tab, which [trim] removes and [JSON.parse] refuses, on a text made JSON
    by the removal of a script element, and on a JSON text of 1001
    elements, of which the production viewer keeps 1000. *)
Lemma C10_counterexample_empty_header :
  Production.parseData one_header_text = Thrown Production.unrecognized /\
  Html.parseData one_header_text =
    Parsed {| data := [JObj [("a", JStr "b"); (EmptyString, JStr "c")]];
              type := "CSV" |} /\
  ~ viewers_agree /\
  (Production.parseData tabbed_json = Parsed {| data := [JNum (NInt 1)]; type := "JSON" |} /\
   Html.parseData tabbed_json = Thrown Html.unrecognized) /\
  (Production.parseData script_after_json
     = Parsed {| data := [JNum (NInt 1)]; type := "JSON" |} /\
   Html.parseData script_after_json = Thrown Html.unrecognized) /\
  ~ same_outcome (Production.parseData long_json) (Html.parseData long_json).
Proof.
  split; [reflexivity | split; [reflexivity | split; [|split; [|split]]]].
  - intros H. exact (H one_header_text).
  - split; vm_compute; reflexivity.
  - split; vm_compute; reflexivity.
  - destruct (Production.parseData long_json) as [|x|m] eqn:Ex;
      destruct (Html.parseData long_json) as [|y|m'] eqn:Ey;
      try (vm_compute in Ex; discriminate Ex); try (vm_compute in Ey; discriminate Ey).
    intros [_ H]. apply (f_equal (@length value)) in H.
    assert (length (data x) = 1000) as Lx.
    { vm_compute in Ex. injection Ex as <-. vm_compute. reflexivity. }
    assert (length (data y) = 1001) as Ly.
    { vm_compute in Ey. injection Ey as <-. vm_compute. reflexivity. }
    lia.
Qed.

Lemma filter_all (l : list string) :
  Forall (fun h => h <> EmptyString) l -> filter JS.truthy_string l = l.
Proof.
  induction 1 as [|h r Hh _ IH]; simpl; [reflexivity|].
  destruct h; [contradiction|]. simpl. rewrite IH. reflexivity.
Qed.

(** *** White space around a JSON text *)

Lemma append_nil_r (s : string) : (s ++ EmptyString)%string = s.
Proof. induction s as [|c r IH]; simpl; [reflexivity | rewrite IH; reflexivity]. Qed.


Lemma append_assoc (a b c : string) : (a ++ (b ++ c))%string = ((a ++ b) ++ c)%string.
Proof. induction a as [|x r IH]; simpl; [reflexivity | rewrite IH; reflexivity]. Qed.


Lemma length_append (a b : string) :
  String.length (a ++ b) = String.length a + String.length b.
Proof. induction a as [|c r IH]; simpl; [reflexivity | rewrite IH; reflexivity]. Qed.

Lemma ws_cases (c : ascii) :
  Json.is_ws c = true ->
  c = ascii_of_nat 32 \/ c = ascii_of_nat 9 \/ c = ascii_of_nat 10 \/ c = ascii_of_nat 13.
Proof.
  destruct c as [[] [] [] [] [] [] [] []]; intros H; try discriminate H; auto.
Qed.

Lemma lex_leading (a s : string) :
  json_space a = true -> Json.lex 0 (a ++ s) = Json.lex 0 s.
Proof.
  induction a as [|c r IH]; intros H; [reflexivity|].
  simpl in H. apply andb_prop in H. destruct H as [Hc Hr].
  simpl append. cbn [Json.lex]. rewrite Hc. apply IH, Hr.
Qed.

Lemma lex_space (b : string) (skip : nat) :
  json_space b = true -> Json.lex skip b = Some [].
Proof.
  revert skip. induction b as [|c r IH]; intros skip H; [reflexivity|].
  simpl in H. apply andb_prop in H. destruct H as [Hc Hr].
  cbn [Json.lex]. destruct skip as [|k]; [rewrite Hc|]; apply IH, Hr.
Qed.

Lemma scan_string_space (b : string) (st : Json.sstate) (pending : option N) :
  json_space b = true -> Json.scan_string st pending b = None.
Proof.
  revert st pending. induction b as [|c r IH]; intros st pending H; [reflexivity|].
  simpl in H. apply andb_prop in H. destruct H as [Hc Hr].
  destruct (ws_cases c Hc) as [-> | [-> | [-> | ->]]]; destruct st; cbn;
    rewrite ?(IH _ _ Hr); reflexivity.
Qed.

Lemma scan_string_trailing (r b : string) (st : Json.sstate) (pending : option N) :
  json_space b = true ->
  Json.scan_string st pending (r ++ b) = Json.scan_string st pending r.
Proof.
  intros Hb. revert st pending. induction r as [|c r IH]; intros st pending.
  - simpl append. rewrite (scan_string_space b st pending Hb). reflexivity.
  - change ((String c r ++ b)%string) with (String c (r ++ b)).
    destruct st as [| |more acc]; cbn [Json.scan_string].
    + rewrite !IH. reflexivity.
    + rewrite !IH. destruct (Json.simple_escape c); rewrite ?IH; reflexivity.
    + destruct (Json.hex_digit c) as [d|]; [|reflexivity].
      destruct more as [|k]; [|rewrite IH; reflexivity].
      destruct pending as [h|]; rewrite !IH; reflexivity.
Qed.

Lemma digits_len_trailing (s b : string) :
  json_space b = true -> Json.digits_len (s ++ b) = Json.digits_len s.
Proof.
  intros Hb. induction s as [|c r IH]; simpl.
  - destruct b as [|c r]; [reflexivity|]. simpl in Hb. apply andb_prop in Hb.
    destruct (ws_cases c (proj1 Hb)) as [-> | [-> | [-> | ->]]]; reflexivity.
  - rewrite IH. reflexivity.
Qed.

Lemma first_space (b : string) :
  json_space b = true ->
  b = EmptyString \/ exists c r, b = String c r /\ Json.is_ws c = true.
Proof.
  destruct b as [|c r]; [left; reflexivity|]. intros H. simpl in H.
  apply andb_prop in H. right. exists c, r. split; [reflexivity | apply H].
Qed.

Lemma int_len_trailing (s b : string) :
  json_space b = true -> Json.int_len (s ++ b) = Json.int_len s.
Proof.
  intros Hb. destruct s as [|c r]; simpl.
  - destruct (first_space b Hb) as [-> | (c & r & -> & Hc)]; [reflexivity|].
    destruct (ws_cases c Hc) as [-> | [-> | [-> | ->]]]; reflexivity.
  - rewrite (digits_len_trailing r b Hb). reflexivity.
Qed.

Lemma frac_len_trailing (s b : string) :
  json_space b = true -> Json.frac_len (s ++ b) = Json.frac_len s.
Proof.
  intros Hb. destruct s as [|c r]; simpl.
  - destruct (first_space b Hb) as [-> | (c & r & -> & Hc)]; [reflexivity|].
    destruct (ws_cases c Hc) as [-> | [-> | [-> | ->]]]; reflexivity.
  - rewrite (digits_len_trailing r b Hb). reflexivity.
Qed.

Lemma starts_with_trailing (c : ascii) (s b : string) :
  json_space b = true -> Json.is_ws c = false ->
  Json.starts_with c (s ++ b) = Json.starts_with c s.
Proof.
  intros Hb Hc. destruct s as [|x r]; [|reflexivity]. simpl.
  destruct (first_space b Hb) as [-> | (y & r & -> & Hy)]; [reflexivity|].
  simpl. destruct (Ascii.eqb c y) eqn:E; [|reflexivity].
  apply Ascii.eqb_eq in E. subst y. congruence.
Qed.

Lemma drop_append (n : nat) (s b : string) :
  n <= String.length s -> JS.drop n (s ++ b) = (JS.drop n s ++ b)%string.
Proof.
  revert s. induction n as [|k IH]; intros s H; [destruct s; reflexivity|].
  destruct s as [|c r]; simpl in *; [lia|]. apply IH. lia.
Qed.

Lemma take_append (n : nat) (s b : string) :
  n <= String.length s -> JS.take n (s ++ b) = JS.take n s.
Proof.
  revert s. induction n as [|k IH]; intros s H; [destruct s; reflexivity|].
  destruct s as [|c r]; simpl in *; [lia|]. rewrite IH by lia. reflexivity.
Qed.

Lemma length_drop (n : nat) (s : string) :
  String.length (JS.drop n s) = String.length s - n.
Proof.
  revert s. induction n as [|k IH]; intros s; [simpl; destruct s; simpl; lia|].
  destruct s as [|c r]; simpl; [reflexivity | apply IH].
Qed.

Lemma digits_len_le (s : string) : Json.digits_len s <= String.length s.
Proof.
  induction s as [|c r IH]; simpl; [lia|]. destruct (JS.is_digit c); lia.
Qed.

Lemma int_len_le (s : string) (i : nat) :
  Json.int_len s = Some i -> i <= String.length s.
Proof.
  destruct s as [|c r]; simpl; [discriminate|].
  pose proof (digits_len_le r). destruct (Ascii.eqb c "0"); [intros E; injection E; lia|].
  destruct (JS.is_digit c); [intros E; injection E; lia | discriminate].
Qed.

Lemma frac_len_le (s : string) (f : nat) :
  Json.frac_len s = Some f -> f <= String.length s.
Proof.
  destruct s as [|c r]; simpl; [intros E; injection E; lia|].
  pose proof (digits_len_le r).
  destruct (Ascii.eqb c "."); [|intros E; injection E; lia].
  destruct (Json.digits_len r); [discriminate | intros E; injection E; lia].
Qed.

Lemma exp_len_le (s : string) (e : nat) :
  Json.exp_len s = Some e -> e <= String.length s.
Proof.
  destruct s as [|c r]; simpl; [intros E; injection E; lia|].
  destruct (Ascii.eqb c "e" || Ascii.eqb c "E"); [|intros E; injection E; lia].
  pose proof (digits_len_le (JS.drop (if Json.starts_with "+" r || Json.starts_with "-" r
                                      then 1 else 0) r)) as Hd.
  rewrite length_drop in Hd.
  destruct (Json.starts_with "+" r || Json.starts_with "-" r) eqn:Es.
  - assert (1 <= String.length r) as Hr by (destruct r; [discriminate Es | simpl; lia]).
    destruct (Json.digits_len (JS.drop 1 r)); [discriminate | intros E; injection E; lia].
  - destruct (Json.digits_len (JS.drop 0 r)); [discriminate | intros E; injection E; lia].
Qed.

Lemma exp_len_trailing (s b : string) :
  json_space b = true -> Json.exp_len (s ++ b) = Json.exp_len s.
Proof.
  intros Hb. destruct s as [|c r]; simpl.
  - destruct (first_space b Hb) as [-> | (c & r & -> & Hc)]; [reflexivity|].
    destruct (ws_cases c Hc) as [-> | [-> | [-> | ->]]]; reflexivity.
  - destruct (Ascii.eqb c "e" || Ascii.eqb c "E"); [|reflexivity].
    rewrite !(starts_with_trailing _ r b Hb) by reflexivity.
    destruct (Json.starts_with "+" r || Json.starts_with "-" r) eqn:Es.
    + assert (1 <= String.length r) as Hr by (destruct r; [discriminate Es | simpl; lia]).
      rewrite (drop_append 1 r b Hr), digits_len_trailing by exact Hb. reflexivity.
    + change (JS.drop 0 (r ++ b)) with (r ++ b)%string.
      change (JS.drop 0 r) with r.
      rewrite digits_len_trailing by exact Hb. reflexivity.
Qed.

Lemma scan_number_trailing (c : ascii) (r b : string) :
  json_space b = true ->
  Json.scan_number (String c r ++ b) = Json.scan_number (String c r).
Proof.
  intros Hb. set (s := String c r). unfold Json.scan_number.
  rewrite (starts_with_trailing "-" s b Hb) by reflexivity.
  set (sign := if Json.starts_with "-" s then 1 else 0).
  assert (sign <= String.length s) as Hs
      by (subst sign s; destruct (Json.starts_with "-" (String c r)); simpl; lia).
  rewrite (drop_append sign s b Hs), int_len_trailing by exact Hb.
  destruct (Json.int_len (JS.drop sign s)) as [i|] eqn:Ei; [|reflexivity].
  pose proof (int_len_le _ _ Ei) as Hi. rewrite length_drop in Hi.
  rewrite (drop_append i (JS.drop sign s) b) by (rewrite length_drop; lia).
  rewrite frac_len_trailing by exact Hb.
  destruct (Json.frac_len (JS.drop i (JS.drop sign s))) as [f|] eqn:Ef; [|reflexivity].
  pose proof (frac_len_le _ _ Ef) as Hf. rewrite !length_drop in Hf.
  rewrite (drop_append (i + f) (JS.drop sign s) b) by (rewrite length_drop; lia).
  rewrite exp_len_trailing by exact Hb.
  destruct (Json.exp_len (JS.drop (i + f) (JS.drop sign s))) as [e|] eqn:Ee; [|reflexivity].
  pose proof (exp_len_le _ _ Ee) as He. rewrite !length_drop in He.
  rewrite (take_append (sign + i + f + e) s b) by lia.
  rewrite (take_append i (JS.drop sign s) b) by (rewrite length_drop; lia).
  reflexivity.
Qed.

Lemma has_prefix_trailing (p : string) (s b : string) :
  json_space b = true ->
  (forall c, Json.is_ws c = true -> JS.count_matches c p = 0) ->
  match JS.strip_prefix p (s ++ b) with Some _ => true | None => false end
  = match JS.strip_prefix p s with Some _ => true | None => false end.
Proof.
  intros Hb. revert s. induction p as [|x p IH]; intros s Hp; [reflexivity|].
  assert (forall c, Json.is_ws c = true -> JS.count_matches c p = 0) as Hp'.
  { intros c Hc. specialize (Hp c Hc). simpl in Hp. lia. }
  destruct s as [|y r].
  - simpl append. destruct (first_space b Hb) as [-> | (y & r & -> & Hy)]; [reflexivity|].
    simpl. destruct (Ascii.eqb x y) eqn:E; [|reflexivity].
    apply Ascii.eqb_eq in E. subst y. specialize (Hp x Hy). simpl in Hp.
    rewrite Ascii.eqb_refl in Hp. discriminate Hp.
  - simpl. destruct (Ascii.eqb x y); [apply IH, Hp' | reflexivity].
Qed.

Lemma literal_trailing (p s b : string) :
  json_space b = true ->
  (forall c, Json.is_ws c = true -> JS.count_matches c p = 0) ->
  (JS.strip_prefix p (s ++ b) = None <-> JS.strip_prefix p s = None).
Proof.
  intros Hb Hp. pose proof (has_prefix_trailing p s b Hb Hp) as H.
  destruct (JS.strip_prefix p (s ++ b)), (JS.strip_prefix p s);
    split; intros E; try discriminate; reflexivity.
Qed.

Lemma no_space_in (p : string) :
  p = "true" \/ p = "false" \/ p = "null" ->
  forall c, Json.is_ws c = true -> JS.count_matches c p = 0.
Proof.
  intros Hp c Hc.
  destruct (ws_cases c Hc) as [-> | [-> | [-> | ->]]];
    destruct Hp as [-> | [-> | ->]]; reflexivity.
Qed.

(** White space after a text changes nothing for the lexer. *)
Lemma lex_trailing (s b : string) (skip : nat) :
  json_space b = true -> Json.lex skip (s ++ b) = Json.lex skip s.
Proof.
  intros Hb. revert skip. induction s as [|c r IH]; intros skip.
  - simpl append. rewrite (lex_space b skip Hb). destruct skip; reflexivity.
  - change ((String c r ++ b)%string) with (String c (r ++ b)).
    destruct skip as [|k]; [|cbn [Json.lex]; apply IH].
    cbn [Json.lex].
    change (String c (r ++ b)) with ((String c r ++ b)%string).
    rewrite (scan_number_trailing c r b Hb), (scan_string_trailing r b _ _ Hb).
    pose proof (has_prefix_trailing "true" (String c r) b Hb (no_space_in _ (or_introl eq_refl))) as Ht.
    pose proof (has_prefix_trailing "false" (String c r) b Hb
                  (no_space_in _ (or_intror (or_introl eq_refl)))) as Hf.
    pose proof (has_prefix_trailing "null" (String c r) b Hb
                  (no_space_in _ (or_intror (or_intror eq_refl)))) as Hn.
    destruct (Json.scan_string Json.SPlain None r) as [[str len]|];
    destruct (Json.scan_number (String c r)) as [[num len']|];
    rewrite !IH;
    destruct (JS.strip_prefix "true" (String c r ++ b)),
             (JS.strip_prefix "true" (String c r)); try discriminate Ht;
    destruct (JS.strip_prefix "false" (String c r ++ b)),
             (JS.strip_prefix "false" (String c r)); try discriminate Hf;
    destruct (JS.strip_prefix "null" (String c r ++ b)),
             (JS.strip_prefix "null" (String c r)); try discriminate Hn;
    reflexivity.
Qed.

(** [JSON.parse] reads a text between runs of JSON white space as it reads
    the text alone. *)
Lemma parse_between_space (a s b : string) :
  json_space a = true -> json_space b = true ->
  Json.JSON_parse (a ++ s ++ b) = Json.JSON_parse s.
Proof.
  intros Ha Hb. unfold Json.JSON_parse.
  rewrite (lex_leading a _ Ha), (lex_trailing s b 0 Hb). reflexivity.
Qed.



(** *** What [trim] removes from a JSON text *)

Lemma space_cases (c : ascii) :
  JS.is_space c = true ->
  c = ascii_of_nat 9 \/ c = ascii_of_nat 10 \/ c = ascii_of_nat 11 \/
  c = ascii_of_nat 12 \/ c = ascii_of_nat 13 \/ c = ascii_of_nat 32.
Proof.
  destruct c as [[] [] [] [] [] [] [] []]; intros H; try discriminate H; auto 7.
Qed.

Lemma space_not_number (c : ascii) : JS.is_space c = true -> number_char c = false.
Proof.
  intros H.
  destruct (space_cases c H) as [-> | [-> | [-> | [-> | [-> | ->]]]]]; reflexivity.
Qed.

Lemma space_lacks (c : ascii) (p : string) :
  JS.is_space c = true -> p = "true" \/ p = "false" \/ p = "null" -> lacks c p.
Proof.
  intros H Hp.
  destruct (space_cases c H) as [-> | [-> | [-> | [-> | [-> | ->]]]]];
    destruct Hp as [-> | [-> | ->]]; reflexivity.
Qed.

Lemma trimStart_split (s : string) :
  exists lead, s = (lead ++ JS.trimStart s)%string /\ all_space lead = true.
Proof.
  induction s as [|c r (l & E & Hl)]; [exists EmptyString; auto|].
  simpl. destruct (JS.is_space c) eqn:Ec.
  - exists (String c l). simpl. rewrite Ec, Hl, <- E. auto.
  - exists EmptyString. auto.
Qed.

Lemma trimEnd_split (s : string) :
  exists trail, s = (JS.trimEnd s ++ trail)%string /\ all_space trail = true.
Proof.
  induction s as [|c r (t & E & Ht)]; [exists EmptyString; auto|].
  simpl. destruct (JS.is_space c && JS.is_empty (JS.trimEnd r)) eqn:Ec.
  - exists (String c r). split; [reflexivity|].
    apply andb_prop in Ec. destruct Ec as [Hc He].
    destruct (JS.trimEnd r); [|discriminate He]. simpl in E. subst r.
    simpl. rewrite Hc. exact Ht.
  - exists t. simpl. rewrite <- E. auto.
Qed.

(** A text is its trimming between two runs of white space. *)
Lemma trim_split (s : string) :
  exists lead trail,
    s = (lead ++ JS.trim s ++ trail)%string /\
    all_space lead = true /\ all_space trail = true.
Proof.
  destruct (trimStart_split s) as (lead & E1 & H1).
  destruct (trimEnd_split (JS.trimStart s)) as (trail & E2 & H2).
  exists lead, trail. unfold JS.trim. rewrite <- E2, <- E1. auto.
Qed.

(** The lexer accepts no white space before the text but that of JSON. *)
Lemma lex_leading_space (lead s : string) (toks : list Json.token) :
  all_space lead = true -> Json.lex 0 (lead ++ s) = Some toks ->
  json_space lead = true.
Proof.
  induction lead as [|c r IH]; intros Hl H; [reflexivity|].
  simpl in Hl. apply andb_prop in Hl. destruct Hl as [Hc Hr].
  change ((String c r ++ s)%string) with (String c (r ++ s)) in H.
  destruct (Json.is_ws c) eqn:E.
  - cbn [Json.lex] in H. rewrite E in H. simpl. rewrite E. apply IH; assumption.
  - exfalso.
    destruct (space_cases c Hc) as [-> | [-> | [-> | [-> | [-> | ->]]]]];
      try discriminate E; vm_compute in H; discriminate H.
Qed.

Lemma emit_some (pre : string) (r : option (string * nat)) (t : string) (n : nat) :
  Json.emit pre r = Some (t, n) -> exists t' n', r = Some (t', n') /\ n = S n'.
Proof.
  destruct r as [[t' n']|]; simpl; [|discriminate].
  intros H. injection H as _ <-. eauto.
Qed.

Lemma cons_token_some (t : Json.token) (r : option (list Json.token))
      (toks : list Json.token) :
  Json.cons_token t r = Some toks -> exists toks', r = Some toks' /\ toks = t :: toks'.
Proof.
  destruct r as [toks'|]; simpl; [|discriminate]. intros H. injection H as <-. eauto.
Qed.

Lemma scan_string_blank (b : string) (st : Json.sstate) (pending : option N) :
  all_space b = true -> Json.scan_string st pending b = None.
Proof.
  revert st pending. induction b as [|c r IH]; intros st pending H; [reflexivity|].
  simpl in H. apply andb_prop in H. destruct H as [Hc Hr].
  destruct (space_cases c Hc) as [-> | [-> | [-> | [-> | [-> | ->]]]]];
    destruct st; cbn; rewrite ?(IH _ _ Hr); reflexivity.
Qed.

(** A string token does not end in the white space after the text. *)
Lemma scan_string_inside (r b : string) :
  all_space b = true ->
  forall st pending str len,
    Json.scan_string st pending (r ++ b) = Some (str, len) -> len <= String.length r.
Proof.
  intros Hb. induction r as [|c r IH]; intros st pending str len H.
  - simpl append in H. rewrite (scan_string_blank b st pending Hb) in H. discriminate H.
  - change ((String c r ++ b)%string) with (String c (r ++ b)) in H.
    cbn [Json.scan_string] in H. cbn [String.length].
    repeat match type of H with
           | Json.emit _ _ = Some _ =>
               apply emit_some in H; destruct H as (t' & n' & H & ->);
               apply IH in H
           | Some _ = Some _ => injection H as _ <-
           | None = Some _ => discriminate H
           | (if ?b then _ else _) = Some _ => destruct b
           | match ?x with _ => _ end = Some _ => destruct x
           end; lia.
Qed.

Lemma stop_facts (q : ascii) :
  number_char q = false ->
  JS.is_digit q = false /\ Ascii.eqb q "0" = false /\ Ascii.eqb q "." = false /\
  Ascii.eqb q "e" = false /\ Ascii.eqb q "E" = false /\
  Ascii.eqb "+" q = false /\ Ascii.eqb "-" q = false.
Proof.
  unfold number_char. intros H.
  repeat (apply orb_false_elim in H; let H' := fresh "H" in destruct H as [H H']).
  assert (Ascii.eqb q "0" = false) as Hz.
  { destruct (Ascii.eqb q "0") eqn:E; [|reflexivity].
    apply Ascii.eqb_eq in E. subst q. discriminate H. }
  repeat split; try assumption; rewrite Ascii.eqb_sym; assumption.
Qed.

Lemma digits_len_stop (a : string) (q : ascii) (t : string) :
  number_char q = false ->
  Json.digits_len (a ++ String q t) <= String.length a.
Proof.
  intros Hq. destruct (stop_facts q Hq) as (Hd & _).
  induction a as [|c r IH].
  - simpl. rewrite Hd. apply Nat.le_refl.
  - change ((String c r ++ String q t)%string) with (String c (r ++ String q t)).
    cbn [Json.digits_len String.length]. destruct (JS.is_digit c); lia.
Qed.

Lemma int_len_stop (a : string) (q : ascii) (t : string) (i : nat) :
  number_char q = false ->
  Json.int_len (a ++ String q t) = Some i -> i <= String.length a.
Proof.
  intros Hq. destruct (stop_facts q Hq) as (Hd & Hz & _).
  destruct a as [|c r].
  - simpl. rewrite Hz, Hd. discriminate.
  - change ((String c r ++ String q t)%string) with (String c (r ++ String q t)).
    cbn [Json.int_len String.length]. pose proof (digits_len_stop r q t Hq).
    destruct (Ascii.eqb c "0"); [intros E; injection E; lia|].
    destruct (JS.is_digit c); [intros E; injection E; lia | discriminate].
Qed.

Lemma frac_len_stop (a : string) (q : ascii) (t : string) (f : nat) :
  number_char q = false ->
  Json.frac_len (a ++ String q t) = Some f -> f <= String.length a.
Proof.
  intros Hq. destruct (stop_facts q Hq) as (Hd & _ & Hp & _).
  destruct a as [|c r].
  - simpl. rewrite Hp. intros E. injection E as <-. apply Nat.le_refl.
  - change ((String c r ++ String q t)%string) with (String c (r ++ String q t)).
    cbn [Json.frac_len String.length]. pose proof (digits_len_stop r q t Hq).
    destruct (Ascii.eqb c "."); [|intros E; injection E; lia].
    destruct (Json.digits_len (r ++ String q t));
      [discriminate | intros E; injection E; lia].
Qed.

Lemma exp_len_stop (a : string) (q : ascii) (t : string) (e : nat) :
  number_char q = false ->
  Json.exp_len (a ++ String q t) = Some e -> e <= String.length a.
Proof.
  intros Hq. destruct (stop_facts q Hq) as (Hd & _ & _ & He1 & He2 & Hplus & Hminus).
  destruct a as [|c r].
  - simpl. rewrite He1, He2. intros E. injection E as <-. apply Nat.le_refl.
  - change ((String c r ++ String q t)%string) with (String c (r ++ String q t)).
    cbn [Json.exp_len String.length].
    destruct (Ascii.eqb c "e" || Ascii.eqb c "E"); [|intros E; injection E; lia].
    destruct r as [|x r'].
    + cbn [append Json.starts_with]. rewrite Hplus, Hminus.
      cbn [orb JS.drop Json.digits_len]. rewrite Hd. discriminate.
    + change ((String x r' ++ String q t)%string) with (String x (r' ++ String q t)).
      cbn [Json.starts_with String.length].
      pose proof (digits_len_stop r' q t Hq) as H1.
      pose proof (digits_len_stop (String x r') q t Hq) as H2.
      change ((String x r' ++ String q t)%string)
        with (String x (r' ++ String q t)) in H2.
      cbn [String.length] in H2.
      destruct (Ascii.eqb "+" x || Ascii.eqb "-" x); cbn [JS.drop].
      * destruct (Json.digits_len (r' ++ String q t));
          [discriminate | intros E; injection E; lia].
      * destruct (Json.digits_len (String x (r' ++ String q t)));
          [discriminate | intros E; injection E; lia].
Qed.

(** A number token stops before a character that no number has. *)
Lemma scan_number_stop (a : string) (q : ascii) (t : string) (num : number) (n : nat) :
  number_char q = false ->
  Json.scan_number (a ++ String q t) = Some (num, n) ->
  n <= String.length a.
Proof.
  intros Hq. destruct (stop_facts q Hq) as (_ & _ & _ & _ & _ & _ & Hminus).
  set (b := String q t). unfold Json.scan_number.
  set (sign := if Json.starts_with "-" (a ++ b) then 1 else 0).
  assert (sign <= String.length a) as Hs.
  { subst sign b. destruct a as [|c r].
    - cbn [append Json.starts_with]. rewrite Hminus. apply Nat.le_refl.
    - cbn [append Json.starts_with String.length]. destruct (Ascii.eqb "-" c); lia. }
  rewrite (drop_append sign a b Hs).
  pose proof (length_drop sign a) as L1.
  destruct (Json.int_len (JS.drop sign a ++ b)) as [i|] eqn:Ei; [|discriminate].
  pose proof (int_len_stop _ _ _ _ Hq Ei) as Hi.
  rewrite (drop_append i _ b Hi).
  pose proof (length_drop i (JS.drop sign a)) as L2.
  destruct (Json.frac_len (JS.drop i (JS.drop sign a) ++ b)) as [f|] eqn:Ef; [|discriminate].
  pose proof (frac_len_stop _ _ _ _ Hq Ef) as Hf.
  rewrite (drop_append (i + f) _ b) by lia.
  pose proof (length_drop (i + f) (JS.drop sign a)) as L3.
  destruct (Json.exp_len (JS.drop (i + f) (JS.drop sign a) ++ b)) as [e|] eqn:Ee;
    [|discriminate].
  pose proof (exp_len_stop _ _ _ _ Hq Ee) as He.
  intros E. injection E as _ <-. lia.
Qed.

Lemma strip_prefix_inside (p a : string) (x : ascii) (t rest : string) :
  lacks x p ->
  JS.strip_prefix p (a ++ String x t) = Some rest ->
  String.length p <= String.length a.
Proof.
  revert a. induction p as [|y p' IH]; intros a Hl H; [simpl; lia|].
  unfold lacks in Hl. simpl in Hl.
  destruct (Ascii.eqb y x) eqn:Eyx; [discriminate Hl|]. simpl in Hl.
  destruct a as [|c a'].
  - simpl in H. rewrite Eyx in H. discriminate H.
  - simpl in H. destruct (Ascii.eqb y c); [|discriminate H].
    simpl. apply le_n_S. apply (IH a' Hl H).
Qed.

(** The lexer accepts no white space after the text but that of JSON. *)
Lemma lex_trailing_space (b : string) :
  all_space b = true ->
  forall a k toks,
    Json.lex k (a ++ b) = Some toks -> k <= String.length a ->
    json_space b = true.
Proof.
  intros Hb. destruct b as [|x t]; [reflexivity|].
  assert (JS.is_space x = true) as Hx by (simpl in Hb; apply andb_prop in Hb; apply Hb).
  pose proof (space_not_number x Hx) as Hq.
  induction a as [|c r IH]; intros k toks H Hk.
  - simpl in Hk. assert (k = 0) as -> by lia. simpl append in H.
    apply (lex_leading_space (String x t) EmptyString toks Hb).
    rewrite append_nil_r. exact H.
  - change ((String c r ++ String x t)%string) with (String c (r ++ String x t)) in H.
    simpl in Hk. destruct k as [|k]; [|cbn [Json.lex] in H; apply (IH k toks H); lia].
    assert (forall p rest, p = "true" \/ p = "false" \/ p = "null" ->
              JS.strip_prefix p (String c (r ++ String x t)) = Some rest ->
              String.length p <= S (String.length r)) as Hlit.
    { intros p rest Hp Hs.
      apply (strip_prefix_inside p (String c r) x t rest (space_lacks x p Hx Hp) Hs). }
    cbn [Json.lex] in H.
    destruct (Json.is_ws c); [apply (IH 0 toks H); lia|].
    repeat match type of H with
           | (if (JS.code c =? 34) then _ else _) = Some _ => fail 1
           | (if (JS.code c =? _) then _ else _) = Some _ =>
               destruct (JS.code c =? _);
               [apply cons_token_some in H; destruct H as (toks' & H & _);
                apply (IH 0 toks' H); lia|]
           end.
    destruct (JS.code c =? 34).
    { destruct (Json.scan_string Json.SPlain None (r ++ String x t))
        as [[str len]|] eqn:Es; [|discriminate H].
      apply cons_token_some in H. destruct H as (toks' & H & _).
      apply (IH len toks' H). exact (scan_string_inside r (String x t) Hb _ _ _ _ Es). }
    destruct ((JS.code c =? 45) || JS.is_digit c).
    { destruct (Json.scan_number (String c (r ++ String x t)))
        as [[num len]|] eqn:En; [|discriminate H].
      apply cons_token_some in H. destruct H as (toks' & H & _).
      pose proof (scan_number_stop (String c r) x t num len Hq En) as Hb'.
      simpl in Hb'. apply (IH (len - 1) toks' H). lia. }
    destruct (JS.strip_prefix "true" (String c (r ++ String x t))) as [r1|] eqn:E1.
    { apply cons_token_some in H. destruct H as (toks' & H & _).
      pose proof (Hlit "true" r1 (or_introl eq_refl) E1) as Hb'. simpl in Hb'.
      apply (IH 3 toks' H). lia. }
    destruct (JS.strip_prefix "false" (String c (r ++ String x t))) as [r2|] eqn:E2.
    { apply cons_token_some in H. destruct H as (toks' & H & _).
      pose proof (Hlit "false" r2 (or_intror (or_introl eq_refl)) E2) as Hb'. simpl in Hb'.
      apply (IH 4 toks' H). lia. }
    destruct (JS.strip_prefix "null" (String c (r ++ String x t))) as [r3|] eqn:E3;
      [|discriminate H].
    apply cons_token_some in H. destruct H as (toks' & H & _).
    pose proof (Hlit "null" r3 (or_intror (or_intror eq_refl)) E3) as Hb'. simpl in Hb'.
    apply (IH 3 toks' H). lia.
Qed.

(** What [trim] removes from a text that is valid JSON is JSON white
    space. *)
Lemma valid_json_trims (text : string) (v : value) :
  Json.JSON_parse text = Some v -> trims_json_space text.
Proof.
  unfold Json.JSON_parse. intros H.
  destruct (Json.lex 0 text) as [toks|] eqn:El; [|discriminate H].
  destruct (trim_split text) as (lead & trail & E & Hl & Ht).
  exists lead, trail. split; [exact E|]. split.
  - apply (lex_leading_space lead (JS.trim text ++ trail) toks Hl).
    rewrite <- E. exact El.
  - apply (lex_trailing_space trail Ht (lead ++ JS.trim text)%string 0 toks); [|lia].
    rewrite <- append_assoc, <- E. exact El.
Qed.

(** C10, amended: the two [parseData] agree on a text when its trimming
    is not valid JSON or what [trim] removes from it is JSON white space
    (spaces, tabs, line feeds and carriage returns), its trimming holds no
    script element, a JSON text has at most 1000 elements, and a delimited
    text (not valid JSON, two non-blank lines or more, a delimiter in the
    first) has at most 1000 data lines and no empty header name. *)
Theorem C10_viewers_agree_within_limits :
  forall text,
    Json.JSON_parse (JS.trim text) = None \/ trims_json_space text ->
    Production.sanitizeInput (JS.trim text) = JS.trim text ->
    (forall jsonData, Json.JSON_parse text = Some jsonData ->
                      length (array_of jsonData) <= Production.MAX_ROWS_DISPLAY) ->
    (Json.JSON_parse text = None ->
     2 <= length (hlines text) -> 0 < hcount text ->
     length (skipn 1 (hlines text)) <= Production.MAX_ROWS_DISPLAY /\
     Forall (fun h => h <> EmptyString) (hheaders text)) ->
    same_outcome (Production.parseData text) (Html.parseData text).
Proof.
  intros text Htrim Hs Hjson Hdel.
  assert (Json.JSON_parse (JS.trim text) = Json.JSON_parse text) as Ep.
  { assert (trims_json_space text -> Json.JSON_parse (JS.trim text) = Json.JSON_parse text)
      as Hsame.
    { intros (a & b & Ht & Ha & Hb). rewrite Ht at 2. symmetry.
      apply parse_between_space; assumption. }
    destruct (Json.JSON_parse text) as [j|] eqn:Ej.
    - apply Hsame. exact (valid_json_trims text j Ej).
    - destruct Htrim as [Hn | Ht]; [exact Hn|]. apply Hsame, Ht. }
  assert (sanitized text = JS.trim text) as Es by exact Hs.
  destruct (JS.truthy_string (JS.trim text)) eqn:Hbl.
  2:{ rewrite (production_null text Hbl), (html_null text Hbl). exact I. }
  destruct (Json.JSON_parse text) as [j|] eqn:Ej.
  - rewrite (production_json text j) by (rewrite Es; exact Ep).
    rewrite (html_json text j Ej Hbl). cbn [same_outcome data type]. split; [reflexivity|].
    apply firstn_all2. apply Hjson. reflexivity.
  - assert (plines text = hlines text) as El.
    { unfold plines, hlines. rewrite Es. reflexivity. }
    assert (pline text = hline text) as E0 by (unfold pline, hline; rewrite El; reflexivity).
    assert (pbest text = hbest text) as Eb by (unfold pbest, hbest; rewrite E0; reflexivity).
    assert (pcount text = hcount text) as Ec by (unfold pcount, hcount; rewrite E0; reflexivity).
    rewrite (production_delimited text) by (rewrite ?Es; assumption).
    rewrite (html_delimited text Ej Hbl).
    rewrite El, Ec, Eb.
    destruct ((1 <? length (hlines text)) && (0 <? hcount text)) eqn:Ed;
      [|cbn [andb same_outcome]; exact I].
    apply andb_prop in Ed. destruct Ed as [Hl Hc].
    apply Nat.ltb_lt in Hl. apply Nat.ltb_lt in Hc.
    destruct (Hdel eq_refl Hl Hc) as [Hrows Hnames].
    assert (pheaders text = hheaders text) as Eh.
    { unfold pheaders, Production.headers_of. rewrite Eb, E0.
      apply filter_all. exact Hnames. }
    rewrite Eh. cbn [andb].
    destruct (1 <? length (hheaders text)); cbn [same_outcome data type]; [|exact I].
    split; [reflexivity|]. f_equal. apply firstn_all2. exact Hrows.
Qed.

Lemma C10_witness :
  same_outcome (Production.parseData (names_ages ++ lf))
               (Html.parseData (names_ages ++ lf)) /\
  same_outcome (Production.parseData two_objects) (Html.parseData two_objects) /\
  same_outcome (Production.parseData tabbed_csv) (Html.parseData tabbed_csv).
Proof.
  split; [|split].
  - apply (C10_viewers_agree_within_limits (names_ages ++ lf)%string).
    + right. exists EmptyString, lf. repeat split.
    + reflexivity.
    + intros j H. discriminate H.
    + intros _ _ _. split; [vm_compute; lia | repeat constructor; discriminate].
  - apply (C10_viewers_agree_within_limits two_objects).
    + right. exists EmptyString, EmptyString. repeat split.
    + reflexivity.
    + intros j H. vm_compute in H. injection H as <-. vm_compute. lia.
    + intros H. discriminate H.
  - apply (C10_viewers_agree_within_limits tabbed_csv).
    + left. reflexivity.
    + reflexivity.
    + intros j H. discriminate H.
    + intros _ _ _. split; [vm_compute; lia | repeat constructor; discriminate].
Defined.

(** A request that is still unanswered at the deadline is aborted: the
    handler ends at the deadline with the time-out message, the processing
    flag is cleared and the repair button is offered and enabled again. *)
Lemma repair_times_out (net : Repair.service) (s : Repair.viewer) :
  Repair.isApiKeyValid s = true ->
  JS.truthy_string (JS.trim (Repair.inputData s)) = true ->
  Repair.fetch net = Repair.Pending \/
  (exists t outcome, Repair.fetch net = Repair.After t outcome /\ (Repair.DEADLINE <= t)%N) ->
  let s' := Repair.setIsProcessing false
              (Repair.setError Repair.timed_out (Repair.setIsProcessing true s)) in
  Repair.correctDataWithGemini true net = Repair.Throws Repair.DEADLINE Repair.timed_out /\
  Repair.handleAICorrection net s = Repair.Finished Repair.DEADLINE s' /\
  Repair.repair_offered s' = true /\
  Repair.repair_disabled s' = false.
Proof.
  intros Hkey Hin Hnet s'.
  assert (Repair.correctDataWithGemini true net
          = Repair.Throws Repair.DEADLINE Repair.timed_out) as Hc.
  { unfold Repair.correctDataWithGemini. simpl negb. cbv iota.
    destruct Hnet as [-> | (t & outcome & -> & Hle)]; [reflexivity|].
    apply N.ltb_ge in Hle. rewrite Hle. reflexivity. }
  split; [exact Hc | split; [|split]].
  - unfold Repair.handleAICorrection. rewrite Hin, Hkey, Hc. reflexivity.
  - unfold Repair.repair_offered. subst s'. cbn [Repair.error Repair.inputData
      Repair.setIsProcessing Repair.setError]. rewrite Hin. reflexivity.
  - unfold Repair.repair_disabled, Repair.isApiKeyValid in *. subst s'.
    cbn [Repair.isProcessing Repair.apiKey Repair.setIsProcessing Repair.setError].
    rewrite Hkey. reflexivity.
Qed.

(** C9, the code on a response whose body stalls: the timer was cleared
    when the head arrived, so nothing aborts the call; it never settles,
    the processing flag stays set and the repair button stays disabled.
    With a body that takes a minute the call ends after 61 seconds with an
    answer and not with a time-out. *)
Theorem C9_stalled_body_is_not_cancelled :
  Repair.isApiKeyValid failed_parse = true /\
  Repair.correctDataWithGemini true stalled_body = Repair.Unsettled /\
  Repair.handleAICorrection stalled_body failed_parse
    = Repair.Waiting (Repair.setIsProcessing true failed_parse) /\
  Repair.repair_disabled (Repair.setIsProcessing true failed_parse) = true /\
  Repair.correctDataWithGemini true slow_body = Repair.Returns 61000 "a,b".
Proof. repeat split. Qed.

(** ** The columns memo *)

Lemma object_keys_null (row : value) : Object_keys row = None <-> row = JNull.
Proof. destruct row; simpl; split; intros H; congruence. Qed.

Lemma add_keys_spec (data : list value) (acc cols : list string) :
  add_keys acc data = Some cols ->
  NoDup acc ->
  NoDup cols /\
  forall k, In k cols <->
            In k acc \/
            exists row ks, In row data /\ Object_keys row = Some ks /\ In k ks.
Proof.
  revert acc. induction data as [|row rest IH]; intros acc H Hnd; simpl in H.
  - injection H as <-. split; [exact Hnd|]. intros k. split; [auto|].
    intros [Hk | (row & ks & [] & _)]. exact Hk.
  - destruct (Object_keys row) as [ks|] eqn:Ek; [|discriminate].
    destruct (IH _ H (fold_set_add_NoDup ks acc Hnd)) as [Hn Hiff].
    split; [exact Hn|]. intros k. rewrite Hiff, fold_set_add_In. split.
    + intros [[Hk|Hk] | (row' & ks' & Hin & Hk' & Hk)].
      * left. exact Hk.
      * right. exists row, ks. simpl. auto.
      * right. exists row', ks'. simpl. auto.
    + intros [Hk | (row' & ks' & [<-|Hin] & Hk' & Hk)].
      * left. left. exact Hk.
      * left. right. congruence.
      * right. exists row', ks'. auto.
Qed.

(** X1: when the columns memo succeeds, no column is listed twice and the
    columns are exactly the property names found on the rows: none is
    missed and none is invented. *)
Theorem X1_columns_are_the_union_of_keys :
  forall data cols,
    columns data = Some cols ->
    NoDup cols /\
    forall k, In k cols <->
              exists row ks, In row data /\ Object_keys row = Some ks /\ In k ks.
Proof.
  intros data cols H. destruct data as [|row rest].
  - injection H as <-. split; [constructor|]. intros k. split; [intros []|].
    intros (row & ks & [] & _).
  - unfold columns in H. destruct (add_keys_spec _ _ _ H (NoDup_nil _)) as [Hn Hiff].
    split; [exact Hn|]. intros k. rewrite Hiff. split; [|auto].
    intros [[]|Hk]. exact Hk.
Qed.

Lemma X1_witness :
  NoDup ["a"; "b"] /\
  forall k, In k ["a"; "b"] <->
            exists row ks, In row (data two_objects_result) /\
                           Object_keys row = Some ks /\ In k ks.
Proof. apply (X1_columns_are_the_union_of_keys (data two_objects_result)). reflexivity. Defined.

Lemma add_keys_none (data : list value) (acc : list string) :
  add_keys acc data = None <-> In JNull data.
Proof.
  revert acc. induction data as [|row rest IH]; intros acc; simpl.
  - split; [discriminate | intros []].
  - destruct (Object_keys row) as [ks|] eqn:Ek.
    + rewrite IH. split; [auto|]. intros [->|H]; [discriminate | exact H].
    + apply object_keys_null in Ek. subst. split; auto.
Qed.

(** X2: computing the columns throws exactly when some element of the data
    is null; every other JSON value, scalar or not, is accepted as a row. *)
Theorem X2_columns_throw_on_null_only :
  forall data, columns data = None <-> In JNull data.
Proof.
  intros [|row rest]; [simpl; split; [discriminate | intros []]|].
  unfold columns. apply add_keys_none.
Qed.

(** ** Sorting *)

Lemma insert_perm (dir : DataTable.direction) (x : string * value)
      (l : list (string * value)) :
  Permutation (DataTable.insert dir x l) (x :: l).
Proof.
  induction l as [|y r IH]; simpl; [apply Permutation_refl|].
  destruct (DataTable.comparator dir (fst x) (fst y) <=? 0)%Z; [apply Permutation_refl|].
  apply Permutation_trans with (y :: x :: r); [apply perm_skip, IH | apply perm_swap].
Qed.

Lemma sort_perm (dir : DataTable.direction) (l : list (string * value)) :
  Permutation (DataTable.sort dir l) l.
Proof.
  induction l as [|x r IH]; simpl; [apply Permutation_refl|].
  apply Permutation_trans with (x :: DataTable.sort dir r);
    [apply insert_perm | apply perm_skip, IH].
Qed.

Lemma keyed_rows (column : string) (data : list value) (l : list (string * value)) :
  DataTable.keyed column data = Some l ->
  map snd l = data /\
  Forall (fun p => DataTable.sort_key column (snd p) = Some (fst p)) l.
Proof.
  revert l. induction data as [|row rest IH]; intros l H; simpl in H.
  - injection H as <-. split; [reflexivity | constructor].
  - destruct (DataTable.sort_key column row) as [k|] eqn:Ek; [|discriminate].
    destruct (DataTable.keyed column rest) as [l'|]; [|discriminate].
    injection H as <-. destruct (IH l' eq_refl) as [Hm Hf].
    split; [simpl; rewrite Hm; reflexivity | constructor; [exact Ek | exact Hf]].
Qed.

Lemma sorted_data_perm (s : DataTable.state) (data sorted : list value) :
  DataTable.sortedData s data = Some sorted -> Permutation sorted data.
Proof.
  intros H. unfold DataTable.sortedData in H.
  destruct (JS.is_empty (DataTable.sortColumn s)).
  - injection H as <-. apply Permutation_refl.
  - destruct (DataTable.keyed (DataTable.sortColumn s) data) as [l|] eqn:Ek; [|discriminate].
    injection H as <-. destruct (keyed_rows _ _ _ Ek) as [<- _].
    apply Permutation_map, sort_perm.
Qed.

Lemma keyed_some (column : string) (data : list value) :
  (forall row, In row data -> cell row column <> None) ->
  exists l, DataTable.keyed column data = Some l.
Proof.
  induction data as [|row rest IH]; intros H; [exists []; reflexivity|].
  destruct IH as [l Hl]; [intros r Hr; apply H; right; exact Hr|].
  simpl. rewrite Hl. unfold DataTable.sort_key.
  destruct (cell row column) as [t|] eqn:E.
  - eexists. reflexivity.
  - exfalso. apply (H row); [left; reflexivity | exact E].
Qed.

(** The sort returns whenever it can run. *)
Lemma sortable_sorts (s : DataTable.state) (data : list value) :
  sortable s data -> exists sorted, DataTable.sortedData s data = Some sorted.
Proof.
  intros [H|H]; unfold DataTable.sortedData.
  - rewrite H. eexists. reflexivity.
  - destruct (JS.is_empty (DataTable.sortColumn s)); [eexists; reflexivity|].
    destruct (keyed_some _ _ H) as [l ->]. eexists. reflexivity.
Qed.

(** X3: sorting loses and adds no row.  Whenever every cell under the sort
    column has a text, or no column is chosen, the sort returns, and the
    sorted data is a rearrangement of the data, of the same length. *)
Theorem X3_sorting_rearranges :
  forall s data,
    sortable s data ->
    exists sorted,
      DataTable.sortedData s data = Some sorted /\
      Permutation sorted data /\ length sorted = length data.
Proof.
  intros s data Hs. destruct (sortable_sorts s data Hs) as [sorted H].
  exists sorted. pose proof (sorted_data_perm s data sorted H) as Hp.
  split; [exact H | split; [exact Hp | apply Permutation_length, Hp]].
Qed.

Lemma X3_witness :
  exists sorted,
    DataTable.sortedData by_price prices = Some sorted /\
    Permutation sorted prices /\ length sorted = length prices.
Proof.
  apply (X3_sorting_rearranges by_price prices).
  right. intros row [<- | [<- | [<- | []]]]; vm_compute; discriminate.
Defined.

Lemma comparator_le (dir : DataTable.direction) (a b : string) :
  (DataTable.comparator dir a b <=? 0)%Z = true <-> in_order dir a b.
Proof.
  unfold DataTable.comparator, in_order, String.ltb, String.leb.
  rewrite (String.compare_antisym b a).
  destruct dir, (String.compare a b); simpl; split; intros H;
    try reflexivity; try discriminate H.
Qed.

Lemma in_order_total (dir : DataTable.direction) (a b : string) :
  in_order dir a b \/ in_order dir b a.
Proof. destruct dir; simpl; [apply String.leb_total | apply or_comm, String.leb_total]. Qed.

Section SortOrder.

Variable dir : DataTable.direction.

Let R (p q : string * value) : Prop := in_order dir (fst p) (fst q).

Lemma insert_hdrel (a x : string * value) (l : list (string * value)) :
  HdRel R a l -> R a x -> HdRel R a (DataTable.insert dir x l).
Proof.
  intros Hl Hx. destruct l as [|y r]; simpl; [constructor; exact Hx|].
  destruct (DataTable.comparator dir (fst x) (fst y) <=? 0)%Z.
  - constructor. exact Hx.
  - constructor. inversion Hl. assumption.
Qed.

Lemma insert_sorted (x : string * value) (l : list (string * value)) :
  Sorted R l -> Sorted R (DataTable.insert dir x l).
Proof.
  induction 1 as [|y r Hs IH Hh]; simpl; [repeat constructor|].
  destruct (DataTable.comparator dir (fst x) (fst y) <=? 0)%Z eqn:E.
  - constructor; [constructor; assumption|]. constructor. apply comparator_le, E.
  - constructor; [exact IH|]. apply insert_hdrel; [exact Hh|].
    destruct (in_order_total dir (fst y) (fst x)) as [H|H]; [exact H|].
    apply comparator_le in H. congruence.
Qed.

Lemma sort_sorted (l : list (string * value)) : Sorted R (DataTable.sort dir l).
Proof.
  induction l as [|x r IH]; simpl; [constructor | apply insert_sorted, IH].
Qed.

Lemma sorted_rows (column : string) (l : list (string * value)) :
  Sorted R l ->
  Forall (fun p => DataTable.sort_key column (snd p) = Some (fst p)) l ->
  Sorted (rows_in_order column dir) (map snd l).
Proof.
  induction 1 as [|y r Hs IH Hh]; intros Hf; simpl; [constructor|].
  inversion Hf as [|? ? Hy Hr]; subst. constructor; [apply IH, Hr|].
  destruct Hh as [|z r' Hz]; simpl; constructor.
  inversion Hr; subst. exists (fst y), (fst z). auto.
Qed.

End SortOrder.

(** X4: once a column is chosen and every cell under it has a text, the
    sort returns the rows in the order asked: each row's lower-cased cell
    text is at most the next one's when ascending, at least the next one's
    when descending.  Numbers are compared by their texts: 0.50 prints as
    0.5 and 1e1 as 10, and 1.5 comes before 10. *)
Theorem X4_sorted_data_is_in_order :
  forall s data,
    sortable s data ->
    DataTable.sortColumn s <> EmptyString ->
    exists sorted,
      DataTable.sortedData s data = Some sorted /\
      Sorted (rows_in_order (DataTable.sortColumn s) (DataTable.sortDirection s)) sorted.
Proof.
  intros s data Hs Hc. destruct (sortable_sorts s data Hs) as [sorted H].
  exists sorted. split; [exact H|]. unfold DataTable.sortedData in H.
  destruct (DataTable.sortColumn s) as [|c col] eqn:Ecol; [contradiction|].
  simpl JS.is_empty in H. cbv iota in H.
  destruct (DataTable.keyed (String c col) data) as [l|] eqn:Ek; [|discriminate].
  injection H as <-. destruct (keyed_rows _ _ _ Ek) as [_ Hf].
  apply sorted_rows; [apply sort_sorted|].
  apply (Permutation_Forall (Permutation_sym (sort_perm _ l))). exact Hf.
Qed.

Lemma X4_witness :
  exists sorted,
    DataTable.sortedData by_price prices = Some sorted /\
    Sorted (rows_in_order "p" DataTable.Asc) sorted.
Proof.
  apply (X4_sorted_data_is_in_order by_price prices); [|discriminate].
  right. intros row [<- | [<- | [<- | []]]]; vm_compute; discriminate.
Defined.

(** ** Pages *)

Lemma size_positive (r : DataTable.page_size) : 0 < DataTable.size_of r.
Proof. destruct r; simpl; lia. Qed.

Lemma firstn_add {A : Type} (a b : nat) (l : list A) :
  firstn (a + b) l = firstn a l ++ firstn b (skipn a l).
Proof.
  revert l. induction a as [|a IH]; intros l; simpl; [reflexivity|].
  destruct l as [|x r]; simpl; [rewrite firstn_nil; reflexivity|].
  rewrite IH. reflexivity.
Qed.

Lemma chunks_firstn {A : Type} (n t : nat) (l : list A) :
  concat (map (fun p => firstn n (skipn (p * n) l)) (seq 0 t)) = firstn (t * n) l.
Proof.
  induction t as [|t IH]; [reflexivity|].
  rewrite seq_S, map_app, concat_app, IH. simpl.
  rewrite app_nil_r, (Nat.add_comm n), firstn_add. reflexivity.
Qed.

Lemma pages_cover (n len : nat) : 0 < n -> len <= (len + n - 1) / n * n.
Proof.
  intros Hn. pose proof (Nat.div_mod_eq (len + n - 1) n) as Hd.
  pose proof (Nat.mod_upper_bound (len + n - 1) n) as Hm. nia.
Qed.

(** X5: the pages 1 to [totalPages], one after the other, are the sorted
    data: every row is on exactly one page and the order is kept. *)
Theorem X5_pages_partition_the_rows :
  forall s sorted,
    concat (map (fun p => DataTable.paginatedData (at_page p s) sorted)
                (seq 1 (DataTable.totalPages s sorted)))
    = sorted.
Proof.
  intros s sorted. rewrite <- seq_shift, map_map.
  unfold at_page, DataTable.paginatedData, DataTable.setCurrentPage. simpl.
  rewrite chunks_firstn. apply firstn_all2.
  unfold DataTable.totalPages. apply pages_cover, size_positive.
Qed.

Lemma pages_before_last (n len p : nat) :
  0 < n -> S p < (len + n - 1) / n -> S p * n <= len.
Proof.
  intros Hn Hp. pose proof (Nat.div_mod_eq (len + n - 1) n) as Hd.
  pose proof (Nat.mod_upper_bound (len + n - 1) n) as Hm. nia.
Qed.

Lemma last_page_start (n len p : nat) :
  0 < n -> S p <= (len + n - 1) / n -> p * n < len.
Proof.
  intros Hn Hp. pose proof (Nat.div_mod_eq (len + n - 1) n) as Hd.
  pose proof (Nat.mod_upper_bound (len + n - 1) n) as Hm. nia.
Qed.

(** X6: a page never holds more rows than the page size; every page before
    the last holds exactly that many, the last page holds at least one, and
    a page past the last is empty. *)
Theorem X6_page_sizes :
  forall s sorted p,
    let n := DataTable.size_of (DataTable.rowsPerPage s) in
    let rows := DataTable.paginatedData (at_page p s) sorted in
    length rows <= n /\
    (1 <= p -> p < DataTable.totalPages s sorted -> length rows = n) /\
    (1 <= p -> p = DataTable.totalPages s sorted -> 1 <= length rows) /\
    (DataTable.totalPages s sorted < p -> rows = []).
Proof.
  intros s sorted p n rows. subst rows.
  unfold at_page, DataTable.paginatedData, DataTable.setCurrentPage,
    DataTable.totalPages. simpl. fold n.
  pose proof (size_positive (DataTable.rowsPerPage s)) as Hn. fold n in Hn.
  destruct p as [|p].
  - simpl. repeat split; try lia.
  - rewrite length_firstn, length_skipn. repeat split.
    + lia.
    + intros _ Hp. pose proof (pages_before_last n (length sorted) p Hn Hp). nia.
    + intros _ Hp. pose proof (last_page_start n (length sorted) p Hn). nia.
    + intros Hp. apply length_zero_iff_nil. rewrite length_firstn, length_skipn.
      pose proof (pages_cover n (length sorted) Hn). nia.
Qed.

Lemma X6_witness :
  1 <= length (DataTable.paginatedData (at_page 1 by_name) (data two_objects_result)).
Proof.
  pose proof (X6_page_sizes by_name (data two_objects_result) 1) as (_ & _ & H & _).
  apply H; [lia | reflexivity].
Defined.

Lemma totalPages_at_page (p : nat) (s : DataTable.state) (sorted : list value) :
  DataTable.totalPages (DataTable.setCurrentPage p s) sorted
  = DataTable.totalPages s sorted.
Proof. reflexivity. Qed.

(** X7: while the data stay the same the handlers keep the current page
    among the pages: Previous keeps it so, Next keeps it so while the page
    controls are shown, and choosing a sort column or a page size goes back
    to page 1.  The component keeps its state when it is given other data:
    if these have fewer pages than the current page, no row is shown, and
    with one page or none there are no page controls either. *)
Theorem X7_page_kept_by_handlers_not_by_new_data :
  forall s sorted,
    page_in_range s sorted ->
    page_in_range (DataTable.previous s) sorted /\
    (DataTable.controls_shown s sorted = true ->
     page_in_range (DataTable.next sorted s) sorted) /\
    (forall column sorted', page_in_range (DataTable.handleSort column s) sorted') /\
    (forall r sorted', page_in_range (DataTable.changeRows r s) sorted') /\
    (forall sorted',
        DataTable.totalPages s sorted' < DataTable.currentPage s ->
        DataTable.paginatedData s sorted' = [] /\
        (sorted' <> [] -> ~ page_in_range s sorted') /\
        (DataTable.totalPages s sorted' <= 1 ->
         DataTable.controls_shown s sorted' = false)).
Proof.
  intros s sorted [H1 H2]. unfold page_in_range. split; [|split; [|split; [|split]]].
  - unfold DataTable.previous. rewrite totalPages_at_page.
    set (t := DataTable.totalPages s sorted) in *.
    cbn [DataTable.currentPage DataTable.setCurrentPage]. lia.
  - unfold DataTable.controls_shown. intros Hc. apply Nat.ltb_lt in Hc.
    unfold DataTable.next. rewrite totalPages_at_page.
    set (t := DataTable.totalPages s sorted) in *.
    cbn [DataTable.currentPage DataTable.setCurrentPage]. lia.
  - intros column sorted'. unfold DataTable.handleSort.
    destruct (String.eqb (DataTable.sortColumn s) column);
      cbn [DataTable.currentPage]; lia.
  - intros r sorted'. cbn [DataTable.currentPage DataTable.changeRows]. lia.
  - intros sorted' Hlt. split; [|split].
    + unfold DataTable.paginatedData.
      destruct (DataTable.currentPage s) as [|p] eqn:Ep; [reflexivity|].
      apply length_zero_iff_nil. rewrite length_firstn, length_skipn.
      unfold DataTable.totalPages in Hlt.
      pose proof (size_positive (DataTable.rowsPerPage s)) as Hn.
      pose proof (pages_cover (DataTable.size_of (DataTable.rowsPerPage s))
                              (length sorted') Hn). nia.
    + intros Hne [_ Hr].
      assert (1 <= DataTable.totalPages s sorted') as Ht.
      { unfold DataTable.totalPages.
        pose proof (size_positive (DataTable.rowsPerPage s)) as Hn.
        destruct sorted' as [|x l]; [contradiction|]. simpl length.
        apply Nat.div_le_lower_bound; lia. }
      lia.
    + intros Hle. unfold DataTable.controls_shown. apply Nat.ltb_ge. exact Hle.
Qed.

Lemma X7_witness :
  page_in_range third_page (repeat JNull 150) /\
  page_in_range (DataTable.previous third_page) (repeat JNull 150) /\
  DataTable.paginatedData third_page (repeat JNull 10) = [] /\
  ~ page_in_range third_page (repeat JNull 10) /\
  DataTable.controls_shown third_page (repeat JNull 10) = false.
Proof.
  assert (page_in_range third_page (repeat JNull 150)) as H
      by (unfold page_in_range; vm_compute; lia).
  pose proof (X7_page_kept_by_handlers_not_by_new_data third_page (repeat JNull 150) H)
    as (Hp & _ & _ & _ & Hd).
  destruct (Hd (repeat JNull 10)) as (He & Hn & Hc); [vm_compute; lia|].
  split; [exact H | split; [exact Hp | split; [exact He | split]]].
  - apply Hn. discriminate.
  - apply Hc. vm_compute. lia.
Defined.

Lemma production_at_most_cap (text : string) (r : parsed) :
  Production.parseData text = Parsed r ->
  length (data r) <= Production.MAX_ROWS_DISPLAY.
Proof.
  intros Hp. destruct (Json.JSON_parse (sanitized text)) as [j|] eqn:Ej.
  - rewrite (production_json text j Ej) in Hp.
    assert (data r = firstn Production.MAX_ROWS_DISPLAY (array_of j)) as ->
        by (injection Hp as <-; reflexivity).
    apply firstn_le_length.
  - destruct (production_rows text r Ej Hp) as (_ & _ & _ & ->).
    cbn [data]. rewrite length_map. apply firstn_le_length.
Qed.

(** X8: a result of the production [parseData] never has more than 1000
    rows, so in whatever order the table shows them, the table's notice of
    truncation, which is shown for more than 1000 rows, is never shown. *)
Theorem X8_truncation_notice_never_shows :
  forall text r,
    Production.parseData text = Parsed r ->
    length (data r) <= 1000 /\
    forall shown, Permutation shown (data r) ->
                  DataTable.notice_shown shown = false.
Proof.
  intros text r Hp. pose proof (production_at_most_cap text r Hp) as Hle.
  split; [exact Hle|]. intros shown Hs.
  pose proof (Permutation_length Hs) as Hlen.
  unfold DataTable.notice_shown. apply Nat.ltb_ge.
  unfold Production.MAX_ROWS_DISPLAY in *. lia.
Qed.

Lemma X8_witness :
  length (data two_objects_result) <= 1000 /\
  DataTable.notice_shown
    [JObj [("b", JNum (NInt 2))]; JObj [("a", JNum (NInt 1))]] = false.
Proof.
  destruct (X8_truncation_notice_never_shows two_objects two_objects_result eq_refl)
    as [H1 H2].
  split; [exact H1|]. apply H2. apply perm_swap.
Defined.

(** ** The sanitizer *)

Lemma prefix_ci_other (p : string) (c : ascii) (r : string) :
  Ascii.eqb c lt_sign = false ->
  JS.strip_prefix_ci (String lt_sign p) (String c r) = None.
Proof.
  destruct c as [[] [] [] [] [] [] [] []]; intros H;
    try discriminate H; reflexivity.
Qed.

Lemma script_len_other (c : ascii) (r : string) :
  Ascii.eqb c lt_sign = false -> Production.script_len (String c r) = None.
Proof.
  intros H. unfold Production.script_len.
  change (JS.strip_prefix_ci "<script" (String c r))
    with (JS.strip_prefix_ci (String lt_sign "script") (String c r)).
  rewrite (prefix_ci_other _ c r H). reflexivity.
Qed.

Lemma close_len_other (c : ascii) (r : string) :
  Ascii.eqb c lt_sign = false ->
  Production.close_len (String c r) = option_map S (Production.close_len r).
Proof.
  intros H.
  change (Production.close_len (String c r))
    with (match JS.strip_prefix_ci (String lt_sign "/script>") (String c r) with
          | Some _ => Some 9
          | None => option_map S (Production.close_len r)
          end).
  rewrite (prefix_ci_other _ c r H). reflexivity.
Qed.

Lemma no_lt_cons (c : ascii) (r : string) :
  no_lt (String c r) -> Ascii.eqb c lt_sign = false /\ no_lt r.
Proof.
  unfold no_lt. simpl. destruct (Ascii.eqb c lt_sign); simpl; intros H; [discriminate|auto].
Qed.

(** The scan copies a stretch without a less-than sign. *)
Lemma strip_scripts_plain (a rest : string) :
  no_lt a ->
  Production.strip_scripts 0 (a ++ rest) = (a ++ Production.strip_scripts 0 rest)%string.
Proof.
  induction a as [|c r IH]; intros H; [reflexivity|].
  destruct (no_lt_cons c r H) as [Hc Hr].
  change ((String c r ++ rest)%string) with (String c (r ++ rest)).
  simpl Production.strip_scripts. rewrite (script_len_other c _ Hc), IH by exact Hr.
  reflexivity.
Qed.

Lemma strip_scripts_skip (x rest : string) :
  Production.strip_scripts (String.length x) (x ++ rest)
  = Production.strip_scripts 0 rest.
Proof. induction x as [|c r IH]; simpl; [destruct rest; reflexivity | exact IH]. Qed.

Lemma close_len_plain (inner rest : string) :
  no_lt inner ->
  Production.close_len (inner ++ "</script>" ++ rest)
  = Some (String.length inner + 9).
Proof.
  induction inner as [|c r IH]; intros H; [reflexivity|].
  destruct (no_lt_cons c r H) as [Hc Hr].
  change ((String c r ++ "</script>" ++ rest)%string)
    with (String c (r ++ "</script>" ++ rest)).
  rewrite (close_len_other c _ Hc), IH by exact Hr. reflexivity.
Qed.

(** X9: a text without any less-than sign goes through the sanitizer
    unchanged. *)
Theorem X9_plain_text_is_not_altered :
  forall text, no_lt text -> Production.sanitizeInput text = text.
Proof.
  intros text H. unfold Production.sanitizeInput.
  rewrite <- (append_nil_r text) at 1. rewrite (strip_scripts_plain text EmptyString H).
  simpl. apply append_nil_r.
Qed.

Lemma X9_witness : Production.sanitizeInput names_ages = names_ages.
Proof. apply X9_plain_text_is_not_altered. reflexivity. Defined.

(** X10: a script element is removed with all that it holds: after a
    stretch without a less-than sign, the opening tag (with or without
    attributes), a content without a less-than sign and the closing tag
    disappear, and the scan goes on behind them. *)
Theorem X10_script_element_is_removed :
  forall before c inner rest,
    no_lt before ->
    JS.is_word c = false ->
    no_lt (String c inner) ->
    Production.sanitizeInput
      (before ++ "<script" ++ String c inner ++ "</script>" ++ rest)
    = (before ++ Production.sanitizeInput rest)%string.
Proof.
  intros before c inner rest Hb Hc Hi. unfold Production.sanitizeInput.
  rewrite (strip_scripts_plain before _ Hb). f_equal.
  change (("<script" ++ String c inner ++ "</script>" ++ rest)%string)
    with (String lt_sign ("script" ++ String c inner ++ "</script>" ++ rest)).
  assert (Production.script_len
            (String lt_sign ("script" ++ String c inner ++ "</script>" ++ rest))
          = Some (7 + (String.length (String c inner) + 9))) as E.
  { unfold Production.script_len.
    change (JS.strip_prefix_ci "<script"
              (String lt_sign ("script" ++ String c inner ++ "</script>" ++ rest)))
      with (Some (String c (inner ++ "</script>" ++ rest))).
    cbv iota. rewrite Hc.
    change (String c (inner ++ "</script>" ++ rest))
      with ((String c inner ++ "</script>" ++ rest)%string).
    rewrite (close_len_plain _ rest Hi). reflexivity. }
  change (Production.strip_scripts 0
            (String lt_sign ("script" ++ String c inner ++ "</script>" ++ rest)))
    with (match Production.script_len
                  (String lt_sign ("script" ++ String c inner ++ "</script>" ++ rest))
          with
          | Some n => Production.strip_scripts (n - 1)
                        ("script" ++ String c inner ++ "</script>" ++ rest)
          | None => String lt_sign
                      (Production.strip_scripts 0
                         ("script" ++ String c inner ++ "</script>" ++ rest))
          end).
  rewrite E.
  replace (7 + (String.length (String c inner) + 9) - 1)
    with (String.length ("script" ++ String c inner ++ "</script>"))
    by (rewrite !length_append; simpl; lia).
  replace (("script" ++ String c inner ++ "</script>" ++ rest)%string)
    with ((("script" ++ String c inner ++ "</script>") ++ rest)%string)
    by (simpl; rewrite <- !append_assoc; reflexivity).
  apply strip_scripts_skip.
Qed.

Lemma X10_witness :
  Production.sanitizeInput scripted_text = ("a,b" ++ lf ++ "1,2")%string.
Proof.
  change scripted_text
    with ("a,b" ++ "<script" ++ String " " "src='x'>alert(1)" ++ "</script>"
                ++ (lf ++ "1,2"))%string.
  rewrite X10_script_element_is_removed; reflexivity.
Defined.

(** X11: the sanitizer makes one pass, so a script element can come out of
    it: when an opening tag is cut in two by a whole, empty script element,
    removing that element joins the two halves, and the tag, its content
    and its closing tag are returned. *)
Theorem X11_split_tag_survives :
  forall content,
    no_lt content ->
    Production.sanitizeInput
      ("<scr" ++ "<script></script>" ++ "ipt>" ++ content ++ "</script>")
    = ("<script>" ++ content ++ "</script>")%string.
Proof.
  intros content H. unfold Production.sanitizeInput.
  change (Production.strip_scripts 0
            ("<scr" ++ "<script></script>" ++ "ipt>" ++ content ++ "</script>"))
    with ("<scr" ++ "ipt>" ++ Production.strip_scripts 0 (content ++ "</script>"))%string.
  rewrite (strip_scripts_plain content _ H). reflexivity.
Qed.

Lemma X11_witness :
  Production.sanitizeInput
    ("<scr" ++ "<script></script>" ++ "ipt>" ++ "alert(1)" ++ "</script>")
  = "<script>alert(1)</script>".
Proof. apply (X11_split_tag_survives "alert(1)"). reflexivity. Defined.

(** ** The answer of the service *)

Lemma trimEnd_last (a : string) (q : ascii) :
  JS.is_space q = false ->
  JS.trimEnd (a ++ String q EmptyString) = (a ++ String q EmptyString)%string.
Proof.
  intros Hq. induction a as [|c r IH]; simpl.
  - rewrite Hq. reflexivity.
  - rewrite IH. rewrite is_empty_app_one, andb_false_r. reflexivity.
Qed.

Lemma trimEnd_idem (s : string) : JS.trimEnd (JS.trimEnd s) = JS.trimEnd s.
Proof.
  induction s as [|c r IH]; simpl; [reflexivity|].
  destruct (JS.is_space c && JS.is_empty (JS.trimEnd r)) eqn:E; [reflexivity|].
  simpl. rewrite IH, E. reflexivity.
Qed.

Lemma trimStart_head (s : string) :
  JS.trimStart s = EmptyString \/
  exists c r, JS.trimStart s = String c r /\ JS.is_space c = false.
Proof.
  induction s as [|c r IH]; simpl; [left; reflexivity|].
  destruct (JS.is_space c) eqn:E; [exact IH|]. right. exists c, r. auto.
Qed.

Lemma trimEnd_cons (c : ascii) (r : string) :
  JS.is_space c = false -> JS.trimEnd (String c r) = String c (JS.trimEnd r).
Proof. intros H. simpl. rewrite H. reflexivity. Qed.

Lemma trimStart_cons (c : ascii) (r : string) :
  JS.is_space c = false -> JS.trimStart (String c r) = String c r.
Proof. intros H. simpl. rewrite H. reflexivity. Qed.

(** Trimming twice is trimming once. *)
Lemma trim_idem (s : string) : JS.trim (JS.trim s) = JS.trim s.
Proof.
  unfold JS.trim. destruct (trimStart_head s) as [E | (c & r & E & Hc)]; rewrite E.
  - reflexivity.
  - rewrite (trimEnd_cons c r Hc), (trimStart_cons c _ Hc), (trimEnd_cons c _ Hc).
    rewrite trimEnd_idem. reflexivity.
Qed.

(** A text that begins and ends with characters other than white space is
    its own trimming. *)
Lemma trim_fixed (c q : ascii) (mid : string) :
  JS.is_space c = false -> JS.is_space q = false ->
  JS.trim (String c (mid ++ String q EmptyString))
  = String c (mid ++ String q EmptyString).
Proof.
  intros Hc Hq. unfold JS.trim. rewrite (trimStart_cons c _ Hc).
  change (String c (mid ++ String q EmptyString))
    with ((String c mid ++ String q EmptyString)%string).
  apply trimEnd_last, Hq.
Qed.

Lemma drop_word_app (lang rest : string) :
  all_word lang = true ->
  Repair.drop_word (lang ++ String nl rest) = String nl rest.
Proof.
  induction lang as [|c r IH]; simpl; intros H; [reflexivity|].
  apply andb_prop in H. destruct H as [Hc Hr]. rewrite Hc. apply IH, Hr.
Qed.

Lemma strip_close_cons (c : ascii) (r : string) :
  Repair.strip_close (String c r)
  = if String.eqb (String c r) (String nl fence) || String.eqb (String c r) fence
    then EmptyString else String c (Repair.strip_close r).
Proof. reflexivity. Qed.

Lemma strip_close_fenced (body : string) :
  Repair.strip_close (body ++ String nl fence) = body.
Proof.
  induction body as [|c r IH]; [reflexivity|].
  change ((String c r ++ String nl fence)%string) with (String c (r ++ String nl fence)).
  assert (forall t, String.length t < 5 ->
                    String.eqb (String c (r ++ String nl fence)) t = false) as Hne.
  { intros t Ht. apply String.eqb_neq. intros E.
    apply (f_equal String.length) in E. simpl in E. rewrite length_append in E.
    simpl in E. lia. }
  rewrite strip_close_cons.
  rewrite (Hne (String nl fence)) by (simpl; lia).
  rewrite (Hne fence) by (simpl; lia).
  simpl orb. cbv iota. rewrite IH. reflexivity.
Qed.

(** X12: an answer wrapped in a code fence is unwrapped: the opening
    fence with its language word, the closing fence and the two line feeds
    next to them are removed, and what is between is trimmed. *)
Theorem X12_fenced_answer_is_unwrapped :
  forall lang body,
    all_word lang = true ->
    Repair.clean_answer (fence ++ lang ++ String nl (body ++ String nl fence))
    = JS.trim body.
Proof.
  intros lang body Hl. unfold Repair.clean_answer.
  assert (JS.trim (fence ++ lang ++ String nl (body ++ String nl fence))
          = (fence ++ lang ++ String nl (body ++ String nl fence))%string) as ->.
  { change ((fence ++ lang ++ String nl (body ++ String nl fence))%string)
      with (String backtick
              ("``" ++ lang ++ String nl (body ++ String nl "``" ++ String backtick EmptyString))).
    replace ("``" ++ lang ++ String nl (body ++ String nl "``" ++ String backtick EmptyString))%string
      with (("``" ++ lang ++ String nl (body ++ String nl "``")) ++ String backtick EmptyString)%string.
    - apply trim_fixed; reflexivity.
    - simpl. rewrite <- append_assoc. simpl. rewrite <- append_assoc. reflexivity. }
  assert (Repair.strip_open (fence ++ lang ++ String nl (body ++ String nl fence))
          = (body ++ String nl fence)%string) as ->.
  { unfold Repair.strip_open.
    change (JS.strip_prefix "```" (fence ++ lang ++ String nl (body ++ String nl fence)))
      with (Some (lang ++ String nl (body ++ String nl fence))%string).
    cbv iota. rewrite (drop_word_app lang _ Hl). rewrite Ascii.eqb_refl. reflexivity. }
  rewrite strip_close_fenced. reflexivity.
Qed.

Lemma X12_witness :
  Repair.clean_answer (fence ++ "json" ++ String nl ("[1, 2] " ++ String nl fence))
  = "[1, 2]".
Proof. apply (X12_fenced_answer_is_unwrapped "json" "[1, 2] "). reflexivity. Defined.

Lemma count_trimStart (q : ascii) (s : string) :
  JS.count_matches q (JS.trimStart s) <= JS.count_matches q s.
Proof.
  induction s as [|c r IH]; simpl; [lia|].
  destruct (JS.is_space c); simpl; lia.
Qed.

Lemma count_trimEnd (q : ascii) (s : string) :
  JS.count_matches q (JS.trimEnd s) <= JS.count_matches q s.
Proof.
  induction s as [|c r IH]; simpl; [lia|].
  destruct (JS.is_space c && JS.is_empty (JS.trimEnd r)); simpl; lia.
Qed.

Lemma count_trim (q : ascii) (s : string) :
  JS.count_matches q s = 0 -> JS.count_matches q (JS.trim s) = 0.
Proof.
  intros H. unfold JS.trim.
  pose proof (count_trimEnd q (JS.trimStart s)). pose proof (count_trimStart q s). lia.
Qed.

Lemma count_cons_zero (q c : ascii) (r : string) :
  JS.count_matches q (String c r) = 0 ->
  Ascii.eqb c q = false /\ JS.count_matches q r = 0.
Proof. simpl. destruct (Ascii.eqb c q); simpl; intros H; [discriminate | auto]. Qed.

Lemma strip_open_plain (s : string) :
  JS.count_matches backtick s = 0 -> Repair.strip_open s = s.
Proof.
  intros H. unfold Repair.strip_open. destruct s as [|c r]; [reflexivity|].
  destruct (count_cons_zero _ _ _ H) as [Hc _].
  change (JS.strip_prefix "```" (String c r))
    with (if Ascii.eqb backtick c then JS.strip_prefix "``" r else None).
  rewrite Ascii.eqb_sym, Hc. reflexivity.
Qed.

Lemma strip_close_plain (s : string) :
  JS.count_matches backtick s = 0 -> Repair.strip_close s = s.
Proof.
  induction s as [|c r IH]; intros H; [reflexivity|].
  destruct (count_cons_zero _ _ _ H) as [Hc Hr].
  rewrite strip_close_cons.
  assert (String.eqb (String c r) (String nl fence) = false) as E1.
  { apply String.eqb_neq. intros E. rewrite E in H. discriminate H. }
  assert (String.eqb (String c r) fence = false) as E2.
  { apply String.eqb_neq. intros E. rewrite E in H. discriminate H. }
  rewrite E1, E2, (IH Hr). reflexivity.
Qed.

(** X13: an answer without any backtick has nothing to unwrap and is
    returned trimmed, and nothing more. *)
Theorem X13_plain_answer_is_trimmed :
  forall text,
    JS.count_matches backtick text = 0 ->
    Repair.clean_answer text = JS.trim text.
Proof.
  intros text H. unfold Repair.clean_answer.
  pose proof (count_trim backtick text H) as Ht.
  rewrite (strip_open_plain _ Ht), (strip_close_plain _ Ht). apply trim_idem.
Qed.

Lemma X13_witness : Repair.clean_answer "  a,b  " = "a,b".
Proof. apply (X13_plain_answer_is_trimmed "  a,b  "). reflexivity. Defined.

(** ** The repair handler *)

Lemma rethrow_other (m : string) : Repair.rethrow (Repair.OtherError m) <> Repair.timed_out.
Proof. simpl. unfold Repair.timed_out. discriminate. Qed.

Lemma throws_message (a b : N) (m m' : string) :
  Repair.Throws a m = Repair.Throws b m' -> a = b /\ m = m'.
Proof. intros H. injection H. auto. Qed.

Lemma after_response_not_timeout (t t' : N) (r : Repair.response) :
  Repair.after_response t r <> Repair.Throws t' Repair.timed_out.
Proof.
  unfold Repair.after_response. destruct (Repair.json r) as [d rd|]; [|discriminate].
  destruct (negb (Repair.ok r)).
  - intros E. apply throws_message in E. exact (rethrow_other _ (proj2 E)).
  - destruct rd as [b|m].
    + destruct (Repair.candidates b); intros E; try discriminate E;
        apply throws_message in E; exact (rethrow_other _ (proj2 E)).
    + intros E. apply throws_message in E. exact (rethrow_other _ (proj2 E)).
Qed.

(** X14: the time-out message is raised exactly when the key is valid and
    the head of the response has not arrived when the timer fires, and it
    is raised at the deadline, 30 seconds after the start. *)
Theorem X14_time_out_exactly_on_late_head :
  forall keyValid net t,
    Repair.correctDataWithGemini keyValid net = Repair.Throws t Repair.timed_out <->
    keyValid = true /\ t = 30000%N /\
    (Repair.fetch net = Repair.Pending \/
     exists t' outcome, Repair.fetch net = Repair.After t' outcome /\ (30000 <= t')%N).
Proof.
  intros keyValid net t. unfold Repair.correctDataWithGemini. split.
  - destruct keyValid; simpl negb; cbv iota;
      [|intros H; apply throws_message in H; destruct H as [_ H]; discriminate H].
    destruct (Repair.fetch net) as [t' outcome|].
    + destruct (t' <? Repair.DEADLINE)%N eqn:E.
      * destruct outcome as [r|m]; intros H.
        -- exfalso. exact (after_response_not_timeout _ _ _ H).
        -- apply throws_message in H. exfalso. exact (rethrow_other _ (proj2 H)).
      * intros H. apply throws_message in H. destruct H as [<- _].
        apply N.ltb_ge in E.
        split; [reflexivity | split; [reflexivity|]]. right. exists t', outcome. auto.
    + intros H. apply throws_message in H. destruct H as [<- _]. auto.
  - intros (-> & -> & [-> | (t' & outcome & -> & Hle)]); simpl negb; cbv iota.
    + reflexivity.
    + apply N.ltb_ge in Hle. unfold Repair.DEADLINE. rewrite Hle. reflexivity.
Qed.

(** X15: a repair on a non-blank text either finishes, and then the
    processing flag is cleared, or waits for ever with the flag set; it
    waits for ever exactly when the key is valid, the head of the response
    arrived before the deadline and its body never completes. *)
Theorem X15_flag_cleared_unless_body_stalls :
  forall net s,
    JS.truthy_string (JS.trim (Repair.inputData s)) = true ->
    (forall t s', Repair.handleAICorrection net s = Repair.Finished t s' ->
                  Repair.isProcessing s' = false) /\
    (forall s', Repair.handleAICorrection net s = Repair.Waiting s' ->
                s' = Repair.setIsProcessing true s) /\
    ((exists s', Repair.handleAICorrection net s = Repair.Waiting s') <->
     Repair.isApiKeyValid s = true /\
     exists t r, Repair.fetch net = Repair.After t (Repair.Response r) /\
                 (t < 30000)%N /\ Repair.json r = Repair.Pending).
Proof.
  intros net s Hin. unfold Repair.handleAICorrection. rewrite Hin. simpl negb. cbv iota.
  split; [|split].
  - intros t s'.
    destruct (Repair.correctDataWithGemini (Repair.isApiKeyValid s) net) as [t0 txt|t0 m|];
      [|intros H; injection H as _ <-; reflexivity | discriminate].
    destruct (Production.parseData txt); intros H; injection H as _ <-; reflexivity.
  - intros s'.
    destruct (Repair.correctDataWithGemini (Repair.isApiKeyValid s) net) as [t0 txt|t0 m|];
      [| discriminate | intros H; injection H as <-; reflexivity].
    destruct (Production.parseData txt); discriminate.
  - assert (Repair.correctDataWithGemini (Repair.isApiKeyValid s) net = Repair.Unsettled <->
            Repair.isApiKeyValid s = true /\
            exists t r, Repair.fetch net = Repair.After t (Repair.Response r) /\
                        (t < 30000)%N /\ Repair.json r = Repair.Pending) as Hu.
    { unfold Repair.correctDataWithGemini. split.
      - destruct (Repair.isApiKeyValid s); simpl negb; cbv iota; [|discriminate].
        destruct (Repair.fetch net) as [t outcome|]; [|discriminate].
        destruct (t <? Repair.DEADLINE)%N eqn:E; [|discriminate].
        destruct outcome as [r|m]; [|discriminate].
        intros H. split; [reflexivity|]. exists t, r. apply N.ltb_lt in E.
        split; [reflexivity | split; [exact E|]].
        unfold Repair.after_response in H.
        destruct (Repair.json r) as [d rd|]; [|reflexivity].
        destruct (negb (Repair.ok r)); [discriminate|].
        destruct rd as [b|m]; [destruct (Repair.candidates b)|]; discriminate.
      - intros (-> & t & r & -> & Hlt & Hj). simpl negb. cbv iota.
        apply N.ltb_lt in Hlt. unfold Repair.DEADLINE. rewrite Hlt.
        unfold Repair.after_response. rewrite Hj. reflexivity. }
    rewrite <- Hu.
    destruct (Repair.correctDataWithGemini (Repair.isApiKeyValid s) net) as [t0 txt|t0 m|].
    + split; [|discriminate]. intros [s' H].
      destruct (Production.parseData txt); discriminate.
    + split; [|discriminate]. intros [s' H]. discriminate.
    + split; [reflexivity|]. intros _. eexists. reflexivity.
Qed.

Lemma X15_witness :
  exists s', Repair.handleAICorrection stalled_body failed_parse = Repair.Waiting s'.
Proof.
  pose proof (X15_flag_cleared_unless_body_stalls stalled_body failed_parse eq_refl)
    as (_ & _ & H).
  apply H. split; [reflexivity|].
  eexists _, _. split; [reflexivity|]. split; reflexivity.
Defined.

(** ** Editing, loading and repairing *)





Lemma view_handleDataChange (value : string) (p : Page.page) :
  Page.view (Page.handleDataChange value p) = Page.edit value (Page.view p).
Proof.
  unfold Page.handleDataChange.
  destruct (negb (JS.truthy_string (JS.trim value))); [reflexivity|].
  destruct (Production.parseData value); reflexivity.
Qed.




(** The handler in two steps, with the page left alone in between, is
    the handler run at once. *)
Lemma repair_is_the_handler (net : Repair.service) (p : Page.page) :
  option_map Page.view (Page.repair net p)
  = match Repair.handleAICorrection net (Page.view p) with
    | Repair.Finished _ s => Some s
    | Repair.Waiting _ => None
    end.
Proof.
  unfold Page.repair, Repair.handleAICorrection, Page.call.
  destruct (negb (JS.truthy_string (JS.trim (Repair.inputData (Page.view p)))));
    [reflexivity|].
  unfold Page.resume.
  destruct (Repair.correctDataWithGemini (Repair.isApiKeyValid (Page.view p)) net)
    as [t txt|t m|]; [|reflexivity|reflexivity].
  destruct (Production.parseData txt); reflexivity.
Qed.




Lemma handleDataChange_name (value name : string) (p : Page.page) :
  Page.handleDataChange value (Page.setFileName name p) = Page.handleDataChange value p.
Proof. reflexivity. Qed.

(** X17: loading a file is editing with its text, apart from the toast.
    An upload above 10 MiB changes nothing; any other leaves the state that
    typing the content would leave, with a toast that announces the file as
    loaded successfully, whether or not its content parses.  In particular
    the file name is empty afterwards, because the edit handler clears the
    name that the load handler has just set. *)
Theorem X17_file_load_is_an_edit_and_loses_the_name :
  forall f p,
    ((10485760 < Page.size f)%N -> Page.handleFileUpload f p = p) /\
    ((Page.size f <= 10485760)%N ->
     Page.handleFileUpload f p
       = Page.showToast (Page.loaded_message (Page.name f)) Page.success
                        (Page.handleDataChange (Page.content f) p) /\
     Page.view (Page.handleFileUpload f p) = Page.edit (Page.content f) (Page.view p) /\
     Page.fileName (Page.handleFileUpload f p) = EmptyString /\
     Page.toast (Page.handleFileUpload f p)
       = Some {| Page.message := Page.loaded_message (Page.name f);
                 Page.kind := Page.success |}).
Proof.
  intros f p. unfold Page.handleFileUpload. split; intros H.
  - apply N.ltb_lt in H. change Page.MAX_FILE_SIZE with 10485760%N. rewrite H. reflexivity.
  - apply N.ltb_ge in H. change Page.MAX_FILE_SIZE with 10485760%N. rewrite H.
    unfold Page.handleFileLoad. rewrite handleDataChange_name.
    split; [reflexivity | split; [|split; [|reflexivity]]].
    + cbn [Page.view Page.showToast]. apply view_handleDataChange.
    + cbn [Page.fileName Page.showToast]. unfold Page.handleDataChange.
      destruct (negb (JS.truthy_string (JS.trim (Page.content f)))); [reflexivity|].
      destruct (Production.parseData (Page.content f)); reflexivity.
Qed.

Lemma X17_witness :
  Page.handleFileUpload small_file blank_page
    = Page.showToast (Page.loaded_message "people.csv") Page.success
                     (Page.handleDataChange names_ages blank_page) /\
  Page.view (Page.handleFileUpload small_file blank_page)
    = Page.edit names_ages (Page.view blank_page) /\
  Page.fileName (Page.handleFileUpload small_file blank_page) = EmptyString /\
  Page.toast (Page.handleFileUpload small_file blank_page)
    = Some {| Page.message := Page.loaded_message "people.csv";
              Page.kind := Page.success |}.
Proof.
  apply (X17_file_load_is_an_edit_and_loses_the_name small_file blank_page).
  vm_compute. discriminate.
Defined.

(** ** When the text is refused *)

(** X18: on a non-blank text the production viewer throws exactly when the
    trimmed text without its script elements is not valid JSON and has
    fewer than 2 non-blank lines, no delimiter in its first non-blank line,
    or fewer than 2 non-empty header names.  The standalone page throws
    exactly when the text as given is not valid JSON and its trimming has
    fewer than 2 non-blank lines or no delimiter in its first non-blank
    line: its tests on the numbers of headers and of rows never fail. *)
Theorem X18_refused_texts :
  (forall text,
      JS.truthy_string (JS.trim text) = true ->
      (Production.parseData text = Thrown Production.unrecognized <->
       Json.JSON_parse (sanitized text) = None /\
       (length (plines text) < 2 \/ pcount text = 0 \/ length (pheaders text) < 2))) /\
  (forall text,
      JS.truthy_string (JS.trim text) = true ->
      (Html.parseData text = Thrown Html.unrecognized <->
       Json.JSON_parse text = None /\
       (length (hlines text) < 2 \/ hcount text = 0))).
Proof.
  split; intros text Hb.
  - destruct (Json.JSON_parse (sanitized text)) as [j|] eqn:Ej.
    + rewrite (production_json text j Ej). split; [discriminate | intros [H _]; discriminate H].
    + rewrite (production_delimited text Ej Hb).
      destruct (Nat.ltb_spec 1 (length (plines text)));
        destruct (Nat.ltb_spec 0 (pcount text));
        destruct (Nat.ltb_spec 1 (length (pheaders text))); simpl andb; cbv iota;
        (split; [intros Ht; first [discriminate Ht | split; [reflexivity | lia]]
                | intros [_ Ht]; first [reflexivity | exfalso; lia]]).
  - destruct (Json.JSON_parse text) as [j|] eqn:Ej.
    + rewrite (html_json text j Ej Hb). split; [discriminate | intros [H _]; discriminate H].
    + rewrite (html_delimited text Ej Hb). pose proof (hheaders_length text) as Hh.
      destruct (Nat.ltb_spec 1 (length (hlines text)));
        destruct (Nat.ltb_spec 0 (hcount text));
        destruct (Nat.ltb_spec 1 (length (hheaders text))); simpl andb; cbv iota;
        (split; [intros Ht; first [discriminate Ht | split; [reflexivity | lia]]
                | intros [_ Ht]; first [reflexivity | exfalso; lia]]).
Qed.

Lemma X18_witness :
  Production.parseData one_header_text = Thrown Production.unrecognized /\
  Html.parseData one_header_text <> Thrown Html.unrecognized.
Proof.
  pose proof X18_refused_texts as [Hp Hh]. split.
  - apply (Hp one_header_text); [reflexivity|].
    split; [reflexivity | right; right; vm_compute; lia].
  - intros E. apply (Hh one_header_text) in E; [|reflexivity].
    destruct E as [_ [E|E]]; vm_compute in E; [lia | discriminate E].
Defined.

(** ** Export and reading back *)

Lemma count_append (c : ascii) (a b : string) :
  JS.count_matches c (a ++ b) = JS.count_matches c a + JS.count_matches c b.
Proof. induction a as [|x r IH]; simpl; [reflexivity | rewrite IH; lia]. Qed.

Lemma lacks_append (c : ascii) (a b : string) :
  lacks c a -> lacks c b -> lacks c (a ++ b).
Proof. unfold lacks. intros Ha Hb. rewrite count_append. lia. Qed.

Lemma lacks_join (c : ascii) (sep : string) (l : list string) :
  lacks c sep -> Forall (lacks c) l -> lacks c (Csv.join sep l).
Proof.
  intros Hs. induction 1 as [|x r Hx Hr IH]; [reflexivity|].
  destruct r as [|y r']; [exact Hx|].
  change (Csv.join sep (x :: y :: r')) with ((x ++ sep ++ Csv.join sep (y :: r'))%string).
  apply lacks_append; [exact Hx | apply lacks_append; [exact Hs | exact IH]].
Qed.

Lemma split_lacks (c : ascii) (s : string) : lacks c s -> JS.split c s = [s].
Proof.
  induction s as [|x r IH]; intros H; [reflexivity|].
  destruct (count_cons_zero _ _ _ H) as [Hx Hr]. simpl. rewrite Hx, (IH Hr). reflexivity.
Qed.

Lemma split_append (c : ascii) (a rest : string) :
  lacks c a -> JS.split c (a ++ String c rest) = a :: JS.split c rest.
Proof.
  induction a as [|x r IH]; intros H.
  - simpl. rewrite Ascii.eqb_refl. reflexivity.
  - destruct (count_cons_zero _ _ _ H) as [Hx Hr]. simpl. rewrite Hx, (IH Hr). reflexivity.
Qed.

(** Joining with a character and splitting at it gives the pieces back. *)
Lemma split_join (c : ascii) (l : list string) :
  l <> [] -> Forall (lacks c) l ->
  JS.split c (Csv.join (String c EmptyString) l) = l.
Proof.
  intros Hne H. induction H as [|x r Hx Hr IH]; [contradiction|].
  destruct r as [|y r']; [apply split_lacks, Hx|].
  change (Csv.join (String c EmptyString) (x :: y :: r'))
    with ((x ++ String c (Csv.join (String c EmptyString) (y :: r')))%string).
  rewrite (split_append c x _ Hx), IH by discriminate. reflexivity.
Qed.

Lemma count_join (c : ascii) (l : list string) :
  l <> [] -> Forall (lacks c) l ->
  JS.count_matches c (Csv.join (String c EmptyString) l) = length l - 1.
Proof.
  intros Hne H. rewrite <- (split_join c l Hne H) at 2.
  rewrite split_length. lia.
Qed.

Lemma is_quote_eqb (c : ascii) :
  is_quote c = Ascii.eqb c dquote || Ascii.eqb c squote.
Proof. destruct c as [[] [] [] [] [] [] [] []]; reflexivity. Qed.

Lemma code_dquote (c : ascii) : (JS.code c =? 34) = Ascii.eqb c dquote.
Proof. destruct c as [[] [] [] [] [] [] [] []]; reflexivity. Qed.

Lemma dequote_from_plain (b : bool) (s : string) :
  lacks dquote s -> lacks squote s -> dequote_from b s = s.
Proof.
  revert b. induction s as [|c r IH]; intros b Hd Hs; [reflexivity|].
  destruct (count_cons_zero _ _ _ Hd) as [Hc1 Hr1].
  destruct (count_cons_zero _ _ _ Hs) as [Hc2 Hr2].
  simpl. rewrite is_quote_eqb, Hc1, Hc2. simpl. rewrite (IH false Hr1 Hr2). reflexivity.
Qed.

Lemma double_quotes_plain (v : string) : lacks dquote v -> Csv.double_quotes v = v.
Proof.
  induction v as [|c r IH]; intros H; [reflexivity|].
  destruct (count_cons_zero _ _ _ H) as [Hc Hr].
  simpl. rewrite code_dquote, Hc, (IH Hr). reflexivity.
Qed.

Lemma length_trimStart (s : string) : String.length (JS.trimStart s) <= String.length s.
Proof. induction s as [|c r IH]; simpl; [lia|]. destruct (JS.is_space c); simpl; lia. Qed.

Lemma length_trimEnd (s : string) : String.length (JS.trimEnd s) <= String.length s.
Proof.
  induction s as [|c r IH]; simpl; [lia|].
  destruct (JS.is_space c && JS.is_empty (JS.trimEnd r)); simpl; lia.
Qed.

(** A text that is its own trimming does not begin with white space. *)
Lemma trimmed_head (c : ascii) (r : string) :
  JS.trim (String c r) = String c r -> JS.is_space c = false.
Proof.
  intros H. destruct (JS.is_space c) eqn:E; [|reflexivity]. exfalso.
  apply (f_equal String.length) in H. unfold JS.trim in H. simpl in H. rewrite E in H.
  pose proof (length_trimEnd (JS.trimStart r)). pose proof (length_trimStart r). lia.
Qed.

Lemma nonblank_head (c : ascii) (r : string) :
  JS.is_space c = false -> JS.truthy_string (JS.trim (String c r)) = true.
Proof.
  intros H. unfold JS.trim. rewrite (trimStart_cons c r H), (trimEnd_cons c r H). reflexivity.
Qed.

Lemma clean_name (col : string) : plain_name col -> clean col = col.
Proof.
  intros (_ & _ & Ht & _ & _ & _ & _ & _ & Hd & Hs & _). unfold clean. rewrite Ht.
  apply dequote_from_plain; assumption.
Qed.

Lemma csv_field_plain (v : string) :
  plain_cell v -> Csv.csv_field v = String dquote (v ++ String dquote EmptyString).
Proof.
  intros (_ & _ & Hd & _). unfold Csv.csv_field. rewrite (double_quotes_plain v Hd).
  reflexivity.
Qed.

Lemma clean_field (v : string) : plain_cell v -> clean (Csv.csv_field v) = v.
Proof.
  intros H. rewrite (csv_field_plain v H). unfold clean.
  rewrite trim_fixed by reflexivity. apply dequote_surrounded; reflexivity.
Qed.

Lemma count_cons (c x : ascii) (r : string) :
  JS.count_matches c (String x r)
  = (if Ascii.eqb x c then 1 else 0) + JS.count_matches c r.
Proof. reflexivity. Qed.

Lemma lacks_field (c : ascii) (v : string) :
  Ascii.eqb dquote c = false -> plain_cell v -> lacks c v -> lacks c (Csv.csv_field v).
Proof.
  intros Hc H Hv. rewrite (csv_field_plain v H). unfold lacks in *.
  rewrite count_cons, Hc, count_append, Hv, count_cons, Hc. reflexivity.
Qed.

(** The fields of an exported line are the cell texts. *)
Lemma fields_of_line (vs : list string) :
  vs <> [] -> Forall plain_cell vs ->
  fields Comma (Csv.join "," (map Csv.csv_field vs)) = vs.
Proof.
  intros Hne H. unfold fields.
  change (JS.split (char_of Comma) (Csv.join "," (map Csv.csv_field vs)))
    with (JS.split (char_of Comma)
            (Csv.join (String (char_of Comma) EmptyString) (map Csv.csv_field vs))).
  rewrite split_join.
  - rewrite map_map. rewrite <- (map_id vs) at 2. apply map_ext_in.
    intros v Hv. apply clean_field. rewrite Forall_forall in H. apply H, Hv.
  - destruct vs; [contradiction | discriminate].
  - apply Forall_map. apply (Forall_impl _ (P := plain_cell)); [|exact H].
    intros v Hv. apply lacks_field; [reflexivity | exact Hv | apply Hv].
Qed.

(** The fields of the exported header line are the column names. *)
Lemma fields_of_header (cols : list string) :
  cols <> [] -> Forall plain_name cols ->
  fields Comma (Csv.join "," cols) = cols.
Proof.
  intros Hne H. unfold fields.
  change (JS.split (char_of Comma) (Csv.join "," cols))
    with (JS.split (char_of Comma) (Csv.join (String (char_of Comma) EmptyString) cols)).
  rewrite split_join.
  - rewrite <- (map_id cols) at 2. apply map_ext_in.
    intros c Hc. apply clean_name. rewrite Forall_forall in H. apply H, Hc.
  - exact Hne.
  - apply (Forall_impl _ (P := plain_name)); [|exact H]. intros c Hc. apply Hc.
Qed.

Lemma ends_append (q : ascii) (a b : string) : ends_with q b -> ends_with q (a ++ b).
Proof. intros [x ->]. exists (a ++ x)%string. apply append_assoc. Qed.

Lemma ends_join (q : ascii) (sep : string) (l : list string) :
  l <> [] -> Forall (ends_with q) l -> ends_with q (Csv.join sep l).
Proof.
  intros Hne H. induction H as [|x r Hx Hr IH]; [contradiction|].
  destruct r as [|y r']; [exact Hx|].
  change (Csv.join sep (x :: y :: r')) with ((x ++ sep ++ Csv.join sep (y :: r'))%string).
  apply ends_append, ends_append, IH. discriminate.
Qed.

Lemma begins_append (a b : string) : begins_solid a -> begins_solid (a ++ b).
Proof. intros (c & r & -> & H). exists c, (r ++ b)%string. auto. Qed.

Lemma begins_join (sep : string) (x : string) (l : list string) :
  begins_solid x -> begins_solid (Csv.join sep (x :: l)).
Proof.
  intros H. destruct l as [|y r]; [exact H|].
  change (Csv.join sep (x :: y :: r)) with ((x ++ sep ++ Csv.join sep (y :: r))%string).
  apply begins_append, H.
Qed.

Lemma begins_nonblank (s : string) :
  begins_solid s -> JS.truthy_string (JS.trim s) = true.
Proof. intros (c & r & -> & H). apply nonblank_head, H. Qed.

(** A text that begins with a solid character and ends with a quotation
    mark is its own trimming. *)
Lemma trim_solid (s : string) : begins_solid s -> ends_with dquote s -> JS.trim s = s.
Proof.
  intros (c & r & -> & Hc) [a Ha]. unfold JS.trim. rewrite (trimStart_cons c r Hc).
  rewrite Ha. apply trimEnd_last. reflexivity.
Qed.

Lemma field_begins (v : string) : plain_cell v -> begins_solid (Csv.csv_field v).
Proof. intros H. rewrite (csv_field_plain v H). eexists _, _. split; reflexivity. Qed.

Lemma field_ends (v : string) : plain_cell v -> ends_with dquote (Csv.csv_field v).
Proof.
  intros H. rewrite (csv_field_plain v H).
  exists (String dquote v). reflexivity.
Qed.

Lemma name_begins (col : string) : plain_name col -> begins_solid col.
Proof.
  intros (Hne & _ & Ht & _). destruct col as [|c r]; [contradiction|].
  exists c, r. split; [reflexivity | exact (trimmed_head c r Ht)].
Qed.

Lemma line_begins (vs : list string) :
  vs <> [] -> Forall plain_cell vs -> begins_solid (exported_line vs).
Proof.
  intros Hne H. destruct vs as [|v r]; [contradiction|]. inversion H; subst.
  unfold exported_line. simpl map. apply begins_join, field_begins. assumption.
Qed.

Lemma line_ends (vs : list string) :
  vs <> [] -> Forall plain_cell vs -> ends_with dquote (exported_line vs).
Proof.
  intros Hne H. unfold exported_line. apply ends_join.
  - destruct vs; [contradiction | discriminate].
  - apply Forall_map. apply (Forall_impl _ (P := plain_cell)); [|exact H].
    intros v. apply field_ends.
Qed.

Lemma line_lacks (c : ascii) (vs : list string) :
  Ascii.eqb dquote c = false -> lacks c "," ->
  Forall plain_cell vs -> Forall (lacks c) vs -> lacks c (exported_line vs).
Proof.
  intros Hq Hs Hp Hc. unfold exported_line. apply lacks_join; [exact Hs|].
  apply Forall_map. rewrite Forall_forall in *. intros v Hv.
  apply lacks_field; auto.
Qed.

Lemma header_lacks (c : ascii) (cols : list string) :
  lacks c "," -> Forall (lacks c) cols -> lacks c (Csv.join "," cols).
Proof. intros Hs H. apply lacks_join; assumption. Qed.

(** The winner on a line with commas and no other candidate. *)
Lemma sniff_commas (line : string) (k : nat) :
  count Comma line = S k -> count Tab line = 0 -> count Pipe line = 0 ->
  count Semicolon line = 0 ->
  sniff line = (Comma, S k).
Proof.
  intros Hc Ht Hp Hs. unfold sniff, delimiters. simpl fold_left. unfold better.
  rewrite Hc, Ht, Hp, Hs. reflexivity.
Qed.

Lemma strip_prefix_some (p s r : string) :
  JS.strip_prefix p s = Some r -> s = (p ++ r)%string.
Proof.
  revert s. induction p as [|a p' IH]; intros s H; simpl in H.
  - injection H as ->. reflexivity.
  - destruct s as [|b s']; [discriminate|].
    destruct (Ascii.eqb a b) eqn:E; [|discriminate].
    apply Ascii.eqb_eq in E. subst b. simpl. f_equal. apply IH, H.
Qed.


Lemma lex_skipped (s : string) (k : nat) :
  String.length s <= k -> Json.lex k s = Some [].
Proof.
  revert k. induction s as [|c r IH]; intros k H; [reflexivity|].
  simpl in H. destruct k as [|k]; [lia|]. cbn [Json.lex]. apply IH. lia.
Qed.

Lemma ends_tail (q c : ascii) (r : string) :
  ends_with q (String c r) -> r <> EmptyString -> ends_with q r.
Proof.
  intros [a Ha] Hr. destruct a as [|x a']; simpl in Ha.
  - injection Ha as _ E. contradiction.
  - injection Ha as _ ->. exists a'. reflexivity.
Qed.

Lemma ends_count (q : ascii) (s : string) :
  ends_with q s -> 1 <= JS.count_matches q s.
Proof.
  intros [a ->]. rewrite count_append. simpl. rewrite Ascii.eqb_refl. lia.
Qed.

(** A string token ends inside the text, at its closing quotation mark. *)
Lemma scan_string_len (r : string) :
  forall st pending str len,
    Json.scan_string st pending r = Some (str, len) -> 1 <= len <= String.length r.
Proof.
  induction r as [|c r IH]; intros st pending str len H; [discriminate H|].
  cbn [Json.scan_string] in H. cbn [String.length].
  repeat match type of H with
         | Json.emit _ _ = Some _ =>
             apply emit_some in H; destruct H as (t' & n' & H & ->);
             apply IH in H
         | Some _ = Some _ => injection H as _ <-
         | None = Some _ => discriminate H
         | (if ?b then _ else _) = Some _ => destruct b
         | match ?x with _ => _ end = Some _ => destruct x
         end; lia.
Qed.

Lemma ends_in_string_cons (t : Json.token) (toks : list Json.token) :
  ends_in_string toks -> ends_in_string (t :: toks).
Proof. intros (pre & s & ->). exists (t :: pre), s. reflexivity. Qed.

Lemma literal_inside (p : string) (c : ascii) (r rest : string) :
  lacks dquote p ->
  JS.strip_prefix p (String c r) = Some rest ->
  ends_with dquote (String c r) ->
  String.length p <= String.length r.
Proof.
  intros Hp Hs He. apply strip_prefix_some in Hs.
  destruct rest as [|x rest'].
  - rewrite append_nil_r in Hs. apply ends_count in He. rewrite Hs in He.
    unfold lacks in Hp. lia.
  - apply (f_equal String.length) in Hs. rewrite length_append in Hs.
    simpl in Hs. lia.
Qed.

(** The last token of a text that ends with a quotation mark is a
    string. *)
Lemma lex_ends_in_string (s : string) :
  forall k toks,
    ends_with dquote s -> k < String.length s ->
    Json.lex k s = Some toks -> ends_in_string toks.
Proof.
  induction s as [|c r IH]; intros k toks He Hk Hl; [simpl in Hk; lia|].
  destruct k as [|k].
  2:{ cbn [Json.lex] in Hl. simpl in Hk. apply (IH k toks); [|lia | exact Hl].
      apply (ends_tail _ c); [exact He|]. intros ->. simpl in Hk. lia. }
  destruct (string_dec r EmptyString) as [->|Hr].
  - destruct He as [a Ha]. destruct a as [|x [|y a']]; try discriminate Ha.
    injection Ha as ->. discriminate Hl.
  - pose proof (ends_tail _ _ _ He Hr) as He'.
    assert (0 < String.length r) as Hlen by (destruct r; [contradiction | simpl; lia]).
    pose proof (fun p rest Hp Hs => literal_inside p c r rest Hp Hs He) as Hlit.
    cbn [Json.lex] in Hl.
    destruct (Json.is_ws c); [apply (IH 0 toks); assumption|].
    repeat match type of Hl with
           | (if (JS.code c =? 34) then _ else _) = Some _ => fail 1
           | (if (JS.code c =? _) then _ else _) = Some _ =>
               destruct (JS.code c =? _);
               [apply cons_token_some in Hl; destruct Hl as (toks' & Hl & ->);
                apply ends_in_string_cons, (IH 0 toks'); assumption|]
           end.
    destruct (JS.code c =? 34).
    { destruct (Json.scan_string Json.SPlain None r) as [[str len]|] eqn:Es;
        [|discriminate Hl].
      apply cons_token_some in Hl. destruct Hl as (toks' & Hl & ->).
      pose proof (scan_string_len _ _ _ _ _ Es) as Hb.
      destruct (Nat.eq_dec len (String.length r)) as [E|E].
      - rewrite lex_skipped in Hl by lia. injection Hl as <-.
        exists [], str. reflexivity.
      - apply ends_in_string_cons, (IH len toks'); [assumption | lia | exact Hl]. }
    destruct ((JS.code c =? 45) || JS.is_digit c).
    { destruct (Json.scan_number (String c r)) as [[num len]|] eqn:En; [|discriminate Hl].
      apply cons_token_some in Hl. destruct Hl as (toks' & Hl & ->).
      assert (len <= String.length r) as Hb.
      { destruct He as [a Ha]. rewrite Ha in En.
        apply (scan_number_stop a dquote EmptyString num len eq_refl) in En.
        apply (f_equal String.length) in Ha. rewrite length_append in Ha.
        simpl in Ha. lia. }
      apply ends_in_string_cons, (IH (len - 1) toks'); [assumption | lia | exact Hl]. }
    destruct (JS.strip_prefix "true" (String c r)) as [r1|] eqn:E1.
    { apply cons_token_some in Hl. destruct Hl as (toks' & Hl & ->).
      pose proof (Hlit "true" r1 eq_refl E1) as Hb. simpl in Hb.
      apply ends_in_string_cons, (IH 3 toks'); [assumption | lia | exact Hl]. }
    destruct (JS.strip_prefix "false" (String c r)) as [r2|] eqn:E2.
    { apply cons_token_some in Hl. destruct Hl as (toks' & Hl & ->).
      pose proof (Hlit "false" r2 eq_refl E2) as Hb. simpl in Hb.
      apply ends_in_string_cons, (IH 4 toks'); [assumption | lia | exact Hl]. }
    destruct (JS.strip_prefix "null" (String c r)) as [r3|] eqn:E3; [|discriminate Hl].
    apply cons_token_some in Hl. destruct Hl as (toks' & Hl & ->).
    pose proof (Hlit "null" r3 eq_refl E3) as Hb. simpl in Hb.
    apply ends_in_string_cons, (IH 3 toks'); [assumption | lia | exact Hl].
Qed.

(** A text that begins with a character other than white space and the
    quotation mark does not begin with a string token. *)
Lemma lex_head_not_string (c : ascii) (r : string) (toks : list Json.token) :
  Json.is_ws c = false -> (JS.code c =? 34) = false ->
  Json.lex 0 (String c r) = Some toks ->
  forall s, toks <> [Json.TString s].
Proof.
  intros Hws Hq Hl s. cbn [Json.lex] in Hl. rewrite Hws, Hq in Hl.
  repeat match type of Hl with
         | (if ?b then _ else _) = Some _ => destruct b
         | match ?x with _ => _ end = Some _ => destruct x
         | Json.cons_token _ _ = Some _ =>
             apply cons_token_some in Hl; destruct Hl as (toks' & _ & ->)
         | None = Some _ => discriminate Hl
         end; discriminate.
Qed.

Lemma finish_started (v : value) (st : list Json.frame) : started (Json.finish v st).
Proof.
  destruct st as [|[acc|props k] st']; [right; eexists; reflexivity | |];
    left; discriminate.
Qed.

Lemma start_value_started (t : Json.token) (st : list Json.frame) (p : Json.pstate) :
  Json.start_value t st = Some p -> started p.
Proof.
  destruct t; simpl; intros H; try discriminate H; injection H as <-;
    try apply finish_started; left; discriminate.
Qed.

Lemma step_started (p p' : Json.pstate) (t : Json.token) :
  p = ([], Json.MValue) \/ started p -> Json.step p t = Some p' -> started p'.
Proof.
  intros Hp H. destruct p as [st m].
  assert (st = [] -> m = Json.MValue \/ exists v, m = Json.MDone v) as Hst.
  { intros ->. destruct Hp as [E | [E | [v E]]].
    - injection E as ->. auto.
    - contradiction E. reflexivity.
    - injection E as ->. eauto. }
  destruct m; simpl in H.
  - exact (start_value_started _ _ _ H).
  - destruct st as [|[acc|props k] st']; [destruct (Hst eq_refl) as [E|[v E]]; discriminate E| |];
      destruct t; try exact (start_value_started _ _ _ H);
      injection H as <-; apply finish_started.
  - destruct st as [|[acc|props k] st']; destruct t; try discriminate H;
      injection H as <-; try apply finish_started; left; discriminate.
  - destruct st as [|[acc|props k] st']; destruct t; try discriminate H;
      injection H as <-; left; discriminate.
  - destruct t; try discriminate H. injection H as <-.
    destruct st; [destruct (Hst eq_refl) as [E|[v E]]; discriminate E|].
    left. discriminate.
  - destruct st as [|[acc|props k] st']; destruct t; try discriminate H;
      injection H as <-; try apply finish_started; left; discriminate.
  - destruct t; destruct st as [|[|]]; discriminate H.
Qed.

Lemma run_started (toks : list Json.token) :
  forall p p', started p -> Json.run p toks = Some p' -> started p'.
Proof.
  induction toks as [|t r IH]; intros p p' Hp H; simpl in H.
  - injection H as <-. exact Hp.
  - destruct (Json.step p t) as [p1|] eqn:E; [|discriminate H].
    apply (IH p1 p'); [|exact H]. apply (step_started p p1 t); [right; exact Hp | exact E].
Qed.

Lemma run_app (a b : list Json.token) (p : Json.pstate) :
  Json.run p (a ++ b)
  = match Json.run p a with Some p' => Json.run p' b | None => None end.
Proof.
  revert p. induction a as [|t r IH]; intros p; [reflexivity|].
  simpl. destruct (Json.step p t); [apply IH | reflexivity].
Qed.

(** Once the reading has started, a string does not complete the text. *)
Lemma string_not_done (p : Json.pstate) (s : string) (st : list Json.frame) (v : value) :
  started p -> Json.step p (Json.TString s) <> Some (st, Json.MDone v).
Proof.
  intros [Hp | [w ->]]; [|discriminate].
  destruct p as [[|[acc|props k] st0] m]; [contradiction Hp; reflexivity | |];
    destruct m; simpl; discriminate.
Qed.

(** A text whose last token is a string and that is a JSON value is that
    string alone. *)
Lemma run_single (pre : list Json.token) (s : string) (st : list Json.frame) (v : value) :
  Json.run ([], Json.MValue) (pre ++ [Json.TString s]) = Some (st, Json.MDone v) ->
  pre = [].
Proof.
  intros H. destruct pre as [|t pre']; [reflexivity|]. exfalso.
  rewrite run_app in H.
  destruct (Json.run ([], Json.MValue) (t :: pre')) as [p|] eqn:E; [|discriminate H].
  assert (started p) as Hp.
  { cbn [Json.run] in E.
    destruct (Json.step ([], Json.MValue) t) as [p1|] eqn:E1; [|discriminate E].
    apply (run_started pre' p1 p); [|exact E].
    apply (step_started _ _ t (or_introl eq_refl) E1). }
  cbn [Json.run] in H.
  destruct (Json.step p (Json.TString s)) as [p2|] eqn:E2; [|discriminate H].
  injection H as ->. exact (string_not_done p s st v Hp E2).
Qed.

Lemma space_of_ws (c : ascii) : Json.is_ws c = true -> JS.is_space c = true.
Proof. intros H. destruct (ws_cases c H) as [-> | [-> | [-> | ->]]]; reflexivity. Qed.

(** A text that ends with a quotation mark and begins with a character
    other than white space and the quotation mark is not JSON. *)
Lemma not_json (c : ascii) (r : string) :
  JS.is_space c = false -> Ascii.eqb c dquote = false ->
  ends_with dquote (String c r) ->
  Json.JSON_parse (String c r) = None.
Proof.
  intros Hs Hq He. unfold Json.JSON_parse.
  destruct (Json.lex 0 (String c r)) as [toks|] eqn:El; [|reflexivity].
  assert (0 < String.length (String c r)) as Hlen by (simpl; lia).
  destruct (lex_ends_in_string _ 0 toks He Hlen El) as (pre & str & ->).
  destruct (Json.run ([], Json.MValue) (pre ++ [Json.TString str])) as [[st m]|] eqn:Er;
    [|reflexivity].
  destruct m; try reflexivity. exfalso.
  pose proof (run_single _ _ _ _ Er) as ->.
  apply (lex_head_not_string c r _) with (s := str) in El; [apply El; reflexivity | |].
  - destruct (Json.is_ws c) eqn:E; [|reflexivity].
    rewrite (space_of_ws c E) in Hs. discriminate Hs.
  - rewrite code_dquote. exact Hq.
Qed.

Lemma all_some_map {A : Type} (l : list (option A)) (vs : list A) :
  Csv.all_some l = Some vs -> l = map Some vs.
Proof.
  revert vs. induction l as [|[a|] r IH]; intros vs H; simpl in H.
  - injection H as <-. reflexivity.
  - destruct (Csv.all_some r) as [vs'|]; [|discriminate]. injection H as <-.
    simpl. rewrite (IH vs' eq_refl). reflexivity.
  - discriminate.
Qed.

Lemma cells_texts (cols : list string) (row : value) (vs : list string) :
  Csv.cells cols row = Some vs ->
  map (cell row) cols = map Some vs /\ length vs = length cols.
Proof.
  intros H. apply all_some_map in H. split; [exact H|].
  apply (f_equal (@length (option string))) in H. rewrite !length_map in H. lia.
Qed.

Lemma plain_rows_matrix (cols : list string) (data : list value) :
  plain_rows cols data ->
  exists matrix,
    Forall2 (fun row vs => Csv.cells cols row = Some vs /\ Forall plain_cell vs)
            data matrix.
Proof.
  induction 1 as [|row rest (vs & Hc & Hp) _ (m & IH)].
  - exists []. constructor.
  - exists (vs :: m). constructor; auto.
Qed.

Lemma exported_lines (cols : list string) (data : list value) (matrix : list (list string)) :
  Forall2 (fun row vs => Csv.cells cols row = Some vs /\ Forall plain_cell vs) data matrix ->
  Csv.all_some (map (Csv.csv_line cols) data) = Some (map exported_line matrix).
Proof.
  induction 1 as [|row vs rest m [Hc _] _ IH]; [reflexivity|].
  simpl. unfold Csv.csv_line at 1. rewrite Hc. simpl. rewrite IH. reflexivity.
Qed.

Lemma cell_of_field (row : value) (column v : string) :
  get row column = Own (JStr (or_empty (Some v))) -> cell row column = Some v.
Proof.
  intros H. unfold cell. rewrite H. destruct v as [|c r]; reflexivity.
Qed.

(** A row read back from its exported line shows the cell texts it was
    exported with. *)
Lemma render_read_back (cols : list string) (row : value) (vs : list string) :
  NoDup cols -> cols <> [] -> ~ In proto cols ->
  Csv.cells cols row = Some vs -> Forall plain_cell vs ->
  render cols (row_of cols Comma (exported_line vs)) = render cols row.
Proof.
  intros Hnd Hne Hnp Hc Hp. destruct (cells_texts cols row vs Hc) as [Hm Hlen].
  assert (vs <> []) as Hvs.
  { intros ->. destruct cols; [contradiction | discriminate]. }
  unfold render. apply map_ext_in. intros c Hin. f_equal.
  destruct (In_nth_error _ _ Hin) as [j Hj].
  assert (j < length cols) as Hjl by (apply nth_error_Some; congruence).
  assert (nth_error (map (cell row) cols) j = Some (cell row c)) as E1
      by (rewrite nth_error_map, Hj; reflexivity).
  rewrite Hm, nth_error_map in E1.
  destruct (nth_error vs j) as [v|] eqn:Ev; [|discriminate]. simpl in E1.
  injection E1 as E1. rewrite <- E1. apply cell_of_field.
  rewrite (row_positional cols Comma (exported_line vs) j c Hj).
  - unfold exported_line. rewrite (fields_of_line vs Hvs Hp), Ev. reflexivity.
  - intros ->. contradiction.
  - intros j' Hlt E. rewrite NoDup_nth_error in Hnd.
    assert (j = j') by (apply Hnd; [exact Hjl | congruence]). lia.
Qed.

Lemma filter_solid (l : list string) :
  Forall begins_solid l ->
  filter (fun line => JS.truthy_string (JS.trim line)) l = l.
Proof.
  induction 1 as [|x r Hx _ IH]; [reflexivity|].
  simpl. rewrite (begins_nonblank x Hx), IH. reflexivity.
Qed.

Lemma sanitize_plain (text : string) : lacks lt_sign text -> Production.sanitizeInput text = text.
Proof.
  intros H. unfold Production.sanitizeInput.
  rewrite <- (append_nil_r text) at 1. rewrite (strip_scripts_plain text EmptyString H).
  simpl. apply append_nil_r.
Qed.

(** The text that the export writes for plain columns and plain rows, as
    the production [parseData] sees it. *)
Lemma exported_text_shape (col1 col2 : string) (cols' : list string)
      (vs1 : list string) (matrix : list (list string)) :
  let cols := col1 :: col2 :: cols' in
  let header := Csv.join "," cols in
  let lines := map exported_line (vs1 :: matrix) in
  let csv := Csv.join (String nl EmptyString) (header :: lines) in
  Forall plain_name cols ->
  Forall (fun vs => vs <> [] /\ Forall plain_cell vs) (vs1 :: matrix) ->
  begins_solid csv /\
  JS.trim csv = csv /\ lacks lt_sign csv /\ Json.JSON_parse csv = None /\
  nonblank_lines csv = header :: lines /\
  sniff header = (Comma, S (length cols')) /\
  fields Comma header = cols.
Proof.
  intros cols header lines csv Hnames Hrows.
  assert (cols <> []) as Hcols by discriminate.
  assert (Forall begins_solid lines) as Hlb.
  { subst lines. apply Forall_map. (eapply Forall_impl; [|exact Hrows]); cbv beta.
    intros vs [Hne Hp]. apply line_begins; assumption. }
  assert (Forall (ends_with dquote) lines) as Hle.
  { subst lines. apply Forall_map. (eapply Forall_impl; [|exact Hrows]); cbv beta.
    intros vs [Hne Hp]. apply line_ends; assumption. }
  assert (forall c, Ascii.eqb dquote c = false -> lacks c "," ->
                    (forall v, plain_cell v -> lacks c v) -> Forall (lacks c) lines) as Hll.
  { intros c Hq Hs Hv. subst lines. apply Forall_map. (eapply Forall_impl; [|exact Hrows]); cbv beta.
    intros vs [_ Hp]. apply line_lacks; try assumption.
    (eapply Forall_impl; [|exact Hp]); cbv beta. exact Hv. }
  assert (begins_solid header) as Hhb.
  { subst header cols. apply begins_join, name_begins. inversion Hnames; assumption. }
  assert (forall c, lacks c "," -> (forall n, plain_name n -> lacks c n) -> lacks c header) as Hhl.
  { intros c Hs Hn. subst header. apply header_lacks; [exact Hs|].
    (eapply Forall_impl; [|exact Hnames]); cbv beta. exact Hn. }
  split; [|split; [|split; [|split; [|split; [|split]]]]].
  - subst csv. apply begins_join, Hhb.
  - apply trim_solid.
    + subst csv. apply begins_join, Hhb.
    + subst csv lines. simpl map.
      change (Csv.join (String nl EmptyString)
                (header :: exported_line vs1 :: map exported_line matrix))
        with ((header ++ String nl EmptyString
                 ++ Csv.join (String nl EmptyString)
                      (exported_line vs1 :: map exported_line matrix))%string).
      apply ends_append, ends_append, ends_join; [discriminate | exact Hle].
  - subst csv. apply lacks_join; [reflexivity|]. constructor.
    + apply Hhl; [reflexivity|]. intros n Hn. apply Hn.
    + apply Hll; [reflexivity | reflexivity|]. intros v Hv. apply Hv.
  - assert (plain_name col1) as H1 by (inversion Hnames; assumption).
    destruct H1 as (Hne1 & _ & Ht1 & _ & _ & _ & _ & _ & Hd1 & _).
    destruct col1 as [|c r]; [contradiction|].
    destruct (count_cons_zero _ _ _ Hd1) as [Hc _].
    pose proof (trimmed_head c r Ht1) as Hsp.
    assert (ends_with dquote csv) as He.
    { subst csv lines. simpl map.
      change (Csv.join (String nl EmptyString)
                (header :: exported_line vs1 :: map exported_line matrix))
        with ((header ++ String nl EmptyString
                 ++ Csv.join (String nl EmptyString)
                      (exported_line vs1 :: map exported_line matrix))%string).
      apply ends_append, ends_append, ends_join; [discriminate | exact Hle]. }
    assert (exists rest, csv = String c rest) as [rest Hcsv].
    { subst csv header cols lines. simpl map. eexists. reflexivity. }
    rewrite Hcsv in He |- *. apply not_json; assumption.
  - unfold nonblank_lines. subst csv.
    rewrite split_join.
    + apply filter_solid. constructor; assumption.
    + discriminate.
    + constructor.
      * apply Hhl; [reflexivity|]. intros n Hn. apply Hn.
      * apply Hll; [reflexivity | reflexivity|]. intros v Hv. apply Hv.
  - apply sniff_commas.
    + unfold count. subst header.
      change (Csv.join "," cols) with (Csv.join (String (char_of Comma) EmptyString) cols).
      rewrite count_join; [simpl; lia | exact Hcols |].
      (eapply Forall_impl; [|exact Hnames]); cbv beta. intros n Hn. apply Hn.
    + apply Hhl; [reflexivity|]. intros n Hn. apply Hn.
    + apply Hhl; [reflexivity|]. intros n Hn. apply Hn.
    + apply Hhl; [reflexivity|]. intros n Hn. apply Hn.
  - subst header. apply (fields_of_header cols Hcols Hnames).
Qed.

Lemma exported_text_parses (col1 col2 : string) (cols' : list string)
      (vs1 : list string) (matrix : list (list string)) :
  let cols := col1 :: col2 :: cols' in
  let header := Csv.join "," cols in
  let lines := map exported_line (vs1 :: matrix) in
  let csv := Csv.join (String nl EmptyString) (header :: lines) in
  Forall plain_name cols ->
  Forall (fun vs => vs <> [] /\ Forall plain_cell vs) (vs1 :: matrix) ->
  Production.parseData csv =
    Parsed {| data := map (row_of cols Comma)
                          (firstn Production.MAX_ROWS_DISPLAY lines);
              type := "CSV" |}.
Proof.
  intros cols header lines csv Hnames Hrows.
  pose proof (exported_text_shape col1 col2 cols' vs1 matrix Hnames Hrows)
    as (Hsolid & Htrim & Hlt & Hjson & Hnb & Hsniff & Hfields).
  cbv zeta in Hsolid, Htrim, Hlt, Hjson, Hnb, Hsniff, Hfields.
  fold cols in Hsolid, Htrim, Hlt, Hjson, Hnb, Hsniff, Hfields.
  fold header in Hsolid, Htrim, Hlt, Hjson, Hnb, Hsniff, Hfields.
  fold lines in Hsolid, Htrim, Hlt, Hjson, Hnb.
  fold csv in Hsolid, Htrim, Hlt, Hjson, Hnb.
  assert (sanitized csv = csv) as Hsan.
  { unfold sanitized. rewrite Htrim. apply sanitize_plain, Hlt. }
  assert (plines csv = header :: lines) as Hlines
      by (unfold plines; rewrite Hsan; exact Hnb).
  assert (pline csv = header) as Hline by (unfold pline; rewrite Hlines; reflexivity).
  assert (pbest csv = Comma) as Hbest by (unfold pbest; rewrite Hline, Hsniff; reflexivity).
  assert (pcount csv = S (length cols')) as Hcount
      by (unfold pcount; rewrite Hline, Hsniff; reflexivity).
  assert (pheaders csv = cols) as Hheaders.
  { unfold pheaders, Production.headers_of. rewrite Hbest, Hline, Hfields.
    apply filter_all.
    (eapply Forall_impl; [|exact Hnames]); cbv beta. intros n Hn. apply Hn. }
  rewrite (production_delimited csv).
  - rewrite Hlines, Hcount, Hheaders, Hbest.
    change (1 <? length (header :: lines)) with (0 <? length lines).
    assert ((0 <? length lines) = true) as -> by (subst lines; reflexivity).
    change (skipn 1 (header :: lines)) with lines. reflexivity.
  - rewrite Hsan. exact Hjson.
  - apply begins_nonblank, Hsolid.
Qed.

Lemma exported_text_parses_html (col1 col2 : string) (cols' : list string)
      (vs1 : list string) (matrix : list (list string)) :
  let cols := col1 :: col2 :: cols' in
  let header := Csv.join "," cols in
  let lines := map exported_line (vs1 :: matrix) in
  let csv := Csv.join (String nl EmptyString) (header :: lines) in
  Forall plain_name cols ->
  Forall (fun vs => vs <> [] /\ Forall plain_cell vs) (vs1 :: matrix) ->
  Html.parseData csv =
    Parsed {| data := map (row_of cols Comma) lines; type := "CSV" |}.
Proof.
  intros cols header lines csv Hnames Hrows.
  pose proof (exported_text_shape col1 col2 cols' vs1 matrix Hnames Hrows)
    as (Hsolid & Htrim & Hlt & Hjson & Hnb & Hsniff & Hfields).
  cbv zeta in Hsolid, Htrim, Hlt, Hjson, Hnb, Hsniff, Hfields.
  fold cols in Hsolid, Htrim, Hlt, Hjson, Hnb, Hsniff, Hfields.
  fold header in Hsolid, Htrim, Hlt, Hjson, Hnb, Hsniff, Hfields.
  fold lines in Hsolid, Htrim, Hlt, Hjson, Hnb.
  fold csv in Hsolid, Htrim, Hlt, Hjson, Hnb.
  assert (hlines csv = header :: lines) as Hlines
      by (unfold hlines; rewrite Htrim; exact Hnb).
  assert (hline csv = header) as Hline by (unfold hline; rewrite Hlines; reflexivity).
  assert (hbest csv = Comma) as Hbest by (unfold hbest; rewrite Hline, Hsniff; reflexivity).
  assert (hcount csv = S (length cols')) as Hcount
      by (unfold hcount; rewrite Hline, Hsniff; reflexivity).
  assert (hheaders csv = cols) as Hheaders
      by (unfold hheaders; rewrite Hbest, Hline; exact Hfields).
  rewrite (html_delimited csv).
  - rewrite Hlines, Hcount, Hheaders, Hbest.
    change (1 <? length (header :: lines)) with (0 <? length lines).
    assert ((0 <? length lines) = true) as -> by (subst lines; reflexivity).
    reflexivity.
  - exact Hjson.
  - apply begins_nonblank, Hsolid.
Qed.

Lemma matrix_rows (cols : list string) (rows : list value) (matrix : list (list string)) :
  cols <> [] ->
  Forall2 (fun row vs => Csv.cells cols row = Some vs /\ Forall plain_cell vs)
          rows matrix ->
  Forall (fun vs => vs <> [] /\ Forall plain_cell vs) matrix.
Proof.
  intros Hne HM. induction HM as [|r v rs ms [Hc Hp] _ IH]; constructor; [|exact IH].
  split; [|exact Hp]. destruct (cells_texts cols r v Hc) as [_ Hl].
  intros ->. destruct cols; [contradiction | discriminate Hl].
Qed.

Lemma rendered_rows_read_back (cols : list string) (rows : list value)
      (matrix : list (list string)) :
  NoDup cols -> cols <> [] -> ~ In proto cols ->
  Forall2 (fun row vs => Csv.cells cols row = Some vs /\ Forall plain_cell vs)
          rows matrix ->
  map (render cols) (map (row_of cols Comma) (map exported_line matrix)) =
    map (render cols) rows.
Proof.
  intros Hnd Hne Hnp HM.
  induction HM as [|r v rs ms [Hc Hp] _ IH]; [reflexivity|].
  cbn [map]. rewrite IH. f_equal.
  apply render_read_back; [exact Hnd | exact Hne | exact Hnp | exact Hc | exact Hp].
Qed.


Lemma plain_names_own (cols : list string) :
  Forall plain_name cols -> ~ In proto cols /\ own_names cols = cols.
Proof.
  intros H. split.
  - intros Hin. rewrite Forall_forall in H. apply (H proto Hin). reflexivity.
  - unfold own_names. induction H as [|c r (_ & Hc & _) _ IH]; [reflexivity|].
    simpl. destruct (String.eqb c proto) eqn:E.
    + apply String.eqb_eq in E. contradiction.
    + simpl. rewrite IH. reflexivity.
Qed.

(** X19: an export read back gives the first 1000 rows of the same table.
    Take at least two distinct column names, each of them plain (not empty,
    not [__proto__], its own trimming, without comma, tab, bar, semicolon,
    line feed, quotation mark, apostrophe or less-than sign), and at least
    one row, such that every cell under these columns has a text (no read of
    an inherited method, no throwing [toString]) without comma, line feed,
    quotation mark or less-than sign.  Then [exportCSV] writes a text that
    the production [parseData] accepts as CSV; the columns of the new rows
    are the same up to their order, and the records shown are those of the
    first 1000 exported rows, cell by cell: rows after the 1000th do not
    come back. *)
Theorem X19_export_reads_back :
  forall cols rows,
    2 <= length cols -> NoDup cols -> Forall plain_name cols ->
    rows <> [] ->
    plain_rows cols rows ->
    exists csv r cols',
      Csv.exportCSV cols rows = Csv.File csv /\
      Production.parseData csv = Parsed r /\
      type r = "CSV" /\
      columns (data r) = Some cols' /\ Permutation cols' cols /\
      map (render cols) (data r) = map (render cols) (firstn 1000 rows).
Proof.
  intros cols rows Hlen Hnd Hnames Hne Hrows.
  destruct (plain_rows_matrix cols rows Hrows) as [matrix HM].
  destruct (plain_names_own cols Hnames) as [Hnp Hown].
  destruct cols as [|col1 [|col2 cols']]; try (simpl in Hlen; lia).
  destruct HM as [|row vs1 rest m [Hc1 Hp1] HM']; [contradiction|].
  set (cols := col1 :: col2 :: cols') in *.
  assert (Forall2 (fun row vs => Csv.cells cols row = Some vs /\ Forall plain_cell vs)
                  (row :: rest) (vs1 :: m)) as HM by (constructor; auto).
  assert (cols <> []) as Hcols by discriminate.
  pose proof (matrix_rows cols _ _ Hcols HM) as Hvs.
  pose proof (exported_text_parses col1 col2 cols' vs1 m Hnames Hvs) as Hparse.
  cbv zeta in Hparse. fold cols in Hparse.
  eexists _, _, _. split; [|split; [exact Hparse | split; [reflexivity | split; [|split]]]].
  - unfold Csv.exportCSV. rewrite (exported_lines cols _ _ HM). reflexivity.
  - cbn [data]. apply columns_rows.
    change Production.MAX_ROWS_DISPLAY with 1000. cbn [map firstn]. discriminate.
  - rewrite Hown, (fold_set_add_fresh cols []) by exact Hnd. apply ordered_keys_perm.
  - cbn [data]. change Production.MAX_ROWS_DISPLAY with 1000.
    rewrite <- !firstn_map. f_equal.
    apply (rendered_rows_read_back cols _ _ Hnd); [discriminate | exact Hnp | exact HM].
Qed.

Lemma X19_witness :
  exists csv r cols',
    Csv.exportCSV people_columns people = Csv.File csv /\
    Production.parseData csv = Parsed r /\
    type r = "CSV" /\
    columns (data r) = Some cols' /\ Permutation cols' people_columns /\
    map (render people_columns) (data r)
      = map (render people_columns) (firstn 1000 people).
Proof.
  apply (X19_export_reads_back people_columns people).
  - simpl. lia.
  - repeat constructor; simpl; intros H; repeat destruct H as [H|H]; try discriminate H; exact H.
  - repeat constructor; try (intros E; discriminate E); vm_compute; reflexivity.
  - intros E; discriminate E.
  - repeat constructor.
    + exists ["John"; "30.5"]. split; [vm_compute; reflexivity|].
      repeat constructor; vm_compute; reflexivity.
    + exists ["Jane"; EmptyString]. split; [vm_compute; reflexivity|].
      repeat constructor; vm_compute; reflexivity.
Defined.

(** X20: the standalone page reads an export back whole.  Under the same
    conditions (at least two distinct plain column names, none of them
    [__proto__], at least one row, and every cell under the columns with a
    text that has no comma, line feed, quotation mark or less-than sign),
    and for any number of rows, the text that [exportCSV] writes is accepted
    by the [parseData] of the page as CSV, with one row per exported row,
    the same columns up to their order and the same cells in every
    record. *)
Theorem X20_page_reads_its_export_back :
  forall cols rows,
    2 <= length cols -> NoDup cols -> Forall plain_name cols ->
    rows <> [] ->
    plain_rows cols rows ->
    exists csv r cols',
      Csv.exportCSV cols rows = Csv.File csv /\
      Html.parseData csv = Parsed r /\
      type r = "CSV" /\
      columns (data r) = Some cols' /\ Permutation cols' cols /\
      map (render cols) (data r) = map (render cols) rows.
Proof.
  intros cols rows Hlen Hnd Hnames Hne Hrows.
  destruct (plain_rows_matrix cols rows Hrows) as [matrix HM].
  destruct (plain_names_own cols Hnames) as [Hnp Hown].
  destruct cols as [|col1 [|col2 cols']]; try (simpl in Hlen; lia).
  destruct HM as [|row vs1 rest m [Hc1 Hp1] HM']; [contradiction|].
  set (cols := col1 :: col2 :: cols') in *.
  assert (Forall2 (fun row vs => Csv.cells cols row = Some vs /\ Forall plain_cell vs)
                  (row :: rest) (vs1 :: m)) as HM by (constructor; auto).
  assert (cols <> []) as Hcols by discriminate.
  pose proof (matrix_rows cols _ _ Hcols HM) as Hvs.
  pose proof (exported_text_parses_html col1 col2 cols' vs1 m Hnames Hvs) as Hparse.
  cbv zeta in Hparse. fold cols in Hparse.
  eexists _, _, _. split; [|split; [exact Hparse | split; [reflexivity | split; [|split]]]].
  - unfold Csv.exportCSV. rewrite (exported_lines cols _ _ HM). reflexivity.
  - cbn [data]. apply columns_rows. discriminate.
  - rewrite Hown, (fold_set_add_fresh cols []) by exact Hnd. apply ordered_keys_perm.
  - cbn [data].
    apply (rendered_rows_read_back cols _ _ Hnd); [discriminate | exact Hnp | exact HM].
Qed.

Lemma X20_witness :
  exists csv r cols',
    Csv.exportCSV people_columns people = Csv.File csv /\
    Html.parseData csv = Parsed r /\
    type r = "CSV" /\
    columns (data r) = Some cols' /\ Permutation cols' people_columns /\
    map (render people_columns) (data r) = map (render people_columns) people.
Proof.
  apply (X20_page_reads_its_export_back people_columns people).
  - simpl. lia.
  - repeat constructor; simpl; intros H; repeat destruct H as [H|H]; try discriminate H; exact H.
  - repeat constructor; try (intros E; discriminate E); vm_compute; reflexivity.
  - intros E; discriminate E.
  - repeat constructor.
    + exists ["John"; "30.5"]. split; [vm_compute; reflexivity|].
      repeat constructor; vm_compute; reflexivity.
    + exists ["Jane"; EmptyString]. split; [vm_compute; reflexivity|].
      repeat constructor; vm_compute; reflexivity.
Defined.

(** ** The key and the failures of the repair call *)

Lemma strip_prefix_app (p r : string) : JS.strip_prefix p (p ++ r) = Some r.
Proof.
  induction p as [|a p' IH]; simpl; [reflexivity|].
  rewrite Ascii.eqb_refl. exact IH.
Qed.

Lemma trim_key (rest : string) :
  JS.trim ("AIza" ++ rest) = ("AIza" ++ JS.trimEnd rest)%string.
Proof.
  change (("AIza" ++ rest)%string)
    with (String "A" (String "I" (String "z" (String "a" rest)))).
  unfold JS.trim. rewrite trimStart_cons by reflexivity.
  rewrite !trimEnd_cons by reflexivity. reflexivity.
Qed.

(** X21: a key is accepted exactly when it starts with AIza, with nothing
    before it, and more than 16 characters follow once the white space at
    its end is left out: white space after the key is allowed and not
    counted, white space before it makes the key invalid. *)
Theorem X21_accepted_keys :
  forall key,
    Repair.validateApiKey key = true <->
    exists rest, key = ("AIza" ++ rest)%string /\ 16 < String.length (JS.trimEnd rest).
Proof.
  intros key. unfold Repair.validateApiKey. split.
  - intros H. apply andb_prop in H. destruct H as [H Hp].
    apply andb_prop in H. destruct H as [_ Hl].
    destruct (JS.strip_prefix "AIza" key) as [rest|] eqn:E; [|discriminate].
    apply strip_prefix_some in E. subst key. exists rest. split; [reflexivity|].
    rewrite trim_key, length_append in Hl. apply Nat.ltb_lt in Hl.
    change (String.length "AIza") with 4 in Hl. lia.
  - intros (rest & -> & Hl). rewrite strip_prefix_app, trim_key, length_append.
    change (String.length "AIza") with 4.
    assert ((20 <? 4 + String.length (JS.trimEnd rest)) = true) as ->
        by (apply Nat.ltb_lt; lia).
    reflexivity.
Qed.

Lemma after_response_failure (t t' : N) (r : Repair.response) (m : string) :
  Repair.after_response t r = Repair.Throws t' m ->
  exists cause, m = ("AI correction failed: " ++ cause)%string.
Proof.
  unfold Repair.after_response. destruct (Repair.json r) as [d rd|]; [|discriminate].
  destruct (negb (Repair.ok r)).
  - intros E. apply throws_message in E. destruct E as [_ <-]. eexists. reflexivity.
  - destruct rd as [b|m'].
    + destruct (Repair.candidates b); intros E; try discriminate E;
        apply throws_message in E; destruct E as [_ <-]; eexists; reflexivity.
    + intros E. apply throws_message in E. destruct E as [_ <-]. eexists. reflexivity.
Qed.

Lemma valid_key_failure (net : Repair.service) (t : N) (m : string) :
  Repair.correctDataWithGemini true net = Repair.Throws t m ->
  m = Repair.timed_out \/ exists cause, m = ("AI correction failed: " ++ cause)%string.
Proof.
  unfold Repair.correctDataWithGemini. simpl negb. cbv iota.
  destruct (Repair.fetch net) as [t' outcome|].
  - destruct (t' <? Repair.DEADLINE)%N.
    + destruct outcome as [r|m'].
      * intros H. right. exact (after_response_failure _ _ _ _ H).
      * intros H. apply throws_message in H. destruct H as [_ <-].
        right. eexists. reflexivity.
    + intros H. apply throws_message in H. destruct H as [_ <-]. left. reflexivity.
  - intros H. apply throws_message in H. destruct H as [_ <-]. left. reflexivity.
Qed.

Lemma key_missing_is_neither (cause : string) :
  key_missing <> Repair.timed_out /\
  key_missing <> ("AI correction failed: " ++ cause)%string.
Proof. unfold key_missing, Repair.timed_out. split; simpl; discriminate. Qed.

(** X22: without a valid key no request is made: whatever the service
    would do, the call fails at once with the message that asks for a key,
    and this message is raised in no other case.  With a valid key a
    failure is either the time-out message or the cause after the words
    AI correction failed. *)
Theorem X22_failures_of_the_repair_call :
  forall keyValid net,
    (keyValid = false ->
     Repair.correctDataWithGemini keyValid net = Repair.Throws 0 key_missing) /\
    (forall t, Repair.correctDataWithGemini keyValid net = Repair.Throws t key_missing ->
               keyValid = false /\ t = 0%N) /\
    (forall t m, keyValid = true ->
                 Repair.correctDataWithGemini keyValid net = Repair.Throws t m ->
                 m = Repair.timed_out \/
                 exists cause, m = ("AI correction failed: " ++ cause)%string).
Proof.
  intros keyValid net. split; [|split].
  - intros ->. reflexivity.
  - intros t H. destruct keyValid.
    + exfalso. destruct (valid_key_failure net t key_missing H) as [E | [cause E]].
      * exact (proj1 (key_missing_is_neither EmptyString) E).
      * exact (proj2 (key_missing_is_neither cause) E).
    + apply throws_message in H. destruct H as [<- _]. auto.
  - intros t m -> H. exact (valid_key_failure net t m H).
Qed.

Lemma X22_witness :
  Repair.correctDataWithGemini false helpful = Repair.Throws 0 key_missing /\
  (Repair.timed_out = Repair.timed_out \/
   exists cause, Repair.timed_out = ("AI correction failed: " ++ cause)%string).
Proof.
  split.
  - apply (X22_failures_of_the_repair_call false helpful). reflexivity.
  - apply (proj2 (proj2 (X22_failures_of_the_repair_call true silent))
             Repair.DEADLINE Repair.timed_out); reflexivity.
Defined.

(** ** Ties in the sort *)

Lemma comparator_same (dir : DataTable.direction) (a b k : string) :
  String.eqb a k = true -> String.eqb b k = true ->
  (DataTable.comparator dir a b <=? 0)%Z = true.
Proof.
  intros Ha Hb. apply String.eqb_eq in Ha, Hb. subst a b.
  unfold DataTable.comparator, String.ltb.
  assert (String.compare k k = Eq) as ->.
  { pose proof (String.compare_antisym k k) as E.
    destruct (String.compare k k); [reflexivity | discriminate E | discriminate E]. }
  reflexivity.
Qed.

Lemma insert_filter (dir : DataTable.direction) (k : string) (x : string * value)
      (l : list (string * value)) :
  filter (fun p => String.eqb (fst p) k) (DataTable.insert dir x l)
  = filter (fun p => String.eqb (fst p) k) (x :: l).
Proof.
  induction l as [|y r IH]; [reflexivity|].
  cbn [DataTable.insert].
  destruct (DataTable.comparator dir (fst x) (fst y) <=? 0)%Z eqn:Ec; [reflexivity|].
  cbn [filter] in *.
  destruct (String.eqb (fst x) k) eqn:Ex, (String.eqb (fst y) k) eqn:Ey;
    rewrite IH; try reflexivity.
  rewrite (comparator_same dir _ _ k Ex Ey) in Ec. discriminate Ec.
Qed.

Lemma sort_filter (dir : DataTable.direction) (k : string) (l : list (string * value)) :
  filter (fun p => String.eqb (fst p) k) (DataTable.sort dir l)
  = filter (fun p => String.eqb (fst p) k) l.
Proof.
  induction l as [|x r IH]; [reflexivity|].
  cbn [DataTable.sort fold_right]. fold (DataTable.sort dir r).
  rewrite insert_filter. cbn [filter]. rewrite IH. reflexivity.
Qed.

Lemma filter_keyed (column k : string) (l : list (string * value)) :
  Forall (fun p => DataTable.sort_key column (snd p) = Some (fst p)) l ->
  filter (same_key column k) (map snd l)
  = map snd (filter (fun p => String.eqb (fst p) k) l).
Proof.
  induction 1 as [|p r Hp _ IH]; [reflexivity|].
  cbn [map filter]. unfold same_key at 1. rewrite Hp, IH.
  destruct (String.eqb (fst p) k); reflexivity.
Qed.

(** X23: the sort keeps ties in place.  Whenever every cell under the
    sort column has a text, or no column is chosen, the sort returns, and
    the rows whose lower-cased cell text under the sort column is a given
    text come in the sorted data in the order they had in the data, in
    either direction. *)
Theorem X23_ties_keep_their_order :
  forall s data,
    sortable s data ->
    exists sorted,
      DataTable.sortedData s data = Some sorted /\
      forall k, filter (same_key (DataTable.sortColumn s) k) sorted
                = filter (same_key (DataTable.sortColumn s) k) data.
Proof.
  intros s data Hs. destruct (sortable_sorts s data Hs) as [sorted H].
  exists sorted. split; [exact H|]. intros k. unfold DataTable.sortedData in H.
  destruct (JS.is_empty (DataTable.sortColumn s)).
  - injection H as <-. reflexivity.
  - destruct (DataTable.keyed (DataTable.sortColumn s) data) as [l|] eqn:Ek; [|discriminate].
    injection H as <-. destruct (keyed_rows _ _ _ Ek) as [<- Hf].
    rewrite (filter_keyed _ k l Hf).
    rewrite (filter_keyed _ k (DataTable.sort (DataTable.sortDirection s) l)).
    + rewrite sort_filter. reflexivity.
    + apply (Permutation_Forall (Permutation_sym (sort_perm _ l))). exact Hf.
Qed.

Lemma X23_witness :
  exists sorted,
    DataTable.sortedData by_name (data two_objects_result) = Some sorted /\
    forall k, filter (same_key "b" k) sorted
              = filter (same_key "b" k) (data two_objects_result).
Proof.
  apply (X23_ties_keep_their_order by_name (data two_objects_result)).
  right. intros row [<- | [<- | []]]; vm_compute; discriminate.
Defined.

(** ** The standalone page has no deadline *)

(** X24: the repair call of the standalone page, given a non-blank key,
    does what the production call does with a valid key whenever the head
    of the response arrives within 30 seconds; it never raises the
    time-out message, and it stays unsettled exactly when the request
    never settles or the body of the response never completes. *)
Theorem X24_page_has_no_deadline :
  forall apiKey net,
    JS.truthy_string (JS.trim apiKey) = true ->
    (forall t outcome,
        Repair.fetch net = Repair.After t outcome -> (t < 30000)%N ->
        HtmlRepair.correctDataWithGemini apiKey net
        = Repair.correctDataWithGemini true net) /\
    (forall t, HtmlRepair.correctDataWithGemini apiKey net
               <> Repair.Throws t Repair.timed_out) /\
    (HtmlRepair.correctDataWithGemini apiKey net = Repair.Unsettled <->
     Repair.fetch net = Repair.Pending \/
     exists t r, Repair.fetch net = Repair.After t (Repair.Response r) /\
                 Repair.json r = Repair.Pending).
Proof.
  intros apiKey net Hk. unfold HtmlRepair.correctDataWithGemini. rewrite Hk.
  simpl negb. cbv iota. split; [|split].
  - intros t outcome Hf Ht. unfold Repair.correctDataWithGemini. rewrite Hf.
    simpl negb. cbv iota. apply N.ltb_lt in Ht. unfold Repair.DEADLINE. rewrite Ht.
    destruct outcome; reflexivity.
  - intros t. destruct (Repair.fetch net) as [t' outcome|]; [|discriminate].
    destruct outcome as [r|m].
    + apply after_response_not_timeout.
    + intros E. apply throws_message in E. exact (rethrow_other m (proj2 E)).
  - destruct (Repair.fetch net) as [t' outcome|].
    + destruct outcome as [r|m].
      * split.
        -- intros H. right. exists t', r. split; [reflexivity|].
           unfold Repair.after_response in H.
           destruct (Repair.json r) as [d rd|]; [|reflexivity].
           destruct (negb (Repair.ok r)); [discriminate H|].
           destruct rd as [b|m]; [destruct (Repair.candidates b)|]; discriminate H.
        -- intros [E | (t & r' & E & Hj)]; [discriminate E|].
           injection E as _ <-. unfold Repair.after_response. rewrite Hj. reflexivity.
      * split; [discriminate|]. intros [E | (t & r' & E & _)]; discriminate E.
    + split; [auto | reflexivity].
Qed.

Lemma X24_witness :
  HtmlRepair.correctDataWithGemini "k" helpful = Repair.correctDataWithGemini true helpful /\
  HtmlRepair.correctDataWithGemini "k" silent = Repair.Unsettled.
Proof.
  split.
  - pose proof (X24_page_has_no_deadline "k" helpful eq_refl) as (H & _).
    apply (H 1500%N _ eq_refl). reflexivity.
  - pose proof (X24_page_has_no_deadline "k" silent eq_refl) as (_ & _ & H).
    apply H. left. reflexivity.
Defined.
